(** * yoga-petz: the task-execution core, embedded and verified

    Shallow embedding of [storage.py], [account.py] and [main.py]:
    the persistent store, the invite pool, the transaction lifecycle and
    the batch orchestrator.  Python objects that are shared and mutated
    live in an explicit heap; awaited collaborators (platform client, chain
    client, timers) are parameters acting on an abstract outside world. *)

From Stdlib Require Import ZArith Lia Ascii String.
From stdpp Require Import base option list strings pretty gmap fin_maps.

Local Open Scope string_scope.
Local Open Scope Z_scope.
Local Open Scope list_scope.

(** ** Python exceptions and results *)

(** The exception classes the code names or provokes.  All of them derive
    from [Exception], which is what every handler of the code catches. *)
Inductive exn_class : Type :=
  | PlainException            (* raise Exception('...') *)
  | TransactionNotFound       (* web3.exceptions.TransactionNotFound *)
  | ZeroDivisionError
  | IndexError
  | FileNotFoundError
  | OtherError (name : string).

Record exn : Type := Exn { exn_cls : exn_class; exn_msg : string }.

(** [str(e)] *)
Definition str_of_exn (e : exn) : string := exn_msg e.

Inductive result (A : Type) : Type :=
  | Ok (a : A)
  | Raise (e : exn).
Arguments Ok {A} a.
Arguments Raise {A} e.

Definition result_bind {A B} (r : result A) (k : A → result B) : result B :=
  match r with
  | Ok a => k a
  | Raise e => Raise e
  end.

(** ** Python integer and sequence primitives *)

(** [seq[k]] for a possibly negative index: position counted from the end
    when [k < 0], [None] where Python raises IndexError. *)
Definition py_index {A} (l : list A) (k : Z) : option nat :=
  let len := Z.of_nat (length l) in
  if decide (0 ≤ k) then
    if decide (k < len) then Some (Z.to_nat k) else None
  else
    if decide (0 ≤ len + k) then Some (Z.to_nat (len + k)) else None.

(** [seq[k:]] *)
Definition py_slice_from {A} (k : Z) (l : list A) : list A :=
  let len := Z.of_nat (length l) in
  if decide (0 ≤ k) then drop (Z.to_nat k) l
  else drop (Z.to_nat (len + k)) l.

(** [list(enumerate(seq, start=1))] *)
Definition enumerate1 {A} (l : list A) : list (nat * A) :=
  imap (λ i a, (S i, a)) l.

(** ** main.py: get_batches *)

Module Batches.

(** (wallet, proxy, twitter_token) *)
Definition account_data : Type := string * string * string.

(** [zip(wallets, cycle(proxies), twitters)]: as long as the shorter of
    [wallets] and [twitters]; empty when there is no proxy to cycle. *)
Definition zip_accounts (wallets proxies twitters : list string)
  : list account_data :=
  match proxies with
  | [] => []
  | _ =>
      imap (λ i wt, (wt.1, default "" (proxies !! (i `mod` length proxies)%nat), wt.2))
           (zip wallets twitters)
  end.

Section Distribute.
Context {A : Type}.

(** [_batches[_idx % THREADS_NUM].append(d)] *)
Definition append_to_batch (threads_num : Z) (batches : list (list A))
    (idx : nat) (d : A) : result (list (list A)) :=
  if decide (threads_num = 0) then
    Raise (Exn ZeroDivisionError "integer modulo by zero")
  else
    match py_index batches (Z.of_nat idx `mod` threads_num) with
    | None => Raise (Exn IndexError "list index out of range")
    | Some k => Ok (alter (λ b, b ++ [d]) k batches)
    end.

(** [for _idx, d in enumerate(_data): ...], entered at index [idx] *)
Fixpoint distribute_from (threads_num : Z) (batches : list (list A))
    (idx : nat) (data : list A) : result (list (list A)) :=
  match data with
  | [] => Ok batches
  | d :: rest =>
      result_bind (append_to_batch threads_num batches idx d)
        (λ batches', distribute_from threads_num batches' (S idx) rest)
  end.

(** [[[] for _ in range(THREADS_NUM)]] followed by the loop *)
Definition distribute (threads_num : Z) (data : list A)
  : result (list (list A)) :=
  distribute_from threads_num (replicate (Z.to_nat threads_num) []) 0 data.

(** What the loop has built once it has consumed [data]. *)
Definition round_robin (n : nat) (data : list A) (bs : list (list A)) : Prop :=
  length bs = n
  ∧ (∀ (j : nat) b (q : nat), bs !! j = Some b →
       (q < length b)%nat ↔ (q * n + j < length data)%nat)
  ∧ (∀ (i : nat) d, data !! i = Some d →
       ∃ b, bs !! (i `mod` n)%nat = Some b ∧ b !! (i `div` n)%nat = Some d)
  ∧ concat bs ≡ₚ data.
End Distribute.

Section GetBatches.
Variables (wallets proxies twitters : list string).
Variable want_only : list nat.
Variable THREADS_NUM : Z.

Definition batch_data (skip : option Z) : list (nat * account_data) :=
  let all := enumerate1 (zip_accounts wallets proxies twitters) in
  let _data := match skip with
               | Some s => py_slice_from s all
               | None => all
               end in
  match skip, want_only with
  | Some _, _ :: _ => filter (λ d, d.1 ∈ want_only) all
  | _, _ => _data
  end.

Definition get_batches (skip : option Z)
  : result (list (list (nat * account_data))) :=
  distribute THREADS_NUM (batch_data skip).
End GetBatches.

End Batches.

(** ** storage.py: the persistent store *)

Module Storage.

Abbreviation loc := positive.

(** [AccountInfo.next_breathe_time]: 'Completed', 'Not started', the
    platform's nextAvailableFrom timestamp, or unset. *)
Inductive breathe : Type :=
  | BreatheText (s : string)
  | BreatheAt (ms : Z)
  | BreatheUnset.

(** Modelled from the spec: [models.AccountInfo] (models.py), with the
    fields of §3 AccountState that storage.py, account.py and main.py
    read or write.  [L] and [D] are what the two mutable fields hold: a
    Python list of codes and a dict of per-rarity counts when the record
    is read as a value, references to those objects when it is the
    object in memory. *)
Record account_info (L D : Type) : Type := AccountInfo {
  address : string;
  proxy : string;
  twitter_auth_token : string;
  invite_codes : L;
  exp : Z;
  lvl : Z;
  pending_quests : Z;
  next_breathe_time : breathe;
  daily_insight : string;
  insights_to_open : Z;
  insights : D;
}.
Arguments AccountInfo {L D}.
Arguments address {L D}.
Arguments proxy {L D}.
Arguments twitter_auth_token {L D}.
Arguments invite_codes {L D}.
Arguments exp {L D}.
Arguments lvl {L D}.
Arguments pending_quests {L D}.
Arguments next_breathe_time {L D}.
Arguments daily_insight {L D}.
Arguments insights_to_open {L D}.
Arguments insights {L D}.

(** The same record with other contents in the two mutable fields. *)
Definition with_fields {L D L' D'} (a : account_info L D) (codes : L') (ins : D')
  : account_info L' D' :=
  {| address := address a; proxy := proxy a;
     twitter_auth_token := twitter_auth_token a;
     invite_codes := codes;
     exp := exp a; lvl := lvl a; pending_quests := pending_quests a;
     next_breathe_time := next_breathe_time a;
     daily_insight := daily_insight a;
     insights_to_open := insights_to_open a;
     insights := ins |}.

(** An account record read as a value. *)
Abbreviation account_value := (account_info (list string) (gmap string Z)).

(** Objects in memory.  Strings and integers are immutable and stay
    inline; the list, the dict and the record itself are mutable objects
    with an identity. *)
Inductive obj : Type :=
  | ObjList (items : list string)
  | ObjDict (entries : gmap string Z)
  | ObjAccount (fields : account_info loc loc).

Abbreviation heap := (gmap loc obj).

(** A new object: a location no object occupies yet. *)
Definition alloc (o : obj) (h : heap) : loc * heap :=
  let l := fresh (dom h) in (l, <[l:=o]> h).

(** What an [AccountInfo] object holds, read through its references. *)
Definition view (h : heap) (l : loc) : option account_value :=
  match h !! l with
  | Some (ObjAccount a) =>
      match h !! invite_codes a, h !! insights a with
      | Some (ObjList codes), Some (ObjDict ins) => Some (with_fields a codes ins)
      | _, _ => None
      end
  | _ => None
  end.

(** The objects an [AccountInfo] object consists of. *)
Definition footprint (h : heap) (l : loc) : gset loc :=
  match h !! l with
  | Some (ObjAccount a) => {[ l; invite_codes a; insights a ]}
  | _ => {[ l ]}
  end.

(** Building an [AccountInfo] object from a value: new list, new dict,
    new record. *)
Definition alloc_account (v : account_value) (h : heap) : loc * heap :=
  let '(lc, h1) := alloc (ObjList (invite_codes v)) h in
  let '(li, h2) := alloc (ObjDict (insights v)) h1 in
  alloc (ObjAccount (with_fields v lc li)) h2.

(** [copy.deepcopy(info)]: [None] only on a heap where [info] is not a
    complete [AccountInfo] object. *)
Definition deepcopy (l : loc) (h : heap) : option (loc * heap) :=
  v ← view h l; Some (alloc_account v h).

(** [copy.copy(info)], for comparison: a new record sharing the list and
    the dict of the original.  The store does not use it. *)
Definition shallowcopy (l : loc) (h : heap) : option (loc * heap) :=
  match h !! l with
  | Some (ObjAccount a) => Some (alloc (ObjAccount a) h)
  | _ => None
  end.

(** The snapshot file.  [json.dump] and [json.load] are Python's; the
    file is modelled by the document it holds: blank text, a JSON object
    with its members, or anything [json.load(...).items()] rejects. *)
Inductive file_content (J : Type) : Type :=
  | Blank
  | JsonObject (members : gmap string J)
  | Unparsable.
Arguments Blank {J}.
Arguments JsonObject {J} members.
Arguments Unparsable {J}.

Record storage : Type := Store {
  filename : string;
  data : gmap string loc;
}.

(** [Storage(filename)] *)
Definition new (fname : string) : storage :=
  {| filename := fname; data := ∅ |}.

Definition get_final_account_info (s : storage) (addr : string) (h : heap)
  : option (option loc * heap) :=
  match data s !! addr with
  | None => Some (None, h)
  | Some info => '(c, h') ← deepcopy info h; Some (Some c, h')
  end.

Definition set_final_account_info (s : storage) (addr : string) (info : loc)
    (h : heap) : option (storage * heap) :=
  '(c, h') ← deepcopy info h;
  Some ({| filename := filename s; data := <[addr:=c]> (data s) |}, h').

Definition remove (s : storage) (addr : string) : storage :=
  match data s !! addr with
  | Some _ => {| filename := filename s; data := delete addr (data s) |}
  | None => s
  end.

(** The async accessors run the same bodies while holding [self.lock]. *)
Definition get_account_info := get_final_account_info.
Definition set_account_info := set_final_account_info.

(** The address -> record mapping the store holds, as values. *)
Definition contents (s : storage) (h : heap) : gmap string account_value :=
  omap (view h) (data s).

(** Every entry of the store is a complete record. *)
Definition wf (s : storage) (h : heap) : Prop :=
  ∀ addr l, data s !! addr = Some l → is_Some (view h l).

(** The objects the store's entries consist of. *)
Definition owns (s : storage) (h : heap) (x : loc) : Prop :=
  ∃ addr l, data s !! addr = Some l ∧ x ∈ footprint h l.

(** [h'] comes from [h] by mutating objects among [L] only. *)
Definition mutates (L : gset loc) (h h' : heap) : Prop :=
  ∀ x, x ∉ L → h' !! x = h !! x.

Section Snapshot.
(** [J]: the JSON value of one record.  [to_dict] and [from_dict] are
    [AccountInfo.to_dict] and [AccountInfo.from_dict] of models.py,
    which is not among the sources. *)
Context {J : Type}.
Variable to_dict : account_value → J.
Variable from_dict : J → result account_value.

Abbreviation disk := (gmap string (file_content J)).

Definition save (s : storage) (h : heap) (d : disk) : disk :=
  let converted_data := to_dict <$> contents s h in
  <[filename s := JsonObject converted_data]> d.

(** [{a: AccountInfo.from_dict(i) for a, i in converted_data.items()}] *)
Fixpoint load_items (items : list (string * J)) (acc : gmap string loc)
    (h : heap) : result (gmap string loc * heap) :=
  match items with
  | [] => Ok (acc, h)
  | (a, i) :: rest =>
      match from_dict i with
      | Raise e => Raise e
      | Ok v =>
          let '(l, h') := alloc_account v h in
          load_items rest (<[a:=l]> acc) h'
      end
  end.

Definition init (s : storage) (h : heap) (d : disk)
  : result (storage * heap) :=
  match d !! filename s with
  | None =>
      Raise (Exn FileNotFoundError "No such file or directory")
  | Some Blank => Ok ({| filename := filename s; data := ∅ |}, h)
  | Some Unparsable => Raise (Exn (OtherError "JSONDecodeError") "")
  | Some (JsonObject converted_data) =>
      match load_items (map_to_list converted_data) ∅ h with
      | Raise e => Raise e
      | Ok (m, h') => Ok ({| filename := filename s; data := m |}, h')
      end
  end.
End Snapshot.

End Storage.

(** ** Strings *)

(** [needle in hay] *)
Fixpoint contains (needle hay : string) : bool :=
  String.prefix needle hay
  || match hay with
     | EmptyString => false
     | String _ rest => contains needle rest
     end.

(** The line boundaries of [str.splitlines] among the characters a
    [string] here can hold (code points below 256): LF, VT, FF, CR, FS,
    GS, RS and NEL; CR LF counts as one. *)
Definition is_line_boundary (c : ascii) : bool :=
  let n := nat_of_ascii c in
  bool_decide (n = 10 ∨ n = 11 ∨ n = 12 ∨ n = 13 ∨ n = 28 ∨ n = 29 ∨ n = 30 ∨ n = 133)%nat.

(** [s.splitlines()]; [cur] is the line under construction, reversed. *)
Fixpoint splitlines_from (cur : list ascii) (s : string) : list string :=
  match s with
  | EmptyString =>
      match cur with
      | [] => []
      | _ => [string_of_list_ascii (reverse cur)]
      end
  | String c rest =>
      if is_line_boundary c then
        string_of_list_ascii (reverse cur) ::
          match rest with
          | String c' rest' =>
              if bool_decide (nat_of_ascii c = 13 ∧ nat_of_ascii c' = 10)%nat
              then splitlines_from [] rest'
              else splitlines_from [] rest
          | EmptyString => []
          end
      else splitlines_from (c :: cur) rest
  end.

Definition splitlines (s : string) : list string := splitlines_from [] s.

(** ** Effects *)

(** What the code passes to [asyncio.sleep]: the expression, not its
    floating-point value. *)
Inductive duration : Type :=
  | Seconds (n : Z)
  | Quotient (a b : Z)                  (* a / b *)
  | QuotientTimes (a b : Z) (k : nat)   (* a / b * k *)
  | Uniform (lo hi : Z).                (* random.uniform(lo, hi) *)

Inductive level : Type := INFO | SUCCESS | WARNING | ERROR.

(** What a run leaves behind, oldest first. *)
Inductive event : Type :=
  | EvSleep (d : duration)
  | EvLog (lv : level) (msg : string)
  | EvPrint
  | EvAppendFile (path text : string)
  | EvCall (name : string).             (* a collaborator was called *)

Global Instance duration_eq_dec : EqDecision duration.
Proof. solve_decision. Defined.
Global Instance level_eq_dec : EqDecision level.
Proof. solve_decision. Defined.
Global Instance event_eq_dec : EqDecision event.
Proof. solve_decision. Defined.

(** How often the collaborator [name] was called in a stretch of trace. *)
Definition count_calls (name : string) (evs : list event) : nat :=
  length (filter (λ e, e = EvCall name) evs).

(** A WARNING left by the logger. *)
Definition is_warning (e : event) : Prop :=
  match e with
  | EvLog WARNING _ => True
  | _ => False
  end.

Global Instance is_warning_dec e : Decision (is_warning e).
Proof. destruct e as [|[] ?| | |]; simpl; apply _. Defined.

(** A computation over a state [S] that returns or raises. *)
Definition eff (S A : Type) : Type := S → result A * S.

Definition eff_ret {S A} (a : A) : eff S A := λ s, (Ok a, s).

Definition eff_bind {S A B} (m : eff S A) (k : A → eff S B) : eff S B :=
  λ s, match m s with
       | (Ok a, s') => k a s'
       | (Raise e, s') => (Raise e, s')
       end.

Definition raise {S A} (e : exn) : eff S A := λ s, (Raise e, s).

(** [try: m except Exception as e: handler(e)] *)
Definition try_except {S A} (m : eff S A) (handler : exn → eff S A) : eff S A :=
  λ s, match m s with
       | (Ok a, s') => (Ok a, s')
       | (Raise e, s') => handler e s'
       end.

Declare Scope eff_scope.
Delimit Scope eff_scope with eff.
Notation "'let!' x := m 'in' k" := (eff_bind m (λ x, k))
  (at level 10, x name, m at level 100, k at level 200,
   format "'[v' 'let!'  x  :=  m  'in' '/' k ']'") : eff_scope.
Notation "m ;; k" := (eff_bind m (λ _, k))
  (at level 100, k at level 200, right associativity) : eff_scope.
Local Open Scope eff_scope.

(** [a / b] on numbers, for a [sleep]: ZeroDivisionError when [b = 0]. *)
Definition truediv {S} (a b : Z) : eff S duration :=
  if decide (b = 0) then raise (Exn ZeroDivisionError "division by zero")
  else eff_ret (Quotient a b).

(** [seq[:k]] *)
Definition py_slice_to {A} (k : Z) (l : list A) : list A :=
  let len := Z.of_nat (length l) in
  if decide (0 ≤ k) then take (Z.to_nat k) l
  else take (Z.to_nat (len + k)) l.

(** The state a run shares between its workers: the invite pool (the
    list [InvitesHandler.invites]), the world outside the process that
    the collaborators act on, and what the run has left behind so far. *)
Record run_state (W : Type) : Type := RunState {
  invites : list string;
  outside : W;
  trace : list event;
}.
Arguments RunState {W}.
Arguments invites {W}.
Arguments outside {W}.
Arguments trace {W}.

Section RunState.
Context {W : Type}.

Definition set_invites (codes : list string) (s : run_state W) : run_state W :=
  {| invites := codes; outside := outside s; trace := trace s |}.

Definition emit (e : event) : eff (run_state W) unit :=
  λ s, (Ok tt, {| invites := invites s; outside := outside s;
                  trace := trace s ++ [e] |}).

Definition sleep (d : duration) : eff (run_state W) unit := emit (EvSleep d).
Definition log (lv : level) (msg : string) : eff (run_state W) unit :=
  emit (EvLog lv msg).

(** A collaborator call: it is recorded, then sees and changes the
    outside world only. *)
Definition call {A} (name : string) (f : W → result A * W)
  : eff (run_state W) A :=
  λ s, let '(r, w) := f (outside s) in
       (r, {| invites := invites s; outside := w;
              trace := trace s ++ [EvCall name] |}).

(** The same state with more left behind, or another outside world. *)
Definition add_trace (evs : list event) (s : run_state W) : run_state W :=
  {| invites := invites s; outside := outside s; trace := trace s ++ evs |}.

Definition set_outside (w : W) (s : run_state W) : run_state W :=
  {| invites := invites s; outside := w; trace := trace s |}.
End RunState.

(** ** main.py: InvitesHandler *)

Module Invites.

(** [AUTO_UPDATE_INVITES_FROM_FIRST_COUNT]: an int, or a tuple
    (accounts that may yield codes, addresses to look at). *)
Inductive first_count : Type :=
  | FirstCount (n : Z)
  | FirstCountCapped (max_use n : Z).

Section Handler.
Context {W : Type}.
(** config.py *)
Variable WAIT_BETWEEN_ACCOUNTS : Z * Z.
Variable THREADS_NUM : Z.
Variable AUTO_UPDATE_INVITES_FROM_FIRST_COUNT : first_count.
Variable MOBILE_PROXY : bool.
(** [self.addresses] *)
Variable addresses : list string.
(** [refresh(prefix, address, self.storage)] of main.py, for what the
    pool takes from it: [None], or the refreshed record's
    [invite_codes]. *)
Variable refresh : string → string → W → result (option (list string)) * W.
(** [random.shuffle] *)
Variable shuffle_addresses : list (nat * string) → W → list (nat * string) * W.
Variable shuffle_codes : list string → W → list string * W.

Abbreviation state := (run_state W).

Definition add_invites (codes : list string) : eff state unit :=
  λ s, (Ok tt, set_invites (invites s ++ codes) s).

Definition get_invite : eff state (option string) :=
  λ s, match invites s with
       | [] => (Ok None, s)
       | code :: rest => (Ok (Some code), set_invites rest s)
       end.

(** [max_use is not None and max_use <= 0] *)
Definition used_up (max_use : option Z) : bool :=
  match max_use with
  | Some m => bool_decide (m ≤ 0)
  | None => false
  end.

(** [for idx, address in from_addresses: ...] *)
Fixpoint refill_loop (from_addresses : list (nat * string))
    (max_use : option Z) : eff state unit :=
  match from_addresses with
  | [] => eff_ret tt
  | (idx, address) :: rest =>
      if used_up max_use then eff_ret tt
      else
        (if MOBILE_PROXY && negb (bool_decide (idx = 1%nat))
         then sleep (Uniform WAIT_BETWEEN_ACCOUNTS.1 WAIT_BETWEEN_ACCOUNTS.2)
         else eff_ret tt);;
        let! account_info :=
          call "refresh" (refresh ("Updating invites " +:+ pretty idx) address) in
        match account_info with
        | None => refill_loop rest max_use
        | Some codes =>
            log INFO ("Updating invites " +:+ pretty idx +:+ ") Added new "
                      +:+ pretty (length codes));;
            add_invites codes;;
            refill_loop rest
              (match codes, max_use with
               | _ :: _, Some m => Some (m - 1)
               | _, _ => max_use
               end)
        end
  end.

Definition refill : eff state unit :=
  let! from_addresses :=
    match AUTO_UPDATE_INVITES_FROM_FIRST_COUNT with
    | FirstCountCapped _ n =>
        λ s, let '(l, w') :=
               shuffle_addresses (enumerate1 (py_slice_to n addresses)) (outside s) in
             (Ok l, {| invites := invites s; outside := w'; trace := trace s |})
    | FirstCount n => eff_ret (enumerate1 (py_slice_to n addresses))
    end in
  emit EvPrint;;
  log INFO "Updating invites";;
  refill_loop from_addresses
    (match AUTO_UPDATE_INVITES_FROM_FIRST_COUNT with
     | FirstCountCapped max_use _ => Some max_use
     | FirstCount _ => None
     end);;
  match AUTO_UPDATE_INVITES_FROM_FIRST_COUNT with
  | FirstCountCapped _ _ =>
      λ s, let '(l, w') := shuffle_codes (invites s) (outside s) in
           (Ok tt, {| invites := l; outside := w'; trace := trace s |})
  | FirstCount _ => eff_ret tt
  end;;
  λ s, log SUCCESS ("Invites updated: " +:+ pretty (length (invites s)) +:+ " new
") s.

Definition update_invites : eff state unit :=
  try_except
    (λ s, match invites s with
          | _ :: _ =>
              (let! d := truediv WAIT_BETWEEN_ACCOUNTS.1 THREADS_NUM in sleep d) s
          | [] => refill s
          end)
    (λ e, raise (Exn PlainException ("Update invites failed: " +:+ str_of_exn e))).
End Handler.

End Invites.

(** ** account.py: the transaction lifecycle *)

Module Account.

Definition GAS_PRICE : Z := 10024.
Definition GAS_LIMIT : Z := 300000.

(** One entry of [profile['ygpzQuesting']['info']['dailyProgress']]. *)
Record task_info : Type := TaskInfo {
  condition : option string;
  expClaimed : bool;
  value : Z;
  nextAvailableFrom : option Z;
}.

(** What the code reads of the profile [well3.me()] returns. *)
Record profile : Type := Profile {
  myReferralCodes : list (string * bool);   (* code, 'usedAt' in rc *)
  quest_exp : Z;
  quest_rank : Z;
  dailyProgress : list (string * task_info);
  pendingVerify : list string;
  linkedAddress : option string;  (* ['contractInfo'].get('linkedAddress') *)
}.

(** The [Account] object: [self.idx], [self.account], [self.profile]
    and [self.private_key]; [self.quests] and [self.pending_quests] are
    parts of the profile. *)
Record account : Type := AccountObj {
  idx : string;
  info : Storage.account_value;
  self_profile : option profile;
  private_key : option string;
}.

(** The transaction dict handed to the chain client. *)
Record tx : Type := Tx {
  tx_from : string;
  tx_nonce : Z;
  tx_gasPrice : Z;
  tx_gas : option Z;
  tx_payload : string;
}.

Record receipt_log : Type := ReceiptLog {
  topics : option (list string);     (* each topic's [.hex()] *)
  data : option (list Z);            (* the bytes *)
}.

Record receipt : Type := Receipt {
  status : option Z;
  logs : option (list receipt_log);
}.

(** [set_time_until_next_breathe] *)
Definition set_time_until_next_breathe (t : task_info)
    (i : Storage.account_value) : Storage.account_value :=
  let next :=
    if expClaimed t then Storage.BreatheText "Completed"
    else if decide (value t = 0) then Storage.BreatheText "Not started"
    else match nextAvailableFrom t with
         | Some ms => Storage.BreatheAt ms
         | None => Storage.BreatheUnset
         end in
  {| Storage.address := Storage.address i; Storage.proxy := Storage.proxy i;
     Storage.twitter_auth_token := Storage.twitter_auth_token i;
     Storage.invite_codes := Storage.invite_codes i;
     Storage.exp := Storage.exp i; Storage.lvl := Storage.lvl i;
     Storage.pending_quests := Storage.pending_quests i;
     Storage.next_breathe_time := next;
     Storage.daily_insight := Storage.daily_insight i;
     Storage.insights_to_open := Storage.insights_to_open i;
     Storage.insights := Storage.insights i |}.

(** The assignments of [refresh_profile] once the profile is there. *)
Definition apply_profile (breathe_condition : string) (p : profile)
    (a : account) : account :=
  let i := info a in
  let i1 :=
    {| Storage.address := Storage.address i; Storage.proxy := Storage.proxy i;
       Storage.twitter_auth_token := Storage.twitter_auth_token i;
       Storage.invite_codes := (filter (λ rc, rc.2 = false) (myReferralCodes p)).*1;
       Storage.exp := quest_exp p; Storage.lvl := quest_rank p;
       Storage.pending_quests := Z.of_nat (length (pendingVerify p));
       Storage.next_breathe_time := Storage.next_breathe_time i;
       Storage.daily_insight := Storage.daily_insight i;
       Storage.insights_to_open := Storage.insights_to_open i;
       Storage.insights := Storage.insights i |} in
  let i2 :=
    match filter (λ t, condition t.2 = Some breathe_condition) (dailyProgress p) with
    | (_, t) :: _ => set_time_until_next_breathe t i1
    | [] => i1
    end in
  {| idx := idx a; info := i2; self_profile := Some p;
     private_key := private_key a |}.

(** [int(digits, 16)] on a non-empty run of hexadecimal digits *)
Definition int16 (digits : list Z) : Z :=
  foldl (λ acc d, acc * 16 + d) 0 digits.

(** [data.hex()[2:]], digit by digit *)
Definition hex_digits (bytes : list Z) : list Z :=
  bytes ≫= λ b, [b `div` 16; b `mod` 16].

Section Lifecycle.
Context {W F : Type}.
(** vars.py *)
Variable BREATHE_SESSION_CONDITION : string.
Variable SCAN : string.
Variable LOG_RESULT_TOPIC : string.
Variable LOG_DATA_NAME_AND_COLOR : list (string * string).
(** [termcolor.colored(text, color, attrs=['bold'])] *)
Variable colored : string → string → string.
(** The platform client. *)
Variable well3_generate_codes : W → result unit * W.
Variable well3_me : W → result profile * W.
(** The chain client. *)
Variable get_transaction_count : string → W → result Z * W.
Variable build_transaction : F → string → Z → Z → W → result tx * W.
Variable estimate_gas : tx → W → result Z * W.
Variable sign_transaction : tx → string → result string.
Variable send_raw_transaction : string → W → result string * W.
Variable get_transaction_receipt : string → W → result (option receipt) * W.

(** An [Account] method runs on the object and the shared state. *)
Abbreviation state := (account * run_state W)%type.

Definition lift {A} (m : eff (run_state W) A) : eff state A :=
  λ st, let '(r, s') := m st.2 in (r, (st.1, s')).

Definition get_self : eff state account := λ st, (Ok st.1, st).
Definition set_self (a : account) : eff state unit := λ st, (Ok tt, (a, st.2)).

Definition refresh_profile : eff state unit :=
  lift (call "well3.generate_codes" well3_generate_codes);;
  let! p := lift (call "well3.me" well3_me) in
  let! a := get_self in
  set_self (apply_profile BREATHE_SESSION_CONDITION p a).

(** The body of [build_and_send_tx], one attempt. *)
Definition build_and_send_tx_attempt (func : F) : eff state string :=
  let! a := get_self in
  match private_key a with
  | None => raise (Exn PlainException "No private key specified")
  | Some key =>
      let addr := Storage.address (info a) in
      let! nonce :=
        lift (call "eth.get_transaction_count" (get_transaction_count addr)) in
      let! tx :=
        lift (call "build_transaction" (build_transaction func addr nonce GAS_PRICE)) in
      try_except
        (lift (call "eth.estimate_gas" (estimate_gas tx));; eff_ret tt)
        (λ e,
           let! a := get_self in
           match self_profile a with
           | None =>
               raise (Exn (OtherError "TypeError")
                          "'NoneType' object is not subscriptable")
           | Some p =>
               (if decide (linkedAddress p = Some (Storage.address (info a))) then
                  lift (log INFO (idx a +:+
                    ") Tx simulation failed, refreshing signatures and retrying"));;
                  refresh_profile
                else eff_ret tt);;
               raise (Exn PlainException
                        ("Tx simulation failed: " +:+ str_of_exn e))
           end);;
      let tx := {| tx_from := tx_from tx; tx_nonce := tx_nonce tx;
                   tx_gasPrice := tx_gasPrice tx; tx_gas := Some GAS_LIMIT;
                   tx_payload := tx_payload tx |} in
      let! signed :=
        lift (call "eth.account.sign_transaction"
                   (λ w, (sign_transaction tx key, w))) in
      lift (call "eth.send_raw_transaction" (send_raw_transaction signed))
  end.

(** [values = [int(data[i:i+64], 16) for i in range(0, 64 * 6, 64)]] *)
Definition log_values (digits : list Z) : result (list Z) :=
  foldr (λ i acc,
           match take 64 (drop (64 * i) digits) with
           | [] => Raise (Exn (OtherError "ValueError")
                              "invalid literal for int() with base 16: ''")
           | chunk => result_bind acc (λ vs, Ok (int16 chunk :: vs))
           end)
        (Ok []) (seq 0 6).

(** [for idx, val in enumerate(values[2:]): ...] *)
Fixpoint pretty_parts (i : nat) (vals : list Z) : result (list string) :=
  match vals with
  | [] => Ok []
  | val :: rest =>
      if decide (val = 0) then pretty_parts (S i) rest
      else
        match LOG_DATA_NAME_AND_COLOR !! i with
        | None => Raise (Exn IndexError "list index out of range")
        | Some (name, color) =>
            result_bind (pretty_parts (S i) rest)
              (λ parts, Ok (colored (pretty val +:+ " " +:+ name) color :: parts))
        end
  end.

(** [', '.join(parts)] *)
Fixpoint join_comma (parts : list string) : string :=
  match parts with
  | [] => ""
  | [p] => p
  | p :: rest => p +:+ ", " +:+ join_comma rest
  end.

Definition of_result {A} (r : result A) : eff (run_state W) A := λ s, (r, s).

(** [for log in logs: ...] of [tx_verification] *)
Fixpoint report_logs (self_idx : string) (ls : list receipt_log)
  : eff (run_state W) unit :=
  match ls with
  | [] => eff_ret tt
  | l :: rest =>
      match topics l with
      | None => report_logs self_idx rest
      | Some [] => raise (Exn IndexError "list index out of range")
      | Some (topic0 :: _) =>
          if decide (topic0 ≠ LOG_RESULT_TOPIC) then report_logs self_idx rest
          else
            match data l with
            | None => report_logs self_idx rest
            | Some bytes =>
                let! values := of_result (log_values (hex_digits bytes)) in
                let! parts := of_result (pretty_parts 0 (drop 2 values)) in
                emit EvPrint;;
                log INFO (self_idx +:+ ") Received: " +:+ join_comma parts);;
                emit EvPrint;;
                report_logs self_idx rest
            end
      end
  end.

(** What [tx_verification] does with a receipt before it returns. *)
Definition report_receipt (self_idx action tx_link : string) (r : receipt)
  : eff (run_state W) unit :=
  (if decide (status r = Some 1) then
     log SUCCESS (self_idx +:+ ") " +:+ action +:+ " - Successful tx: " +:+ tx_link)
   else
     log ERROR (self_idx +:+ ") " +:+ action +:+ " - Failed tx: " +:+ tx_link));;
  try_except
    (match logs r with
     | Some (l :: ls) => report_logs self_idx (l :: ls)
     | _ => eff_ret tt
     end)
    (λ _, eff_ret tt).

(** [while time_passed < 150: ...]; [None] when [fuel] rounds were
    not enough to leave the loop. *)
Fixpoint poll (fuel : nat) (self_idx action tx_hash tx_link : string)
    (time_passed poll_latency : Z) : eff (run_state W) (option unit) :=
  match fuel with
  | O => eff_ret None
  | S fuel' =>
      if decide (time_passed < 150) then
        let! found :=
          try_except
            (let! tx_data :=
               call "eth.get_transaction_receipt" (get_transaction_receipt tx_hash) in
             match tx_data with
             | Some r => report_receipt self_idx action tx_link r;; eff_ret true
             | None => eff_ret false
             end)
            (λ e, match exn_cls e with
                  | TransactionNotFound => eff_ret false
                  | _ => raise e
                  end) in
        if found : bool then eff_ret (Some tt)
        else
          sleep (Seconds poll_latency);;
          poll fuel' self_idx action tx_hash tx_link
               (time_passed + poll_latency) poll_latency
      else
        log WARNING (self_idx +:+ ") " +:+ action +:+ " - Pending tx: " +:+ tx_link);;
        eff_ret (Some tt)
  end.

Definition tx_verification (fuel : nat) (a : account) (tx_hash action : string)
    (poll_latency : Z) : eff (run_state W) (option unit) :=
  log INFO (idx a +:+ ") " +:+ action +:+ " - Tx sent");;
  poll fuel (idx a) action tx_hash (SCAN +:+ "/tx/" +:+ tx_hash) 0 poll_latency.

(** The outside world after [k] receipt queries for [tx_hash]. *)
Definition world_after (tx_hash : string) (k : nat) (w : W) : W :=
  Nat.iter k (λ w, (get_transaction_receipt tx_hash w).2) w.

(** The answer to the query made in world [w]. *)
Definition answer (tx_hash : string) (w : W) : result (option receipt) :=
  (get_transaction_receipt tx_hash w).1.

(** No receipt yet: [None], or TransactionNotFound. *)
Definition no_receipt (r : result (option receipt)) : Prop :=
  r = Ok None ∨ ∃ msg, r = Raise (Exn TransactionNotFound msg).

(** [k] rounds of the loop that found nothing. *)
Definition idle_rounds (k : nat) (poll_latency : Z) : list event :=
  mjoin (replicate k [EvCall "eth.get_transaction_receipt"; EvSleep (Seconds poll_latency)]).

(** What decoding the result log may leave behind. *)
Definition is_report (e : event) : Prop :=
  e = EvPrint ∨ ∃ msg, e = EvLog INFO msg.

(** Modelled from the spec: [utils.async_retry] (utils.py), the Retry
    Policy of §4.1: execute the operation; on a raised failure other
    than one of the designated do-not-retry class, wait a backoff
    interval and retry, up to the attempt limit; on the final failure
    propagate the last error; a warning is emitted per failed attempt. *)
Record retry_policy : Type := RetryPolicy {
  max_tries : nat;
  do_not_retry : exn_class → bool;
  backoff : nat → duration;
}.

Fixpoint retry_loop {A} (policy : retry_policy) (retries_left : nat)
    (op : eff state A) : eff state A :=
  try_except op
    (λ e,
       lift (log WARNING ("Retry: " +:+ str_of_exn e));;
       if do_not_retry policy (exn_cls e) then raise e
       else
         match retries_left with
         | O => raise e
         | S k =>
             lift (sleep (backoff policy k));;
             retry_loop policy k op
         end).

Definition async_retry {A} (policy : retry_policy) (op : eff state A)
  : eff state A :=
  retry_loop policy (max_tries policy - 1) op.

(** [@async_retry async def build_and_send_tx] *)
Definition build_and_send_tx (policy : retry_policy) (func : F)
  : eff state string :=
  async_retry policy (build_and_send_tx_attempt func).
End Lifecycle.

End Account.

(** ** main.py: account processing and the batch orchestrator *)

Module Main.

(** [models.ProcessResult] *)
Record ProcessResult : Type := { invite_used : bool }.

(** One element of a batch: (index, (wallet, proxy, twitter_token)). *)
Abbreviation account_entry := (nat * Batches.account_data)%type.

(** One pass through the body of [while True] in [process_account]. *)
Inductive pass : Type :=
  | Redeemed            (* result.invite_used = True; break *)
  | TryAnother          (* continue *)
  | NoInvitesLeft.      (* the raise of line 161 *)

(** A [process_batch] task between two of its awaits. *)
Inductive task_status : Type :=
  | NotStarted
  | Running
  | Returned
  | Crashed (e : exn).

Record task : Type := Task {
  bid : nat;
  pending : list account_entry;      (* what the for loop has not reached *)
  position : nat;                    (* [idx] of the next element *)
  used_invites : nat;
  status : task_status;
}.

(** Did this call of [async_func] return a result with [invite_used]? *)
Definition consumed (r : result ProcessResult) : bool :=
  match r with
  | Ok r => invite_used r
  | Raise _ => false
  end.

(** One call of [async_func] in a run: the batch and the position the
    account was at, the account, and what the call came to. *)
Record handled : Type := Handled {
  in_batch : nat;
  at_index : nat;
  account : account_entry;
  outcome : result ProcessResult;
}.

Definition count_consumed (calls : list handled) : nat :=
  length (filter (λ c, consumed (outcome c)) calls).

(** The calls made for the accounts of batch [b]. *)
Definition calls_of (b : nat) (calls : list handled) : list handled :=
  filter (λ c, in_batch c = b) calls.

(** A task relates to the batch it was created for and to the calls of
    [async_func] made so far: the loop has gone through the first
    [position] accounts of the batch, one call each, in order. *)
Definition task_ok (b : nat) (batch : list account_entry)
    (calls : list handled) (t : task) : Prop :=
  bid t = b
  ∧ (position t ≤ length batch)%nat
  ∧ pending t = drop (position t) batch
  ∧ (λ c, (at_index c, account c)) <$> calls_of b calls
    = imap pair (take (position t) batch)
  ∧ used_invites t = count_consumed (calls_of b calls)
  ∧ (∀ e, status t ≠ Crashed e)
  ∧ (status t = Returned → pending t = []).

(** The steps a task still needs before it has returned. *)
Definition todo (t : task) : nat :=
  match status t with
  | NotStarted => 2 + length (pending t)
  | Running => 1 + length (pending t)
  | _ => 0
  end.

Definition tasks_ok (batches : list (list account_entry))
    (calls : list handled) (tasks : list task) : Prop :=
  length tasks = length batches
  ∧ Forall (λ c, (in_batch c < length batches)%nat) calls
  ∧ ∀ i batch t, batches !! i = Some batch → tasks !! i = Some t →
                 task_ok i batch calls t.

(** Did an exception leave this task? *)
Definition is_crashed (t : task) : bool :=
  match status t with
  | Crashed _ => true
  | _ => false
  end.

(** [e_msg] of the handler of [process_batch]: [str(e)], or a single
    space when that is empty. *)
Definition error_text (e : exn) : string :=
  let e_msg := str_of_exn e in
  if decide (e_msg = "") then " " else e_msg.

(** How often the schedule names task [i]. *)
Definition visits (i : nat) (schedule : list nat) : nat :=
  length (filter (λ x, x = i) schedule).

Section Process.
Context {W : Type}.
(** config.py *)
Variable WAIT_BETWEEN_ACCOUNTS : Z * Z.
Variable THREADS_NUM : Z.
Variable AUTO_UPDATE_INVITES : bool.
(** [invites.update_invites()], see [Invites.update_invites]. *)
Variable update_invites : eff (run_state W) unit.
(** The platform client. *)
Variable sign_in_or_start_register_if_needed :
  account_entry → W → result bool * W.
Variable use_invite_code : account_entry → string → W → result unit * W.
(** [process_account] before "Signing in" (restoring the saved record,
    changing the ip, starting the social client) and after "Signed in"
    (profile, quests, wallet, claims, saving the record). *)
Variable before_sign_in : account_entry → eff (run_state W) unit.
Variable after_sign_in : account_entry → eff (run_state W) unit.
(** [str(datetime.now())] *)
Variable now : W → string.
(** Appending to a file: [aiofiles.open(path, 'a', encoding='utf-8')]
    as [async with] enters it, and what follows inside the block up to
    its end - [file.write(text)], [file.flush()] and the close.  Both
    act on the outside world and may raise. *)
Variable file_open : string → W → result unit * W.
Variable file_write : string → string → W → result unit * W.

Abbreviation state := (run_state W).

(** The refill attempt of line 158, made only when it is configured. *)
Definition refill_attempt : eff (run_state W) unit :=
  if AUTO_UPDATE_INVITES then update_invites else eff_ret tt.

(** Lines 155-160: the code to try, [None] when line 161 raises. *)
Definition draw_invite : eff state (option string) :=
  let! invite := Invites.get_invite in
  match invite with
  | Some code => eff_ret (Some code)
  | None =>
      refill_attempt;;
      Invites.get_invite
  end.

Definition invite_pass (d : account_entry) : eff state pass :=
  let! invite := draw_invite in
  match invite with
  | None => eff_ret NoInvitesLeft
  | Some code =>
      log INFO (pretty d.1 +:+ ") Entering invite code: " +:+ code);;
      try_except
        (call "well3.use_invite_code" (use_invite_code d code);;
         eff_ret Redeemed)
        (λ e,
           if contains "Code not found or already used" (str_of_exn e) then
             log INFO (pretty d.1 +:+ ") Code already used. Trying another one");;
             eff_ret TryAnother
           else raise e)
  end.

(** [while True: ...]; [None] when [fuel] passes did not end it,
    otherwise [result.invite_used]. *)
Fixpoint invite_loop (fuel : nat) (d : account_entry)
  : eff state (option bool) :=
  match fuel with
  | O => eff_ret None
  | S fuel' =>
      let! p := invite_pass d in
      match p with
      | Redeemed => eff_ret (Some true)
      | TryAnother => invite_loop fuel' d
      | NoInvitesLeft => raise (Exn PlainException "No invite codes left")
      end
  end.

Definition process_account (fuel : nat) (d : account_entry)
  : eff state (option ProcessResult) :=
  before_sign_in d;;
  log INFO (pretty d.1 +:+ ") Signing in");;
  let! need_invite :=
    call "well3.sign_in_or_start_register_if_needed"
         (sign_in_or_start_register_if_needed d) in
  let! used := (if need_invite : bool then invite_loop fuel d
                else eff_ret (Some false)) in
  match used with
  | None => eff_ret None
  | Some u =>
      log INFO (pretty d.1 +:+ ") Signed in");;
      after_sign_in d;;
      eff_ret (Some {| invite_used := u |})
  end.

(** The orchestrator. *)
Variable async_func : account_entry → eff state ProcessResult.
Variable sleep_between : bool.      (* the [sleep] argument *)

(** The [except Exception as e] block of [process_batch].  Nothing
    protects the append to logs/errors.txt: an exception of
    [aiofiles.open], [write] or [flush] leaves the block, and with it
    [process_batch].  The text is built once the file is open; what was
    written is recorded when the block has ended. *)
Definition report_error (d : account_entry) (e : exn) : eff state unit :=
  let e_msg := error_text e in
  match splitlines e_msg with
  | [] => raise (Exn IndexError "list index out of range")
  | first :: more =>
      log ERROR (pretty d.1 +:+ ") Process account error: " +:+ first);;
      match more with
      | [] => eff_ret tt
      | _ =>
          call "aiofiles.open" (file_open "logs/errors.txt");;
          λ s, let text := now (outside s) +:+ " | " +:+ pretty d.1
                           +:+ ") Process account error: " +:+ e_msg in
               (call "file.write" (file_write "logs/errors.txt" text);;
                emit (EvAppendFile "logs/errors.txt" text)) s
      end
  end.

(** The state in which [async_func] is called for the element at [idx]. *)
Definition after_pause (idx : nat) (s : state) : state :=
  if sleep_between && negb (bool_decide (idx = 0%nat))
  then add_trace [EvSleep (Uniform WAIT_BETWEEN_ACCOUNTS.1 WAIT_BETWEEN_ACCOUNTS.2)] s
  else s.

(** The body of [for idx, d in enumerate(batch)], with what the call
    of [async_func] came to. *)
Definition process_one (idx : nat) (d : account_entry)
  : eff state (result ProcessResult) :=
  (if sleep_between && negb (bool_decide (idx = 0%nat))
   then sleep (Uniform WAIT_BETWEEN_ACCOUNTS.1 WAIT_BETWEEN_ACCOUNTS.2)
   else eff_ret tt);;
  try_except
    (let! r := async_func d in eff_ret (Ok r))
    (λ e, report_error d e;; eff_ret (Raise e)).

(** [await asyncio.sleep(WAIT_BETWEEN_ACCOUNTS[0] / THREADS_NUM * bid)] *)
Definition stagger (bid : nat) : eff state unit :=
  if decide (THREADS_NUM = 0) then
    raise (Exn ZeroDivisionError "division by zero")
  else sleep (QuotientTimes WAIT_BETWEEN_ACCOUNTS.1 THREADS_NUM bid).

(** [async_func] only adds to what the run has left behind. *)
Definition keeps_trace : Prop :=
  ∀ d s, ∃ new, trace (async_func d s).2 = trace s ++ new.

(** The appends to logs/errors.txt succeed whenever they are made. *)
Definition appends_succeed : Prop :=
  (∀ w, ∃ w', file_open "logs/errors.txt" w = (Ok tt, w'))
  ∧ (∀ text w, ∃ w', file_write "logs/errors.txt" text w = (Ok tt, w')).

(** [process_batch] up to its next await that lets other tasks run:
    the staggered start, or one element of the batch.  An exception
    that leaves the body ends the task. *)
Definition step_task (t : task) (s : state) : task * state :=
  match status t with
  | NotStarted =>
      match stagger (bid t) s with
      | (Ok _, s') =>
          ({| bid := bid t; pending := pending t; position := position t;
              used_invites := used_invites t; status := Running |}, s')
      | (Raise e, s') =>
          ({| bid := bid t; pending := pending t; position := position t;
              used_invites := used_invites t; status := Crashed e |}, s')
      end
  | Running =>
      match pending t with
      | [] =>
          ({| bid := bid t; pending := []; position := position t;
              used_invites := used_invites t; status := Returned |}, s)
      | d :: rest =>
          match process_one (position t) d s with
          | (Ok r, s') =>
              ({| bid := bid t; pending := rest; position := S (position t);
                  used_invites :=
                    (if consumed r then S (used_invites t)
                     else used_invites t);
                  status := Running |}, s')
          | (Raise e, s') =>
              ({| bid := bid t; pending := rest; position := S (position t);
                  used_invites := used_invites t; status := Crashed e |}, s')
          end
      end
  | Returned | Crashed _ => (t, s)
  end.

(** [asyncio.create_task(process_batch(idx, b, ...))] *)
Definition create_task (idx : nat) (b : list account_entry) : task :=
  {| bid := idx; pending := b; position := 0; used_invites := 0;
     status := NotStarted |}.

(** The event loop runs the task the schedule names next.  An
    exception that leaves a task reaches [process] through [gather]:
    [process] raises it, [run_until_complete] of [main] returns, and no
    task is resumed. *)
Fixpoint run_schedule (schedule : list nat) (tasks : list task) (s : state)
  : list task * state :=
  match schedule with
  | [] => (tasks, s)
  | i :: rest =>
      match tasks !! i with
      | Some t =>
          let '(t', s') := step_task t s in
          if is_crashed t' then (<[i:=t']> tasks, s')
          else run_schedule rest (<[i:=t']> tasks) s'
      | None => run_schedule rest tasks s
      end
  end.

(** What is left to do once [schedule] is used up: rounds over all
    tasks, as many as the longest of them needs to start, go through
    its batch and return. *)
Definition remaining_schedule (tasks : list task) : list nat :=
  mjoin (replicate (2 + max_list ((length ∘ pending) <$> tasks))
                   (seq 0 (length tasks))).

(** [await asyncio.gather] over the tasks *)
Definition gather (tasks : list task) : result (list nat) :=
  foldr (λ t acc,
           match status t with
           | Crashed e => Raise e
           | _ => result_bind acc (λ l, Ok (used_invites t :: l))
           end)
        (Ok []) tasks.

Definition run_tasks (schedule : list nat)
    (batches : list (list account_entry)) (s : state) : list task * state :=
  let '(tasks, s') := run_schedule schedule (imap create_task batches) s in
  if existsb is_crashed tasks then (tasks, s')
  else run_schedule (remaining_schedule tasks) tasks s'.

(** [process(batches, storage, invites, async_func, sleep)] under the
    interleaving [schedule] of its tasks. *)
Definition process (schedule : list nat)
    (batches : list (list account_entry)) : eff state (list nat) :=
  λ s, let '(tasks, s') := run_tasks schedule batches s in
       (gather tasks, s').

(** What a run is made of: stretches of one task between two awaits
    that let the other tasks run - the staggered start of task [b], or
    the loop body of task [b] for the element at [idx] of its batch. *)
Inductive stretch : Type :=
  | Start (b : nat)
  | Body (b idx : nat) (d : account_entry).

(** The stretches [xs] one after the other, with the calls of
    [async_func] they make. *)
Fixpoint run_stretches (xs : list stretch) : eff state (list handled) :=
  match xs with
  | [] => eff_ret []
  | Start b :: rest => stagger b;; run_stretches rest
  | Body b idx d :: rest =>
      let! r := process_one idx d in
      let! calls := run_stretches rest in
      eff_ret ({| in_batch := b; at_index := idx; account := d;
                  outcome := r |} :: calls)
  end.
End Process.

End Main.

(** ** Sample inputs *)

Module Samples.

(** A run in a world with nothing in it. *)
Definition s0 : run_state unit := RunState [] tt [].

Definition pool (codes : list string) : run_state unit := RunState codes tt [].

Definition info0 : Storage.account_value :=
  {| Storage.address := "0xA"; Storage.proxy := "http://proxy";
     Storage.twitter_auth_token := "token"; Storage.invite_codes := ["CODE1"];
     Storage.exp := 10; Storage.lvl := 1; Storage.pending_quests := 0;
     Storage.next_breathe_time := Storage.BreatheText "Not started";
     Storage.daily_insight := "available"; Storage.insights_to_open := 0;
     Storage.insights := {[ "rare" := 2 ]} |}.

Definition profile0 (linked : option string) : Account.profile :=
  {| Account.myReferralCodes := [("CODE1", false); ("CODE0", true)];
     Account.quest_exp := 12; Account.quest_rank := 1;
     Account.dailyProgress := []; Account.pendingVerify := [];
     Account.linkedAddress := linked |}.

Definition account0 (linked : option string) (key : option string)
  : Account.account :=
  {| Account.idx := "1"; Account.info := info0;
     Account.self_profile := Some (profile0 linked);
     Account.private_key := key |}.

Definition tx0 : Account.tx :=
  {| Account.tx_from := "0xA"; Account.tx_nonce := 7;
     Account.tx_gasPrice := Account.GAS_PRICE; Account.tx_gas := None;
     Account.tx_payload := "nonceQuest" |}.

Definition reverted : exn := Exn (OtherError "ContractLogicError") "execution reverted".
Definition unavailable : exn := Exn (OtherError "ClientError") "503".

(** A chain whose gas estimation fails, and a platform whose profile
    endpoint answers ([platform_up = true]) or fails. *)
Definition attempt0 (platform_up : bool) :=
  Account.build_and_send_tx_attempt (W:=unit) (F:=unit) "breathe"
    (λ w, (if platform_up then Ok tt else Raise unavailable, w))
    (λ w, (Ok (profile0 (Some "0xA")), w))
    (λ _ w, (Ok 7, w))
    (λ _ _ _ _ w, (Ok tx0, w))
    (λ _ w, (Raise reverted, w))
    (λ _ _, Ok "signed")
    (λ _ w, (Ok "0xhash", w))
    tt.

Definition policy3 : Account.retry_policy :=
  {| Account.max_tries := 3;
     Account.do_not_retry := λ _, false;
     Account.backoff := λ _, Seconds 1 |}.

Definition send0 (policy : Account.retry_policy) :=
  Account.build_and_send_tx (W:=unit) (F:=unit) "breathe"
    (λ w, (Ok tt, w)) (λ w, (Ok (profile0 (Some "0xA")), w))
    (λ _ w, (Ok 7, w)) (λ _ _ _ _ w, (Ok tx0, w))
    (λ _ w, (Ok 21000, w)) (λ _ _, Ok "signed") (λ _ w, (Ok "0xhash", w))
    policy tt.

Definition entry (i : nat) : Main.account_entry := (i, ("key", "http://proxy", "token")).

(** The platform rejects the code "USED" and accepts any other. *)
Definition redeem0 : Main.account_entry → string → unit → result unit * unit :=
  λ _ code w,
    (if decide (code = "USED")
     then Raise (Exn PlainException "Invite failed: Code not found or already used")
     else Ok tt, w).

(** A refill that would find the code "NEW". *)
Definition refill0 : eff (run_state unit) unit :=
  Invites.update_invites (30, 60) 4 (Invites.FirstCount 10) false ["0x1"]
    (λ _ _ w, (Ok (Some ["NEW"]), w)) (λ l w, (l, w)) (λ l w, (l, w)).


(** Account 2 fails, the others consume an invite. *)
Definition async0 : Main.account_entry → eff (run_state unit) Main.ProcessResult :=
  λ d s, if decide (d.1 = 2%nat)
         then (Raise (Exn PlainException "Session expired"), s)
         else (Ok {| Main.invite_used := true |}, s).

(** A file system on which every append succeeds, and one that has no
    directory logs/. *)
Definition open_ok : string → unit → result unit * unit := λ _ w, (Ok tt, w).
Definition write_ok : string → string → unit → result unit * unit :=
  λ _ _ w, (Ok tt, w).
Definition open_missing : string → unit → result unit * unit :=
  λ path w,
    (Raise (Exn FileNotFoundError
              ("[Errno 2] No such file or directory: '" +:+ path +:+ "'")), w).

Definition process0 :=
  Main.process (W:=unit) (30, 60) 2 (λ _, "2024-01-01 00:00:00")
    open_ok write_ok async0 true.

(** Every account is seen signing in; account 1 then fails with a
    message of two lines, the others consume an invite. *)
Definition async1 : Main.account_entry → eff (run_state unit) Main.ProcessResult :=
  λ d, (log INFO (pretty d.1 +:+ ") Signing in");;
        if decide (d.1 = 1%nat)
        then raise (Exn PlainException
                      ("Sign in failed" +:+ String "010" "<html>502</html>"))
        else eff_ret {| Main.invite_used := true |})%eff.

(** One worker, appends failing or succeeding. *)
Definition process1 (appends : bool) :=
  Main.process (W:=unit) (30, 60) 1 (λ _, "2024-01-01 00:00:00")
    (if appends then open_ok else open_missing) write_ok async1 true.

Definition heap1 : Storage.heap := (Storage.alloc_account info0 ∅).2.

Definition store1 : Storage.storage :=
  {| Storage.filename := "storage/data.json";
     Storage.data := {[ "0xA" := (Storage.alloc_account info0 ∅).1 ]} |}.

(** JSON values, and a field-by-field encoding of the account record:
    one [to_dict] / [from_dict] pair of the kind models.py may define. *)
Inductive json : Type :=
  | JNull
  | JInt (n : Z)
  | JStr (s : string)
  | JArr (items : list json)
  | JObj (members : list (string * json)).

Definition json_of_breathe (b : Storage.breathe) : json :=
  match b with
  | Storage.BreatheText s => JStr s
  | Storage.BreatheAt ms => JInt ms
  | Storage.BreatheUnset => JNull
  end.

Definition to_dict_json (v : Storage.account_value) : json :=
  JObj [("address", JStr (Storage.address v));
        ("proxy", JStr (Storage.proxy v));
        ("twitter_auth_token", JStr (Storage.twitter_auth_token v));
        ("invite_codes", JArr (JStr <$> Storage.invite_codes v));
        ("exp", JInt (Storage.exp v));
        ("lvl", JInt (Storage.lvl v));
        ("pending_quests", JInt (Storage.pending_quests v));
        ("next_breathe_time", json_of_breathe (Storage.next_breathe_time v));
        ("daily_insight", JStr (Storage.daily_insight v));
        ("insights_to_open", JInt (Storage.insights_to_open v));
        ("insights", JObj (prod_map id JInt <$> map_to_list (Storage.insights v)))].

Fixpoint member (key : string) (members : list (string * json)) : option json :=
  match members with
  | [] => None
  | (k, j) :: rest => if String.eqb k key then Some j else member key rest
  end.

Definition as_str (j : json) : option string :=
  match j with JStr s => Some s | _ => None end.

Definition as_int (j : json) : option Z :=
  match j with JInt n => Some n | _ => None end.

Definition as_strs (j : json) : option (list string) :=
  match j with JArr items => mapM as_str items | _ => None end.

Definition as_counts (j : json) : option (gmap string Z) :=
  match j with
  | JObj members =>
      list_to_map <$> mapM (λ m, pair m.1 <$> as_int m.2) members
  | _ => None
  end.

Definition as_breathe (j : json) : option Storage.breathe :=
  match j with
  | JStr s => Some (Storage.BreatheText s)
  | JInt ms => Some (Storage.BreatheAt ms)
  | JNull => Some Storage.BreatheUnset
  | _ => None
  end.

Definition from_dict_json (j : json) : result Storage.account_value :=
  match j with
  | JObj ms =>
      match
        (address ← member "address" ms ≫= as_str;
         proxy ← member "proxy" ms ≫= as_str;
         token ← member "twitter_auth_token" ms ≫= as_str;
         codes ← member "invite_codes" ms ≫= as_strs;
         exp ← member "exp" ms ≫= as_int;
         lvl ← member "lvl" ms ≫= as_int;
         pending ← member "pending_quests" ms ≫= as_int;
         breathe ← member "next_breathe_time" ms ≫= as_breathe;
         daily ← member "daily_insight" ms ≫= as_str;
         to_open ← member "insights_to_open" ms ≫= as_int;
         counts ← member "insights" ms ≫= as_counts;
         Some (Storage.AccountInfo address proxy token codes exp lvl pending
                 breathe daily to_open counts))
      with
      | Some v => Ok v
      | None => Raise (Exn (OtherError "KeyError") "")
      end
  | _ => Raise (Exn (OtherError "TypeError") "")
  end.

End Samples.

(** ** More sample inputs *)

Module StoreSamples.

Definition info1 : Storage.account_value :=
  {| Storage.address := "0xB"; Storage.proxy := "http://proxy";
     Storage.twitter_auth_token := "token2"; Storage.invite_codes := [];
     Storage.exp := 0; Storage.lvl := 0; Storage.pending_quests := 0;
     Storage.next_breathe_time := Storage.BreatheUnset;
     Storage.daily_insight := ""; Storage.insights_to_open := 0;
     Storage.insights := ∅ |}.

(** The heap of [Samples.heap1] with a record of the caller's in it. *)
Definition heap2 : Storage.heap := (Storage.alloc_account info1 Samples.heap1).2.
Definition caller_info : Storage.loc := (Storage.alloc_account info1 Samples.heap1).1.

End StoreSamples.

(** ** More observations on a run *)

(** An INFO line left by the logger, a pause. *)
Definition is_info (e : event) : Prop :=
  match e with
  | EvLog INFO _ => True
  | _ => False
  end.

Global Instance is_info_dec e : Decision (is_info e).
Proof. destruct e as [|[] ?| | |]; simpl; apply _. Defined.

Definition is_sleep (e : event) : Prop :=
  match e with
  | EvSleep _ => True
  | _ => False
  end.

Global Instance is_sleep_dec e : Decision (is_sleep e).
Proof. destruct e; simpl; apply _. Defined.

Module Drain.
Section Drain.
Context {W : Type}.

(** [n] consecutive [await invites.get_invite()], as [n] accounts that
    sign in one after the other make them; what each call returned. *)
Fixpoint get_invites (n : nat) : eff (run_state W) (list (option string)) :=
  match n with
  | O => eff_ret []
  | S k =>
      let! code := Invites.get_invite in
      let! codes := get_invites k in
      eff_ret (code :: codes)
  end.
End Drain.
End Drain.

(** ** A refill as a sequence of refreshes *)

Module Refills.
Section Refills.
Context {W : Type}.
Variable refresh : string → string → W → result (option (list string)) * W.

(** What [refresh] comes to when [update_invites] calls it for the
    addresses of [l] one after the other, each call on the world the
    call before it left; nothing is called after a call that raised. *)
Fixpoint refreshes (l : list (nat * string)) (w : W)
  : list (nat * result (option (list string))) * W :=
  match l with
  | [] => ([], w)
  | (idx, address) :: rest =>
      match refresh ("Updating invites " +:+ pretty idx) address w with
      | (Ok o, w') =>
          let '(vs, w'') := refreshes rest w' in ((idx, Ok o) :: vs, w'')
      | (Raise e, w') => ([(idx, Raise e)], w')
      end
  end.
End Refills.

(** The accounts that were refreshed, each with its [invite_codes]. *)
Fixpoint yields (vs : list (nat * result (option (list string))))
  : list (nat * list string) :=
  match vs with
  | [] => []
  | (idx, Ok (Some codes)) :: rest => (idx, codes) :: yields rest
  | _ :: rest => yields rest
  end.

(** The exception of the call that raised, if one did. *)
Fixpoint failure (vs : list (nat * result (option (list string))))
  : option exn :=
  match vs with
  | [] => None
  | (_, Raise e) :: _ => Some e
  | _ :: rest => failure rest
  end.

(** How many of the refreshed accounts had at least one code. *)
Definition contributors (vs : list (nat * result (option (list string)))) : nat :=
  length (filter (λ y, y.2 ≠ []) (yields vs)).
End Refills.

(** ** The result log as the chain lays it out *)

Module Payload.

(** The [n] bytes of [w], most significant first: a uint256 word of
    event data for [n] = 32. *)
Fixpoint be_bytes (n : nat) (w : Z) : list Z :=
  match n with
  | O => []
  | S k => be_bytes k (w `div` 256) ++ [w `mod` 256]
  end.

(** Event data holding the words [ws] one after the other. *)
Definition words (ws : list Z) : list Z := ws ≫= be_bytes 32.

End Payload.

(** ** More string primitives *)

(** [s.find(sub)]: where [sub] first occurs in [s], -1 when nowhere;
    [i] is the index of the first character of [s]. *)
Fixpoint find_from (i : nat) (sub s : string) : Z :=
  if String.prefix sub s then Z.of_nat i
  else match s with
       | EmptyString => -1
       | String _ rest => find_from (S i) sub rest
       end.

Definition find (sub s : string) : Z := find_from 0 sub s.

(** [s[k:]] and [s[:k]] *)
Definition str_from (k : Z) (s : string) : string :=
  string_of_list_ascii (py_slice_from k (list_ascii_of_string s)).

Definition str_to (k : Z) (s : string) : string :=
  string_of_list_ascii (py_slice_to k (list_ascii_of_string s)).

(** [sep.join(parts)] *)
Fixpoint str_join (sep : string) (parts : list string) : string :=
  match parts with
  | [] => ""
  | [p] => p
  | p :: rest => p +:+ sep +:+ str_join sep rest
  end.

(** [s.replace(old, new)] for a non-empty [old]: the occurrences of
    [old] are replaced from left to right, without overlap; [skip]
    counts the characters of an occurrence still to pass over. *)
Fixpoint replace_from (skip : nat) (old new s : string) : string :=
  match s with
  | EmptyString => ""
  | String c rest =>
      match skip with
      | S k => replace_from k old new rest
      | O =>
          if String.prefix old s
          then new +:+ replace_from (String.length old - 1) old new rest
          else String c (replace_from 0 old new rest)
      end
  end.

Definition replace (old new s : string) : string := replace_from 0 old new s.

(** [s.split(sep)[-1]] for a one-character [sep]: what follows the
    last [sep], all of [s] when there is none; [cur] is the segment
    under construction, reversed. *)
Fixpoint last_segment_from (cur : list ascii) (sep : ascii) (s : string) : string :=
  match s with
  | EmptyString => string_of_list_ascii (reverse cur)
  | String c rest =>
      if decide (c = sep) then last_segment_from [] sep rest
      else last_segment_from (c :: cur) sep rest
  end.

Definition last_segment (sep : ascii) (s : string) : string :=
  last_segment_from [] sep s.

(** [list.insert(i, x)] for [0 <= i] *)
Definition list_insert_at {A} (i : nat) (x : A) (l : list A) : list A :=
  take i l ++ x :: drop i l.

(** ** account.py: quests *)

Module Quests.

(** [task_info['special']], with the entries of its 'data' that
    [do_task] reads. *)
Record special : Type := Special {
  action : string;
  data_url : string;
  data_rtRequiredTweetId : string;
}.

(** One task of [self.quests[batch_name]], with what [do_quests_batch]
    and [do_task] read of it. *)
Record quest : Type := Quest {
  expClaimed : bool;
  title : string;
  exp : Z;
  condition : option string;       (* .get('condition') *)
  value : Z;
  required : Z;
  nextAvailableFrom : option Z;
  special_of : option special;     (* .get('special') *)
}.

(** The double quote followed by [>] that closes the opening tag. *)
Definition tag_close : string := String "034" ">".

(** Lines 89-97: the title without its link markup, or cut at the
    first line break. *)
Definition clean_title (task_title : string) : string :=
  if contains "</a>" task_title then
    let a_end := find "</a>" task_title in
    let task_title := str_to a_end task_title +:+ str_from (a_end + 4) task_title in
    let a_start_open := find "<a href=" task_title in
    let a_start_close :=
      find tag_close (str_from a_start_open task_title) + a_start_open in
    str_to a_start_open task_title +:+ str_from (a_start_close + 2) task_title
  else if contains "<br/>" task_title then
    str_to (find "<br/>" task_title) task_title
  else task_title.

Section Methods.
Context {W : Type}.
(** config.py, vars.py *)
Variable FAKE_TWITTER : bool.
Variable BREATHE_SESSION_CONDITION : string.
Variable SHARE_TWEET_FORMAT : string.
(** What the methods read of [self]: [self.idx], [self.quests] by batch
    name, [self.pending_quests], [self.account.invite_codes]. *)
Variable self_idx : string.
Variable self_quests : string → option (list (string * quest)).
Variable self_pending_quests : list string.
Variable self_invite_codes : list string.
(** The platform client, the social client, the clock, the random
    source and the pause of utils.py. *)
Variable well3_claim_exp : string → W → result unit * W.
Variable well3_complete_breath_session : W → result unit * W.
Variable twitter_post_tweet : string → W → result string * W.
Variable twitter_follow : string → W → result unit * W.
Variable twitter_retweet : string → W → result unit * W.
Variable twitter_like : string → W → result bool * W.
Variable time_ms : W → Z.                       (* int(time.time() * 1000) *)
Variable str_timedelta : Z → string.            (* str(timedelta(seconds=n)) *)
Variable random_sample : list nat → nat → W → list nat * W.
Variable wait_a_bit : option duration → W → result unit * W.

Abbreviation state := (run_state W).

(** The text of the tweet with '#Well' as line [ins_pos]. *)
Definition tweet_text (ins_pos : nat) : string :=
  let tweet_text_parts := splitlines SHARE_TWEET_FORMAT in
  let tweet_text_parts := list_insert_at ins_pos "#Well" tweet_text_parts in
  let tweet_text := str_join (String "010" "") tweet_text_parts in
  replace "{{invite_codes}}" (str_join (String "010" "") self_invite_codes) tweet_text.

(** [for ins_pos in ...: ...] followed by [raise last_exc] *)
Fixpoint post_tweet_loop (positions : list nat) (last_exc : exn)
  : eff state string :=
  match positions with
  | [] => raise last_exc
  | ins_pos :: rest =>
      try_except
        (call "twitter.post_tweet" (twitter_post_tweet (tweet_text ins_pos)))
        (λ e,
           if contains "Status is a duplicate" (str_of_exn e)
           then post_tweet_loop rest e
           else raise e)
  end.

Definition post_tweet : eff state string :=
  let parts := length (splitlines SHARE_TWEET_FORMAT) in
  let! positions :=
    (λ s, let '(l, w') := random_sample (seq 0 (parts + 1)) (parts + 1) (outside s) in
          (Ok l, {| invites := invites s; outside := w'; trace := trace s |})) in
  post_tweet_loop positions (Exn PlainException "Can't send non-duplicate tweet").

(** The breathe-session branch of [do_task] (lines 114-133). *)
Definition do_breathe (task_info : quest) : eff state bool :=
  let already_done := value task_info in
  let needed := required task_info in
  if decide (already_done = needed) then eff_ret false
  else
    let next_available_from := nextAvailableFrom task_info in
    let! now := (λ s, (Ok (time_ms (outside s)), s)) in
    let session : eff state bool :=
      call "well3.complete_breath_session" well3_complete_breath_session;;
      let log_msg := self_idx +:+ ") Breathe session done ["
                     +:+ pretty (already_done + 1) +:+ "/" +:+ pretty needed +:+ "]" in
      (if decide (needed ≤ already_done + 1) then log SUCCESS log_msg
       else log INFO log_msg);;
      eff_ret false in
    match next_available_from with
    | Some next =>
        if decide (now < next) then
          log INFO (self_idx +:+ ") Next breathe available in "
                    +:+ str_timedelta ((next - now) `div` 1000));;
          eff_ret false
        else session
    | None => session
    end.

(** The [match special['action']] of [do_task] with the [return True]
    that follows it. *)
Definition do_special (sp : special) : eff state bool :=
  if decide (action sp = "twitter-check-posted-media") then
    if FAKE_TWITTER then eff_ret true
    else
      let! tweet_url := post_tweet in
      log INFO (self_idx +:+ ") Tweet posted: " +:+ tweet_url);;
      eff_ret true
  else if decide (action sp = "twitter-check-follow-profile") then
    if FAKE_TWITTER then eff_ret true
    else
      let follow_username := last_segment "/" (data_url sp) in
      call "twitter.follow" (twitter_follow follow_username);;
      log INFO (self_idx +:+ ") " +:+ follow_username +:+ " followed");;
      eff_ret true
  else if decide (action sp = "twitter-check-retweet") then
    if FAKE_TWITTER then eff_ret true
    else
      let tweet_id := data_rtRequiredTweetId sp in
      call "twitter.retweet" (twitter_retweet tweet_id);;
      call "wait_a_bit" (wait_a_bit None);;
      let! liked := call "twitter.like" (twitter_like tweet_id) in
      if liked : bool then eff_ret true else eff_ret false
  else if decide (action sp = "twitter-check-profile-name") then
    log WARNING (self_idx +:+ ") Changing profile name is not supported yet");;
    eff_ret false
  else if decide (action sp = "twitter-check-profile-banner") then
    eff_ret true
  else
    log WARNING (self_idx +:+ ") Unknown special action " +:+ action sp
                 +:+ ". Trying to verify anyway");;
    eff_ret true.

Definition do_task (task_info : quest) : eff state bool :=
  if decide (condition task_info = Some BREATHE_SESSION_CONDITION) then
    do_breathe task_info
  else
    match special_of task_info with
    | Some sp => do_special sp
    | None => eff_ret true
    end.

(** [for task_id, task_info in self.quests[batch_name].items(): ...] *)
Fixpoint quests_loop (items : list (string * quest)) (cnt : nat)
  : eff state nat :=
  match items with
  | [] => eff_ret cnt
  | (task_id, task_info) :: rest =>
      if expClaimed task_info then quests_loop rest cnt
      else
        let task_title := clean_title (title task_info) in
        let title := task_title +:+ " [Exp: " +:+ pretty (exp task_info) +:+ "]" in
        if bool_decide (task_id ∈ self_pending_quests) then
          log INFO (self_idx +:+ ") " +:+ title +:+ " in pending verify");;
          quests_loop rest cnt
        else
          log INFO (self_idx +:+ ") " +:+ title);;
          let! done := do_task task_info in
          if done : bool then
            call "well3.claim_exp" (well3_claim_exp task_id);;
            log SUCCESS (self_idx +:+ ") Claimed exp or started verification");;
            call "wait_a_bit" (wait_a_bit (Some (Uniform 3 5)));;
            quests_loop rest (S cnt)
          else quests_loop rest cnt
  end.

Definition do_quests_batch (batch_name : string) : eff state nat :=
  log INFO (self_idx +:+ ") Starting " +:+ batch_name +:+ " tasks...");;
  match self_quests batch_name with
  | None => raise (Exn (OtherError "KeyError") ("'" +:+ batch_name +:+ "'"))
  | Some items => quests_loop items 0
  end.

Definition do_quests : eff state nat :=
  let! done := do_quests_batch "dailyProgress" in
  let! more := do_quests_batch "specialProgress" in
  eff_ret (done + more)%nat.
End Methods.
End Quests.

(** ** What a computation may leave behind *)

(** [m] leaves the invite pool alone and adds to the trace only events
    that satisfy [P]. *)
Definition leaves {W A} (P : event → Prop) (m : eff (run_state W) A) : Prop :=
  ∀ s, ∃ r s' new,
    m s = (r, s') ∧ invites s' = invites s
    ∧ trace s' = trace s ++ new ∧ Forall P new.

Definition is_log (e : event) : Prop :=
  match e with
  | EvLog _ _ => True
  | _ => False
  end.

Module QuestSamples.

Definition breathe_task : Quests.quest :=
  {| Quests.expClaimed := false; Quests.title := "Breathe<br/>daily";
     Quests.exp := 5; Quests.condition := Some "breathe";
     Quests.value := 0; Quests.required := 3;
     Quests.nextAvailableFrom := None; Quests.special_of := None |}.

Definition follow_task : Quests.quest :=
  {| Quests.expClaimed := false; Quests.title := "Follow us";
     Quests.exp := 10; Quests.condition := None;
     Quests.value := 0; Quests.required := 1;
     Quests.nextAvailableFrom := None;
     Quests.special_of :=
       Some {| Quests.action := "twitter-check-follow-profile";
               Quests.data_url := "https://x.com/well3";
               Quests.data_rtRequiredTweetId := "" |} |}.

Definition claimed_task : Quests.quest :=
  {| Quests.expClaimed := true; Quests.title := "Old";
     Quests.exp := 1; Quests.condition := None;
     Quests.value := 1; Quests.required := 1;
     Quests.nextAvailableFrom := None; Quests.special_of := None |}.

(** The account "1" with three daily tasks, on a platform and a social
    client that accept everything. *)
Definition quests0 (name : string) : option (list (string * Quests.quest)) :=
  if decide (name = "dailyProgress")
  then Some [("t1", claimed_task); ("t2", follow_task); ("t3", breathe_task)]
  else None.

Definition do_task0 (fake : bool) :=
  Quests.do_task (W:=unit) fake "breathe" "Join me" "1" []
    (λ w, (Ok tt, w)) (λ _ w, (Ok "https://x.com/status/1", w))
    (λ _ w, (Ok tt, w)) (λ _ w, (Ok tt, w)) (λ _ w, (Ok true, w))
    (λ _, 1000) (λ _, "0:00:00") (λ l _ w, (l, w)) (λ _ w, (Ok tt, w)).

Definition do_quests_batch0 :=
  Quests.do_quests_batch (W:=unit) false "breathe" "Join me" "1" quests0 [] []
    (λ _ w, (Ok tt, w)) (λ w, (Ok tt, w))
    (λ _ w, (Ok "https://x.com/status/1", w))
    (λ _ w, (Ok tt, w)) (λ _ w, (Ok tt, w)) (λ _ w, (Ok true, w))
    (λ _, 1000) (λ _, "0:00:00") (λ l _ w, (l, w)) (λ _ w, (Ok tt, w)).

Definition post_tweet0 :=
  Quests.post_tweet (W:=unit) "Join me" ["CODE1"]
    (λ _ w, (Ok "https://x.com/status/1", w)) (λ l _ w, (l, w)).

End QuestSamples.

(** ** account.py: linking the wallet *)

Module Wallet.
Section LinkWallet.
Context {W : Type}.
(** vars.py *)
Variable BREATHE_SESSION_CONDITION : string.
Variable WALLET_SIGN_MESSAGE_FORMAT : string.
(** The platform client, the clock, the pause of utils.py, and
    [EthAccount().sign_message(encode_defunct(text=message),
    private_key).signature.hex()]. *)
Variable well3_generate_codes : W → result unit * W.
Variable well3_me : W → result Account.profile * W.
Variable well3_link_wallet : string → string → W → result unit * W.
Variable time_ms : W → Z.
Variable wait_a_bit : option duration → W → result unit * W.
Variable sign_message : string → string → result string.

Abbreviation state := (Account.account * run_state W)%type.

Definition bind_key (private_key : string) : eff state unit :=
  λ st, (Ok tt,
         ({| Account.idx := Account.idx st.1; Account.info := Account.info st.1;
             Account.self_profile := Account.self_profile st.1;
             Account.private_key := Some private_key |}, st.2)).

Definition link_wallet_if_needed (private_key : string) : eff state unit :=
  let! a := Account.get_self in
  match Account.self_profile a with
  | None =>
      raise (Exn (OtherError "TypeError") "'NoneType' object is not subscriptable")
  | Some p =>
      (if decide (Account.linkedAddress p = None) then
         let! timestamp :=
           Account.lift (λ s, (Ok (time_ms (outside s)), s)) in
         let message :=
           replace "{{timestamp}}" (pretty timestamp) WALLET_SIGN_MESSAGE_FORMAT in
         let! signature :=
           Account.lift (Account.of_result (sign_message message private_key)) in
         Account.lift (call "wait_a_bit" (wait_a_bit (Some (Seconds 2))));;
         Account.lift (call "well3.link_wallet" (well3_link_wallet message signature));;
         Account.lift (log SUCCESS (Account.idx a +:+ ") Wallet linked"));;
         Account.lift (call "wait_a_bit" (wait_a_bit (Some (Seconds 5))));;
         Account.refresh_profile BREATHE_SESSION_CONDITION well3_generate_codes well3_me
       else eff_ret tt);;
      bind_key private_key
  end.
End LinkWallet.
End Wallet.

(** [s.split(sep)] for a one-character [sep]; [cur] is the piece under
    construction, reversed. *)
Fixpoint split_from (cur : list ascii) (sep : ascii) (s : string) : list string :=
  match s with
  | EmptyString => [string_of_list_ascii (reverse cur)]
  | String c rest =>
      if decide (c = sep)
      then string_of_list_ascii (reverse cur) :: split_from [] sep rest
      else split_from (c :: cur) sep rest
  end.

Definition split_on (sep : ascii) (s : string) : list string := split_from [] sep s.

(** ** main.py: refresh and refresh_account *)

Module Refresh.

(** What [refresh] works on: the store with the memory its records live
    in, and the state of the run. *)
Record state (W : Type) : Type := State {
  store : Storage.storage;
  heap : Storage.heap;
  run : run_state W;
}.
Arguments State {W}.
Arguments store {W}.
Arguments heap {W}.
Arguments run {W}.

Section Refresh.
Context {W : Type}.
(** vars.py *)
Variable BREATHE_SESSION_CONDITION : string.
(** [change_ip(link)] and [account.check_insights()], which are built
    from functions wrapped by [async_retry] of utils.py; the social and
    the platform client, which hold the record and may change it: each
    call hands the record back as it is afterwards;
    [EthAccount().from_key(wallet).address]. *)
Variable change_ip : string → W → result unit * W.
Variable check_insights : eff (Account.account * run_state W) unit.
Variable twitter_start :
  Storage.account_value → W → result Storage.account_value * W.
Variable sign_in_or_start_register_if_needed :
  Storage.account_value → W → result (bool * Storage.account_value) * W.
Variable well3_generate_codes : W → result unit * W.
Variable well3_me : W → result Account.profile * W.
Variable address_of_key : string → result string.

(** A step that concerns the run only. *)
Definition in_run {A} (m : eff (run_state W) A) : eff (state W) A :=
  λ st, let '(r, s') := m (run st) in
        (r, {| store := store st; heap := heap st; run := s' |}).

(** A method of the [Account] object [a]; the object afterwards. *)
Definition on_account (a : Account.account)
    (m : eff (Account.account * run_state W) unit) : eff (state W) Account.account :=
  λ st, let '(r, (a', s')) := m (a, run st) in
        (match r with Ok _ => Ok a' | Raise e => Raise e end,
         {| store := store st; heap := heap st; run := s' |}).

(** [await storage.get_account_info(address)]: the copy the store hands
    out, read as a value.  [refresh] is the only holder of that copy. *)
Definition storage_get (address : string)
  : eff (state W) (option Storage.account_value) :=
  λ st,
    match Storage.get_account_info (store st) address (heap st) with
    | Some (Some c, h') =>
        match Storage.view h' c with
        | Some v => (Ok (Some v), {| store := store st; heap := h'; run := run st |})
        | None => (Raise (Exn (OtherError "RuntimeError") "incomplete record"), st)
        end
    | Some (None, h') =>
        (Ok None, {| store := store st; heap := h'; run := run st |})
    | None => (Raise (Exn (OtherError "RuntimeError") "incomplete record"), st)
    end.

(** [await storage.set_account_info(address, account_info)] for the
    record [refresh] holds, as it reads by then. *)
Definition storage_set (address : string) (v : Storage.account_value)
  : eff (state W) unit :=
  λ st,
    let '(c, h1) := Storage.alloc_account v (heap st) in
    match Storage.set_account_info (store st) address c h1 with
    | Some (s', h') => (Ok tt, {| store := s'; heap := h'; run := run st |})
    | None => (Raise (Exn (OtherError "RuntimeError") "incomplete record"), st)
    end.

Definition refresh (prefix address : string) (with_insights : bool)
  : eff (state W) (option Storage.account_value) :=
  in_run (log INFO (prefix +:+ ") " +:+ address));;
  let! account_info := storage_get address in
  match account_info with
  | None => eff_ret None
  | Some account_info =>
      (if contains "|" (Storage.proxy account_info) then
         match split_on "|" (Storage.proxy account_info) !! 1%nat with
         | Some change_link =>
             in_run (call "change_ip" (change_ip change_link));;
             in_run (log INFO (prefix +:+ ") Successfully changed ip"))
         | None => raise (Exn IndexError "list index out of range")
         end
       else eff_ret tt);;
      let! account_info :=
        in_run (call "twitter.start" (twitter_start account_info)) in
      let! signed_in :=
        in_run (call "well3.sign_in_or_start_register_if_needed"
                     (sign_in_or_start_register_if_needed account_info)) in
      let '(need_invite, account_info) := signed_in in
      if need_invite : bool then eff_ret None
      else
        let account :=
          {| Account.idx := prefix; Account.info := account_info;
             Account.self_profile := None; Account.private_key := None |} in
        let! account :=
          on_account account
            (Account.refresh_profile BREATHE_SESSION_CONDITION
               well3_generate_codes well3_me) in
        let! account :=
          (if with_insights then on_account account check_insights
           else eff_ret account) in
        storage_set address (Account.info account);;
        eff_ret (Some (Account.info account))
  end.

Definition refresh_account (account_data : Main.account_entry)
  : eff (state W) Main.ProcessResult :=
  let '(idx, (wallet, proxy, twitter_token)) := account_data in
  match address_of_key wallet with
  | Raise e => raise e
  | Ok address =>
      refresh ("Refreshing account " +:+ pretty idx) address true;;
      eff_ret {| Main.invite_used := false |}
  end.
End Refresh.
End Refresh.

(** * Theorems *)

(** ** Round-robin batches *)

Section DistributeFacts.
Context {A : Type}.
Implicit Types (data : list A) (bs : list (list A)).

Lemma append_to_batch_ok (N : Z) bs (idx : nat) (d : A) :
  1 ≤ N → length bs = Z.to_nat N →
  Batches.append_to_batch N bs idx d
  = Ok (alter (λ b, b ++ [d]) (idx `mod` Z.to_nat N)%nat bs).
Proof.
  intros HN Hlen. unfold Batches.append_to_batch, py_index.
  destruct (decide (N = 0)) as [|_]; [lia|].
  pose proof (Z.mod_pos_bound (Z.of_nat idx) N ltac:(lia)) as [Hlo Hhi].
  destruct (decide (0 ≤ Z.of_nat idx `mod` N)) as [_|]; [|lia].
  destruct (decide (Z.of_nat idx `mod` N < Z.of_nat (length bs))) as [_|]; [|lia].
  do 2 f_equal.
  rewrite <- (Z2Nat.id N) at 1 by lia.
  rewrite <- Nat2Z.inj_mod. apply Nat2Z.id.
Qed.

Lemma distribute_from_app (N : Z) bs (idx : nat) data1 data2 :
  Batches.distribute_from N bs idx (data1 ++ data2)
  = result_bind (Batches.distribute_from N bs idx data1)
      (λ bs', Batches.distribute_from N bs' (idx + length data1)%nat data2).
Proof.
  revert bs idx. induction data1 as [|d data1 IH]; intros bs idx; simpl.
  - by rewrite Nat.add_0_r.
  - destruct (Batches.append_to_batch N bs idx d) as [bs'|e]; simpl; [|done].
    rewrite IH. by replace (S idx + length data1)%nat with (idx + S (length data1))%nat by lia.
Qed.

Lemma concat_replicate_nil (n : nat) : concat (replicate n (@nil A)) = [].
Proof. induction n; simpl; auto. Qed.

Lemma concat_alter_snoc bs (j : nat) (d : A) :
  (j < length bs)%nat →
  concat (alter (λ b, b ++ [d]) j bs) ≡ₚ concat bs ++ [d].
Proof.
  revert j. induction bs as [|b bs IH]; intros j Hj; simpl in *; [lia|].
  destruct j as [|j]; simpl.
  - rewrite <- !(assoc_L (++)). apply Permutation_app_head, Permutation_app_comm.
  - rewrite <- (assoc_L (++)). apply Permutation_app_head, IH. lia.
Qed.

Lemma round_robin_nil (n : nat) :
  Batches.round_robin (A:=A) n [] (replicate n []).
Proof.
  repeat split.
  - apply length_replicate.
  - apply lookup_replicate in H as [-> _]. simpl in *. lia.
  - simpl. lia.
  - intros i d H. by rewrite lookup_nil in H.
  - by rewrite concat_replicate_nil.
Qed.

Lemma round_robin_batch_length (n : nat) data bs b :
  (0 < n)%nat → Batches.round_robin n data bs →
  bs !! (length data `mod` n)%nat = Some b →
  length b = (length data `div` n)%nat.
Proof.
  intros Hn (_ & Hlen & _ & _) Hb.
  pose proof (Nat.div_mod_eq (length data) n) as Hdm.
  pose proof (Nat.mod_upper_bound (length data) n ltac:(lia)) as Hlt.
  pose proof (Hlen _ _ (length data `div` n)%nat Hb) as H1.
  pose proof (Hlen _ _ (length b) Hb) as H2.
  set (q0 := (length data `div` n)%nat) in *.
  set (j0 := (length data `mod` n)%nat) in *.
  set (lb := length b) in *. clearbody q0 j0 lb. rewrite Hdm in H1, H2.
  assert (lb ≤ q0)%nat as Hle by (apply Nat.nlt_ge; intros Hc; apply H1 in Hc; lia).
  destruct (decide (lb = q0)) as [|Hne]; [done|].
  assert (lb * n + j0 < n * q0 + j0)%nat as Hc by nia.
  apply H2 in Hc. lia.
Qed.

Lemma round_robin_snoc (n : nat) data bs (d : A) :
  (0 < n)%nat → Batches.round_robin n data bs →
  Batches.round_robin n (data ++ [d])
    (alter (λ b, b ++ [d]) (length data `mod` n)%nat bs).
Proof.
  intros Hn Hrr.
  pose proof Hrr as (Hl & Hlen & Hpos & Hperm).
  pose proof (Nat.mod_upper_bound (length data) n ltac:(lia)) as Hlt.
  pose proof (Nat.div_mod_eq (length data) n) as Hdm.
  destruct (lookup_lt_is_Some_2 bs (length data `mod` n)%nat ltac:(lia)) as [b0 Hb0].
  pose proof (round_robin_batch_length _ _ _ _ Hn Hrr Hb0) as Hb0len.
  repeat split.
  - by rewrite length_alter.
  - destruct (decide (j = length data `mod` n)%nat) as [->|Hne].
    + rewrite list_lookup_alter_eq, Hb0 in H. injection H as <-.
      rewrite !length_app, Hb0len. simpl. intros Hq.
      pose proof (Nat.mul_le_mono_r q (length data `div` n)%nat n ltac:(lia)). lia.
    + rewrite list_lookup_alter_ne in H by done.
      rewrite length_app. simpl. intros Hq. apply (Hlen _ _ q) in H.
      apply H in Hq. lia.
  - destruct (decide (j = length data `mod` n)%nat) as [->|Hne].
    + rewrite list_lookup_alter_eq, Hb0 in H. injection H as <-.
      rewrite !length_app, Hb0len. simpl. intros Hq.
      apply Nat.nle_gt. intros Hc.
      pose proof (Nat.mul_le_mono_r (S (length data `div` n)) q n ltac:(lia)). lia.
    + rewrite list_lookup_alter_ne in H by done.
      rewrite length_app. simpl. intros Hq. apply (Hlen j b q H).
      assert (j < n)%nat by (apply lookup_lt_Some in H; lia).
      destruct (decide (q * n + j = length data)%nat) as [Heq|]; [|lia].
      exfalso. apply Hne. rewrite <- Heq.
      rewrite Nat.add_comm, Nat.Div0.mod_add. by rewrite Nat.mod_small.
  - intros i x Hi.
    destruct (decide (i < length data)%nat) as [Hlti|Hge].
    + rewrite lookup_app_l in Hi by done.
      destruct (Hpos _ _ Hi) as (b & Hb & Hx).
      destruct (decide (i `mod` n = length data `mod` n)%nat) as [Heq|Hne].
      * exists (b ++ [d]). rewrite Heq, list_lookup_alter_eq, <- Heq, Hb. split; [done|].
        rewrite lookup_app_l; [done|]. by eapply lookup_lt_Some.
      * exists b. by rewrite list_lookup_alter_ne.
    + assert (i = length data).
      { apply lookup_lt_Some in Hi. rewrite length_app in Hi. simpl in Hi. lia. }
      subst i. rewrite lookup_app_r, Nat.sub_diag in Hi by lia. injection Hi as <-.
      exists (b0 ++ [d]). rewrite list_lookup_alter_eq, Hb0. split; [done|].
      rewrite lookup_app_r by lia. by rewrite Hb0len, Nat.sub_diag.
  - rewrite concat_alter_snoc by lia. by rewrite Hperm.
Qed.

Lemma distribute_round_robin (N : Z) data :
  1 ≤ N →
  ∃ bs, Batches.distribute N data = Ok bs ∧ Batches.round_robin (Z.to_nat N) data bs.
Proof.
  intros HN. unfold Batches.distribute.
  induction data as [|d data IH] using rev_ind.
  - eexists. split; [done|]. apply round_robin_nil.
  - destruct IH as (bs & Hrun & Hrr).
    rewrite distribute_from_app, Hrun. simpl.
    rewrite append_to_batch_ok; [|done|by destruct Hrr].
    eexists. split; [done|]. apply round_robin_snoc; [lia|done].
Qed.

(** C1.  For every list [data] of accounts and every parallelism factor
    [N >= 1], the loop of [get_batches] returns [N] batches; the account
    at position [i] is in batch [i mod N], at position [i div N] of it
    (round-robin, not contiguous slices); and the batches put end to end
    are a permutation of [data]: every account is in exactly one batch,
    exactly as often as it is in [data]. *)
Theorem get_batches_round_robin_partition (N : Z) data :
  1 ≤ N →
  ∃ bs, Batches.distribute N data = Ok bs
    ∧ length bs = Z.to_nat N
    ∧ (∀ (i : nat) d, data !! i = Some d →
         ∃ b, bs !! (i `mod` Z.to_nat N)%nat = Some b
              ∧ b !! (i `div` Z.to_nat N)%nat = Some d)
    ∧ concat bs ≡ₚ data.
Proof.
  intros HN. destruct (distribute_round_robin N data HN)
    as (bs & Hrun & Hlen & _ & Hpos & Hperm).
  by exists bs.
Qed.

End DistributeFacts.

(** ** The persistent store *)

Section HeapFacts.
Import Storage.
Implicit Types (h : heap) (l : loc) (v : account_value).

Lemma alloc_fresh (o : obj) h l h' :
  alloc o h = (l, h') → h !! l = None ∧ h' = <[l:=o]> h.
Proof.
  unfold alloc. intros [= <- <-]. split; [|done].
  apply not_elem_of_dom, is_fresh.
Qed.

Lemma with_fields_same (v : account_value) (lc li : loc) :
  with_fields (with_fields v lc li) (invite_codes v) (insights v) = v.
Proof. by destruct v. Qed.

Lemma view_weaken h h' l v :
  h ⊆ h' → view h l = Some v → view h' l = Some v.
Proof.
  intros Hsub. unfold view.
  destruct (h !! l) as [[| |a]|] eqn:Hl; try done.
  rewrite (lookup_weaken _ _ _ _ Hl Hsub).
  destruct (h !! invite_codes a) as [[codes| |]|] eqn:Hc; try done.
  destruct (h !! insights a) as [[|ins|]|] eqn:Hi; try done.
  by rewrite (lookup_weaken _ _ _ _ Hc Hsub), (lookup_weaken _ _ _ _ Hi Hsub).
Qed.

(** Only the objects of the footprint decide what a record reads as. *)
Lemma view_agree h h' l :
  (∀ x, x ∈ footprint h l → h' !! x = h !! x) → view h' l = view h l.
Proof.
  unfold view, footprint. intros Hag.
  destruct (h !! l) as [[| |a]|] eqn:Hl.
  - by rewrite Hag, Hl by set_solver.
  - by rewrite Hag, Hl by set_solver.
  - rewrite (Hag l), Hl by set_solver.
    by rewrite (Hag (invite_codes a)), (Hag (insights a)) by set_solver.
  - by rewrite Hag, Hl by set_solver.
Qed.

Lemma footprint_in_heap h l v x :
  view h l = Some v → x ∈ footprint h l → is_Some (h !! x).
Proof.
  unfold view, footprint.
  destruct (h !! l) as [[| |a]|] eqn:Hl; try done.
  destruct (h !! invite_codes a) as [[codes| |]|] eqn:Hc; try done.
  destruct (h !! insights a) as [[|ins|]|] eqn:Hi; try done.
  intros _ Hx.
  assert (x = l ∨ x = invite_codes a ∨ x = insights a) as [->|[->| ->]]
    by set_solver; eauto.
Qed.

Lemma footprint_weaken h h' l v :
  h ⊆ h' → view h l = Some v → footprint h' l = footprint h l.
Proof.
  intros Hsub. unfold view, footprint.
  destruct (h !! l) as [[| |a]|] eqn:Hl; try done.
  by rewrite (lookup_weaken _ _ _ _ Hl Hsub).
Qed.

Lemma alloc_account_spec v h l h' :
  alloc_account v h = (l, h') →
  h ⊆ h' ∧ view h' l = Some v ∧ (∀ x, x ∈ footprint h' l → h !! x = None).
Proof.
  unfold alloc_account.
  destruct (alloc (ObjList (invite_codes v)) h) as [lc h1] eqn:E1.
  destruct (alloc (ObjDict (insights v)) h1) as [li h2] eqn:E2.
  intros E3.
  apply alloc_fresh in E1 as [F1 ->], E2 as [F2 ->], E3 as [F3 ->].
  assert (lc ≠ li) by (intros ->; by rewrite lookup_insert_eq in F2).
  assert (li ≠ l) by (intros ->; by rewrite lookup_insert_eq in F3).
  assert (lc ≠ l).
  { intros ->. by rewrite lookup_insert_ne, lookup_insert_eq in F3. }
  rewrite lookup_insert_ne in F2 by done.
  rewrite !lookup_insert_ne in F3 by done.
  split; [|split].
  - etrans; [|apply insert_subseteq; by rewrite !lookup_insert_ne].
    etrans; [|apply insert_subseteq; by rewrite !lookup_insert_ne].
    by apply insert_subseteq.
  - unfold view. rewrite lookup_insert_eq. simpl.
    rewrite (lookup_insert_ne _ l lc), (lookup_insert_ne _ li lc) by done.
    rewrite lookup_insert_eq.
    rewrite (lookup_insert_ne _ l li) by done.
    rewrite lookup_insert_eq. by rewrite with_fields_same.
  - unfold footprint. rewrite lookup_insert_eq. simpl. intros x Hx.
    assert (x = l ∨ x = lc ∨ x = li) as [->|[->| ->]] by set_solver; done.
Qed.

Lemma deepcopy_spec h l v :
  view h l = Some v →
  ∃ c h', deepcopy l h = Some (c, h')
    ∧ h ⊆ h' ∧ view h' c = Some v
    ∧ (∀ x, x ∈ footprint h' c → h !! x = None).
Proof.
  intros Hv. unfold deepcopy. rewrite Hv. simpl.
  destruct (alloc_account v h) as [c h'] eqn:E.
  exists c, h'. split; [done|]. by apply alloc_account_spec.
Qed.

Lemma contents_lookup (s : storage) h addr :
  contents s h !! addr = data s !! addr ≫= view h.
Proof. unfold contents. apply lookup_omap. Qed.

Lemma contents_weaken (s : storage) h h' :
  wf s h → h ⊆ h' → contents s h' = contents s h.
Proof.
  intros Hwf Hsub. apply map_eq. intros addr. rewrite !contents_lookup.
  destruct (data s !! addr) as [l|] eqn:Hl; [|done]. simpl.
  destruct (Hwf _ _ Hl) as [v Hv]. rewrite Hv. by eapply view_weaken.
Qed.

Lemma contents_mutates (s : storage) (L : gset loc) h h' :
  (∀ x, x ∈ L → ¬ owns s h x) → mutates L h h' →
  contents s h' = contents s h.
Proof.
  intros Hsep Hmut. apply map_eq. intros addr. rewrite !contents_lookup.
  destruct (data s !! addr) as [l|] eqn:Hl; [|done]. simpl.
  apply view_agree. intros x Hx. apply Hmut. intros HL.
  apply (Hsep _ HL). by exists addr, l.
Qed.

Lemma owns_in_heap (s : storage) h x : wf s h → owns s h x → is_Some (h !! x).
Proof.
  intros Hwf (addr & l & Hl & Hx). destruct (Hwf _ _ Hl) as [v Hv].
  by eapply footprint_in_heap.
Qed.

Lemma wf_weaken (s : storage) h h' : wf s h → h ⊆ h' → wf s h'.
Proof.
  intros Hwf Hsub addr l Hl. destruct (Hwf _ _ Hl) as [v Hv].
  exists v. by eapply view_weaken.
Qed.

Lemma owns_weaken (s : storage) h h' x :
  wf s h → h ⊆ h' → owns s h' x → owns s h x.
Proof.
  intros Hwf Hsub (addr & l & Hl & Hx). exists addr, l. split; [done|].
  destruct (Hwf _ _ Hl) as [v Hv]. by rewrite <- (footprint_weaken h h' l v).
Qed.

End HeapFacts.

Section SnapshotFacts.
Import Storage.
Context {J : Type}.
Variable to_dict : account_value → J.
Variable from_dict : J → result account_value.

Lemma load_items_spec (items : list (string * J)) (acc : gmap string loc)
    (h : heap) :
  NoDup items.*1 →
  (∀ a i, (a, i) ∈ items → ∃ v, from_dict i = Ok v) →
  ∃ m h', load_items from_dict items acc h = Ok (m, h')
    ∧ h ⊆ h'
    ∧ (∀ a i, (a, i) ∈ items →
         ∃ l v, m !! a = Some l ∧ from_dict i = Ok v ∧ view h' l = Some v)
    ∧ (∀ a, a ∉ items.*1 → m !! a = acc !! a).
Proof.
  revert acc h. induction items as [|[a i] items IH]; intros acc h Hnd Hok.
  - exists acc, h. split; [done|]. split; [done|]. split; [|done].
    intros a i Hin. by apply elem_of_nil in Hin.
  - rewrite fmap_cons in Hnd. apply NoDup_cons in Hnd as [Ha Hnd].
    destruct (Hok a i ltac:(left)) as [v Hv]. cbn [load_items]. rewrite Hv.
    destruct (alloc_account v h) as [l h1] eqn:E.
    apply alloc_account_spec in E as (Hsub1 & Hview1 & _).
    destruct (IH (<[a:=l]> acc) h1 Hnd) as (m & h' & Hrun & Hsub & Hin & Hout).
    { intros a' i' H'. apply (Hok a' i'). by right. }
    exists m, h'. split; [done|]. split; [by trans h1|]. split.
    + intros a' i' [[= -> ->]|H']%elem_of_cons.
      * exists l, v. rewrite (Hout a Ha), lookup_insert_eq.
        split; [done|]. split; [done|]. by eapply view_weaken.
      * by apply Hin.
    + intros a' Ha'. apply not_elem_of_cons in Ha' as [Hne Ha'].
      rewrite (Hout a' Ha'). by rewrite lookup_insert_ne.
Qed.

Hypothesis from_to_dict : ∀ v, from_dict (to_dict v) = Ok v.

(** C9.  Provided [AccountInfo.from_dict] undoes [AccountInfo.to_dict]
    (models.py) - and [json.load] reads back what [json.dump] wrote, as
    the file model has it - saving a store and initialising a new
    [Storage] on the same file, in any heap, succeeds and yields a store
    holding the same address to record mapping: the same addresses,
    each with an equal record. *)
Theorem save_then_init_roundtrip (s : storage) (h h0 : heap)
    (d : gmap string (file_content J)) :
  ∃ s' h',
    init from_dict (new (filename s)) h0 (save to_dict s h d) = Ok (s', h')
    ∧ filename s' = filename s
    ∧ contents s' h' = contents s h
    ∧ wf s' h'.
Proof.
  unfold init, save. simpl. rewrite lookup_insert_eq.
  set (c := contents s h).
  destruct (load_items_spec (map_to_list (to_dict <$> c)) ∅ h0)
    as (m & h' & -> & _ & Hin & Hout).
  { apply NoDup_fst_map_to_list. }
  { intros a i [v [<- _]]%elem_of_map_to_list%lookup_fmap_Some. eauto. }
  eexists _, h'. split; [done|]. split; [done|]. split.
  - apply map_eq. intros a. rewrite contents_lookup. simpl.
    destruct (c !! a) as [v|] eqn:Hc.
    + destruct (Hin a (to_dict v)) as (l & v' & -> & Hv' & Hview).
      { apply elem_of_map_to_list. by rewrite lookup_fmap, Hc. }
      rewrite from_to_dict in Hv'. by injection Hv' as <-.
    + rewrite Hout, lookup_empty; [done|].
      intros [[a' i] [Ha' Hai]]%list_elem_of_fmap. simpl in Ha'. subst a'.
      apply elem_of_map_to_list in Hai. by rewrite lookup_fmap, Hc in Hai.
  - intros a l Hl. simpl in Hl.
    destruct (decide (a ∈ (map_to_list (to_dict <$> c)).*1)) as [Hd|Hd].
    + apply list_elem_of_fmap in Hd as [[a' i] [Ha' Hai]]. simpl in Ha'. subst a'.
      destruct (Hin _ _ Hai) as (l' & v & Hl' & _ & Hv).
      rewrite Hl in Hl'. injection Hl' as <-. eauto.
    + by rewrite (Hout a Hd), lookup_empty in Hl.
Qed.

End SnapshotFacts.

Section AccessorFacts.
Import Storage.
Implicit Types (s : storage) (h : heap).

Lemma set_account_info_spec s h addr info v :
  wf s h → view h info = Some v →
  (∀ x, x ∈ footprint h info → ¬ owns s h x) →
  ∃ s' h', set_account_info s addr info h = Some (s', h')
    ∧ contents s' h' = <[addr:=v]> (contents s h)
    ∧ wf s' h'
    ∧ ∀ h'', mutates (footprint h info) h' h'' →
             contents s' h'' = contents s' h'.
Proof.
  intros Hwf Hv Hsep.
  destruct (deepcopy_spec h info v Hv) as (c & h' & Hcopy & Hsub & Hc & Hfresh).
  unfold set_account_info, set_final_account_info. rewrite Hcopy. simpl.
  eexists _, h'. split; [done|].
  assert (wf {| filename := filename s; data := <[addr:=c]> (data s) |} h') as Hwf'.
  { intros a l. simpl. rewrite lookup_insert. case_decide.
    - intros [= <-]. eauto.
    - intros Hl. destruct (Hwf _ _ Hl) as [w Hw]. exists w. by eapply view_weaken. }
  split; [|split; [done|]].
  - apply map_eq. intros a. rewrite contents_lookup. simpl.
    rewrite !lookup_insert. case_decide; [done|].
    rewrite contents_lookup.
    destruct (data s !! a) as [l|] eqn:Hl; [|done]. simpl.
    destruct (Hwf _ _ Hl) as [w Hw]. rewrite Hw. by eapply view_weaken.
  - intros h'' Hmut. eapply contents_mutates; [|done].
    intros x Hx (a & l & Hl & Hxl). simpl in Hl.
    rewrite lookup_insert in Hl. case_decide.
    + injection Hl as <-. apply Hfresh in Hxl.
      destruct (footprint_in_heap _ _ _ _ Hv Hx) as [o Ho]. congruence.
    + apply (Hsep x Hx). exists a, l. split; [done|].
      destruct (Hwf _ _ Hl) as [w Hw]. by rewrite <- (footprint_weaken h h' l w).
Qed.

Lemma get_account_info_spec s h addr :
  wf s h →
  ∃ r h', get_account_info s addr h = Some (r, h')
    ∧ r ≫= view h' = contents s h !! addr
    ∧ contents s h' = contents s h
    ∧ wf s h'
    ∧ ∀ l, r = Some l → ∀ h'', mutates (footprint h' l) h' h'' →
             contents s h'' = contents s h.
Proof.
  intros Hwf. unfold get_account_info, get_final_account_info.
  rewrite contents_lookup.
  destruct (data s !! addr) as [info|] eqn:Hinfo.
  - destruct (Hwf _ _ Hinfo) as [v Hv].
    destruct (deepcopy_spec h info v Hv) as (c & h' & Hcopy & Hsub & Hc & Hfresh).
    rewrite Hcopy. simpl. exists (Some c), h'. split; [done|].
    split; [by rewrite Hv|]. split; [by apply contents_weaken|].
    split; [by eapply wf_weaken|].
    intros l [= <-] h'' Hmut. rewrite <- (contents_weaken s h h') by done.
    eapply contents_mutates; [|done].
    intros x Hx Hown. apply Hfresh in Hx.
    destruct (owns_in_heap s h x Hwf (owns_weaken s h h' x Hwf Hsub Hown)) as [o Ho].
    congruence.
  - exists None, h. by repeat split.
Qed.

(** C10.  On a store whose entries are complete records:
    [set_account_info(addr, info)], for an [info] that is not one of the
    store's own objects, makes [addr] map to what [info] reads as and
    changes no other entry, and mutating the objects of [info]
    afterwards changes nothing in the store;
    [get_account_info(addr)] returns [None] or a new object that reads
    as the entry, leaves every entry as it is, and mutating the returned
    object afterwards changes nothing in the store either.  Both work on
    deep copies: the store shares no object with its callers. *)
Theorem accessors_work_on_deep_copies s h addr :
  wf s h →
  (∀ info v,
     view h info = Some v →
     (∀ x, x ∈ footprint h info → ¬ owns s h x) →
     ∃ s' h', set_account_info s addr info h = Some (s', h')
       ∧ contents s' h' = <[addr:=v]> (contents s h)
       ∧ wf s' h'
       ∧ ∀ h'', mutates (footprint h info) h' h'' →
                contents s' h'' = contents s' h')
  ∧ (∃ r h', get_account_info s addr h = Some (r, h')
       ∧ r ≫= view h' = contents s h !! addr
       ∧ contents s h' = contents s h
       ∧ wf s h'
       ∧ ∀ l, r = Some l → ∀ h'', mutates (footprint h' l) h' h'' →
                contents s h'' = contents s h).
Proof.
  intros Hwf. split.
  - intros info v Hv Hsep. by apply set_account_info_spec.
  - by apply get_account_info_spec.
Qed.

End AccessorFacts.

(** ** The invite pool *)

Section InviteFacts.
Context {W : Type}.
Implicit Types (s : run_state W).

Lemma get_invite_empty s :
  invites s = [] → Invites.get_invite s = (Ok None, s).
Proof. intros H. unfold Invites.get_invite. by rewrite H. Qed.

Lemma get_invite_cons s code rest :
  invites s = code :: rest →
  Invites.get_invite s = (Ok (Some code), set_invites rest s).
Proof. intros H. unfold Invites.get_invite. by rewrite H. Qed.

(** C3 (amended).  [get_invite] on an empty queue returns [None]
    without blocking - in the same step, with no sleep, no call and no
    wait for a refill - and leaves the state, the pool with it, as it
    is; on a non-empty queue it returns the front code and removes it
    (consumption is destructive).  Two consecutive calls therefore
    return successive entries of the queue, and never the same code
    when the queue holds no code twice. *)
Theorem get_invite_destructive s :
  (invites s = [] → Invites.get_invite s = (Ok None, s))
  ∧ (∀ code rest, invites s = code :: rest →
       Invites.get_invite s = (Ok (Some code), set_invites rest s))
  ∧ (NoDup (invites s) →
     ∀ r1 s1 r2 s2 code,
       Invites.get_invite s = (r1, s1) → Invites.get_invite s1 = (r2, s2) →
       r1 = Ok (Some code) → r2 ≠ Ok (Some code)).
Proof.
  split; [apply get_invite_empty|]. split; [apply get_invite_cons|].
  intros Hnd r1 s1 r2 s2 code H1 H2 -> ->.
  destruct (invites s) as [|c1 rest] eqn:Hs.
  { by rewrite (get_invite_empty s Hs) in H1. }
  rewrite (get_invite_cons s c1 rest Hs) in H1. injection H1 as -> <-.
  destruct rest as [|c2 rest].
  { by rewrite get_invite_empty in H2. }
  rewrite (get_invite_cons _ c2 rest) in H2 by done. injection H2 as -> _.
  apply NoDup_cons in Hnd as [Hnotin _]. apply Hnotin. by left.
Qed.

(** C8.  With a non-empty queue (and THREADS_NUM not zero, so that the
    pause can be computed), [update_invites] returns normally after one
    sleep of WAIT_BETWEEN_ACCOUNTS[0] / THREADS_NUM: the queue holds the
    same codes in the same order, no collaborator was called (no refill)
    and the outside world is as it was. *)
Theorem update_invites_nonempty_noop
    (WAIT_BETWEEN_ACCOUNTS : Z * Z) (THREADS_NUM : Z)
    (first_count : Invites.first_count) (MOBILE_PROXY : bool)
    (addresses : list string)
    (refresh : string → string → W → result (option (list string)) * W)
    (shuffle_addresses : list (nat * string) → W → list (nat * string) * W)
    (shuffle_codes : list string → W → list string * W) s :
  THREADS_NUM ≠ 0 → invites s ≠ [] →
  Invites.update_invites WAIT_BETWEEN_ACCOUNTS THREADS_NUM first_count
    MOBILE_PROXY addresses refresh shuffle_addresses shuffle_codes s
  = (Ok tt,
     {| invites := invites s; outside := outside s;
        trace := trace s ++ [EvSleep (Quotient WAIT_BETWEEN_ACCOUNTS.1 THREADS_NUM)] |}).
Proof.
  intros HT Hne. unfold Invites.update_invites, try_except.
  destruct (invites s) as [|c rest] eqn:Hs; [done|].
  unfold eff_bind, truediv. destruct (decide (THREADS_NUM = 0)); [done|].
  unfold eff_ret, sleep, emit. simpl. by rewrite Hs.
Qed.

End InviteFacts.

(** ** Effects: how the primitives act on the state *)

Section RunStateFacts.
Context {W : Type}.
Implicit Types (s : run_state W) (evs : list event).

Lemma add_trace_nil s : add_trace [] s = s.
Proof. destruct s. unfold add_trace. simpl. by rewrite app_nil_r. Qed.

Lemma add_trace_add_trace evs1 evs2 s :
  add_trace evs2 (add_trace evs1 s) = add_trace (evs1 ++ evs2) s.
Proof. unfold add_trace. simpl. by rewrite (assoc_L (++)). Qed.

Lemma add_trace_set_outside evs (w : W) s :
  add_trace evs (set_outside w s) = set_outside w (add_trace evs s).
Proof. done. Qed.

Lemma set_outside_set_outside (w w' : W) s :
  set_outside w' (set_outside w s) = set_outside w' s.
Proof. done. Qed.

Lemma emit_eq (e : event) s : emit e s = (Ok tt, add_trace [e] s).
Proof. done. Qed.

Lemma log_eq lv msg s : log lv msg s = (Ok tt, add_trace [EvLog lv msg] s).
Proof. done. Qed.

Lemma sleep_eq d s : sleep d s = (Ok tt, add_trace [EvSleep d] s).
Proof. done. Qed.

Lemma call_eq {A} name (f : W → result A * W) s :
  call name f s
  = ((f (outside s)).1, add_trace [EvCall name] (set_outside (f (outside s)).2 s)).
Proof. unfold call. by destruct (f (outside s)). Qed.

End RunStateFacts.

(** ** Transaction confirmation *)

Section PollFacts.
Context {W : Type}.
Variable SCAN : string.
Variable LOG_RESULT_TOPIC : string.
Variable LOG_DATA_NAME_AND_COLOR : list (string * string).
Variable colored : string → string → string.
Variable get_transaction_receipt : string → W → result (option Account.receipt) * W.
Implicit Types (s : run_state W) (w : W).

Local Abbreviation report_logs :=
  (Account.report_logs (W:=W) LOG_RESULT_TOPIC LOG_DATA_NAME_AND_COLOR colored).
Local Abbreviation report_receipt :=
  (Account.report_receipt (W:=W) LOG_RESULT_TOPIC LOG_DATA_NAME_AND_COLOR colored).
Local Abbreviation poll :=
  (Account.poll LOG_RESULT_TOPIC LOG_DATA_NAME_AND_COLOR colored get_transaction_receipt).
Local Abbreviation world_after := (Account.world_after get_transaction_receipt).
Local Abbreviation answer := (Account.answer get_transaction_receipt).
Local Abbreviation no_receipt := Account.no_receipt.
Local Abbreviation idle_rounds := Account.idle_rounds.
Local Abbreviation is_report := Account.is_report.

Lemma report_logs_events self_idx ls s :
  ∃ r evs, report_logs self_idx ls s = (r, add_trace evs s) ∧ Forall is_report evs.
Proof.
  revert s. induction ls as [|l ls IH]; intros s; simpl.
  - exists (Ok tt), []. by rewrite add_trace_nil.
  - destruct (Account.topics l) as [[|topic0 ts]|]; [| |by apply IH].
    { exists (Raise (Exn IndexError "list index out of range")), [].
      by rewrite add_trace_nil. }
    destruct (decide (topic0 ≠ LOG_RESULT_TOPIC)); [by apply IH|].
    destruct (Account.data l) as [bytes|]; [|by apply IH].
    cbv [eff_bind Account.of_result].
    destruct (Account.log_values _) as [values|e].
    2:{ exists (Raise e), []. by rewrite add_trace_nil. }
    destruct (Account.pretty_parts _ _ _ _) as [parts|e].
    2:{ exists (Raise e), []. by rewrite add_trace_nil. }
    rewrite emit_eq, log_eq, emit_eq, !add_trace_add_trace.
    edestruct IH as (r & evs & -> & Hevs).
    rewrite add_trace_add_trace. eexists _, _. split; [done|].
    repeat (apply Forall_cons; split; [unfold Account.is_report; eauto|]). done.
Qed.

Lemma report_receipt_events self_idx action tx_link (r : Account.receipt) s :
  ∃ evs,
    report_receipt self_idx action tx_link r s
    = (Ok tt,
       add_trace
         (EvLog (if decide (Account.status r = Some 1) then SUCCESS else ERROR)
                (self_idx +:+ ") " +:+ action
                 +:+ (if decide (Account.status r = Some 1)
                      then " - Successful tx: " else " - Failed tx: ")
                 +:+ tx_link) :: evs) s)
    ∧ Forall is_report evs.
Proof.
  unfold Account.report_receipt, eff_bind.
  assert (∃ evs, try_except
            match Account.logs r with
            | Some (l :: ls) => report_logs self_idx (l :: ls)
            | _ => eff_ret tt
            end (λ _, eff_ret tt)
            (add_trace [EvLog (if decide (Account.status r = Some 1) then SUCCESS else ERROR)
                (self_idx +:+ ") " +:+ action
                 +:+ (if decide (Account.status r = Some 1)
                      then " - Successful tx: " else " - Failed tx: ")
                 +:+ tx_link)] s)
          = (Ok tt, add_trace evs (add_trace [EvLog (if decide (Account.status r = Some 1) then SUCCESS else ERROR)
                (self_idx +:+ ") " +:+ action
                 +:+ (if decide (Account.status r = Some 1)
                      then " - Successful tx: " else " - Failed tx: ")
                 +:+ tx_link)] s))
          ∧ Forall is_report evs) as (evs & Heq & Hevs).
  { unfold try_except.
    destruct (Account.logs r) as [[|l ls]|].
    - exists []. by rewrite add_trace_nil.
    - edestruct (report_logs_events self_idx (l :: ls)) as (res & evs & -> & Hevs).
      exists evs. split; [by destruct res as [[]|]|done].
    - exists []. by rewrite add_trace_nil. }
  exists evs. split; [|done].
  destruct (decide (Account.status r = Some 1)); rewrite log_eq, Heq;
    by rewrite add_trace_add_trace.
Qed.

Lemma world_after_S tx_hash (k : nat) w :
  world_after tx_hash (S k) w
  = world_after tx_hash k (get_transaction_receipt tx_hash w).2.
Proof. unfold Account.world_after. by rewrite Nat.iter_succ_r. Qed.

(** One round that finds nothing: a query and a sleep. *)
Lemma poll_idle_round fuel self_idx action tx_hash link (t p : Z) s :
  t < 150 → no_receipt (answer tx_hash (outside s)) →
  poll (S fuel) self_idx action tx_hash link t p s
  = poll fuel self_idx action tx_hash link (t + p) p
      (add_trace (idle_rounds 1 p)
         (set_outside (world_after tx_hash 1 (outside s)) s)).
Proof.
  intros Ht Hno. cbn [Account.poll].
  destruct (decide (t < 150)) as [_|]; [|lia].
  unfold eff_bind at 1, try_except, eff_bind at 1. rewrite call_eq.
  unfold Account.answer in Hno. unfold Account.world_after, idle_rounds. simpl.
  destruct Hno as [->|[msg ->]]; simpl;
    unfold eff_bind; rewrite sleep_eq, add_trace_add_trace; done.
Qed.

Lemma poll_idle (n fuel : nat) self_idx action tx_hash link (t : Z) s :
  (∀ k, (k < n)%nat →
     no_receipt (answer tx_hash (world_after tx_hash k (outside s)))) →
  t + Z.of_nat n ≤ 150 →
  poll (n + fuel) self_idx action tx_hash link t 1 s
  = poll fuel self_idx action tx_hash link (t + Z.of_nat n) 1
      (add_trace (idle_rounds n 1)
         (set_outside (world_after tx_hash n (outside s)) s)).
Proof.
  revert t s. induction n as [|n IH]; intros t s Hno Ht.
  - simpl. rewrite Z.add_0_r. f_equal. destruct s.
    unfold add_trace, set_outside, Account.idle_rounds. simpl. by rewrite app_nil_r.
  - replace (S n + fuel)%nat with (S (n + fuel)) by lia.
    rewrite poll_idle_round; [|lia|apply (Hno 0%nat); lia].
    rewrite IH; [|intros k Hk; simpl; rewrite <- world_after_S; apply Hno; lia|lia].
    f_equal; [lia|]. unfold add_trace, set_outside. simpl.
    rewrite <- world_after_S. f_equal.
    rewrite <- (assoc_L (++)). f_equal.
Qed.

Lemma poll_timeout fuel self_idx action tx_hash link (t p : Z) s :
  150 ≤ t →
  poll (S fuel) self_idx action tx_hash link t p s
  = (Ok (Some tt),
     add_trace [EvLog WARNING (self_idx +:+ ") " +:+ action +:+ " - Pending tx: " +:+ link)] s).
Proof.
  intros Ht. cbn [Account.poll]. destruct (decide (t < 150)); [lia|].
  unfold eff_bind. by rewrite log_eq.
Qed.

Lemma poll_receipt fuel self_idx action tx_hash link (t p : Z) s r :
  t < 150 → answer tx_hash (outside s) = Ok (Some r) →
  ∃ evs, Forall is_report evs ∧
    poll (S fuel) self_idx action tx_hash link t p s
    = (Ok (Some tt),
       add_trace
         (EvCall "eth.get_transaction_receipt"
          :: EvLog (if decide (Account.status r = Some 1) then SUCCESS else ERROR)
                (self_idx +:+ ") " +:+ action
                 +:+ (if decide (Account.status r = Some 1)
                      then " - Successful tx: " else " - Failed tx: ")
                 +:+ link) :: evs)
         (set_outside (world_after tx_hash 1 (outside s)) s)).
Proof.
  intros Ht Hr. cbn [Account.poll].
  destruct (decide (t < 150)) as [_|]; [|lia].
  unfold eff_bind at 1, try_except, eff_bind at 1. rewrite call_eq.
  unfold Account.answer in Hr. rewrite Hr. unfold eff_bind at 1.
  edestruct report_receipt_events as (evs & -> & Hevs).
  exists evs. split; [done|]. unfold eff_ret. by rewrite add_trace_add_trace.
Qed.

(** C4. Transaction confirmation with the default one-second poll
    latency, given enough fuel to leave the loop (151 rounds).  If each
    of the first 150 receipt queries finds nothing ([None] or
    TransactionNotFound), [tx_verification] makes exactly those 150
    queries, each followed by a one-second sleep, logs the WARNING
    "Pending tx" and returns normally.  If the query number [n] (counted
    from 0, [n < 150]) is the first to yield a receipt, the status is
    logged (SUCCESS when it is 1, ERROR "Failed tx" otherwise), the
    result log is reported, and the call returns at once: no further
    query, no sleep, no resubmission.  The three outcomes end in three
    different log levels. *)
Theorem tx_verification_outcomes (fuel : nat) (a : Account.account)
    (tx_hash action : string) s :
  (151 ≤ fuel)%nat →
  let link := SCAN +:+ "/tx/" +:+ tx_hash in
  let sent := EvLog INFO (Account.idx a +:+ ") " +:+ action +:+ " - Tx sent") in
  let verify :=
    Account.tx_verification SCAN LOG_RESULT_TOPIC LOG_DATA_NAME_AND_COLOR
      colored get_transaction_receipt fuel a tx_hash action 1 s in
  ((∀ k, (k < 150)%nat →
      no_receipt (answer tx_hash (world_after tx_hash k (outside s)))) →
   verify
   = (Ok (Some tt),
      add_trace
        (sent :: idle_rounds 150 1
         ++ [EvLog WARNING (Account.idx a +:+ ") " +:+ action
                            +:+ " - Pending tx: " +:+ link)])
        (set_outside (world_after tx_hash 150 (outside s)) s)))
  ∧ (∀ (n : nat) r, (n < 150)%nat →
       (∀ k, (k < n)%nat →
          no_receipt (answer tx_hash (world_after tx_hash k (outside s)))) →
       answer tx_hash (world_after tx_hash n (outside s)) = Ok (Some r) →
       ∃ evs, Forall is_report evs ∧
         verify
         = (Ok (Some tt),
            add_trace
              (sent :: idle_rounds n 1
               ++ EvCall "eth.get_transaction_receipt"
               :: EvLog (if decide (Account.status r = Some 1) then SUCCESS else ERROR)
                    (Account.idx a +:+ ") " +:+ action
                     +:+ (if decide (Account.status r = Some 1)
                          then " - Successful tx: " else " - Failed tx: ")
                     +:+ link) :: evs)
              (set_outside (world_after tx_hash (S n) (outside s)) s))).
Proof.
  intros Hfuel link sent verify.
  assert (verify = poll fuel (Account.idx a) action tx_hash link 0 1
                     (add_trace [sent] s)) as -> by done.
  split.
  - intros Hno.
    replace fuel with (150 + S (fuel - 151))%nat by lia.
    rewrite (poll_idle 150 (S (fuel - 151))); [|exact Hno|lia].
    rewrite poll_timeout by lia.
    f_equal. unfold add_trace, set_outside. simpl. f_equal.
    by rewrite <- !(assoc_L (++)).
  - intros n r Hn Hno Hr.
    replace fuel with (n + S (fuel - S n))%nat by lia.
    rewrite (poll_idle n (S (fuel - S n))); [|exact Hno|lia].
    edestruct (poll_receipt (fuel - S n) (Account.idx a) action tx_hash link
                 (0 + Z.of_nat n) 1
                 (add_trace (idle_rounds n 1)
                    (set_outside (world_after tx_hash n (outside (add_trace [sent] s)))
                       (add_trace [sent] s))) r)
      as (evs & Hevs & ->); [lia|done|].
    exists evs. split; [done|].
    f_equal. unfold add_trace, set_outside, Account.world_after. simpl. f_equal.
    by rewrite <- !(assoc_L (++)).
Qed.

End PollFacts.

(** ** Building and sending a transaction *)

Section BuildFacts.
Context {W F : Type}.
Variable BREATHE_SESSION_CONDITION : string.
Variable well3_generate_codes : W → result unit * W.
Variable well3_me : W → result Account.profile * W.
Variable get_transaction_count : string → W → result Z * W.
Variable build_transaction : F → string → Z → Z → W → result Account.tx * W.
Variable estimate_gas : Account.tx → W → result Z * W.
Variable sign_transaction : Account.tx → string → result string.
Variable send_raw_transaction : string → W → result string * W.
Implicit Types (s : run_state W) (a : Account.account).

Local Abbreviation refresh_profile :=
  (Account.refresh_profile BREATHE_SESSION_CONDITION well3_generate_codes well3_me).
Local Abbreviation attempt :=
  (Account.build_and_send_tx_attempt BREATHE_SESSION_CONDITION
     well3_generate_codes well3_me get_transaction_count build_transaction
     estimate_gas sign_transaction send_raw_transaction).

Lemma lift_call_eq {A} name (f : W → result A * W) a s :
  Account.lift (call name f) (a, s)
  = ((f (outside s)).1,
     (a, add_trace [EvCall name] (set_outside (f (outside s)).2 s))).
Proof. unfold Account.lift. simpl. by rewrite call_eq. Qed.

Lemma lift_log_eq lv msg a s :
  Account.lift (log lv msg) (a, s) = (Ok tt, (a, add_trace [EvLog lv msg] s)).
Proof. done. Qed.

Lemma lift_sleep_eq d a s :
  Account.lift (sleep d) (a, s) = (Ok tt, (a, add_trace [EvSleep d] s)).
Proof. done. Qed.

(** A profile refresh is one call of [generate_codes], then at most one
    of [me]; nothing else is left behind. *)
Lemma refresh_profile_trace a s :
  ∃ r a' w evs,
    refresh_profile (a, s)
    = (r, (a', add_trace (EvCall "well3.generate_codes" :: evs) (set_outside w s)))
    ∧ (evs = [] ∨ evs = [EvCall "well3.me"]).
Proof.
  unfold Account.refresh_profile, eff_bind at 1. rewrite lift_call_eq.
  destruct (well3_generate_codes (outside s)) as [[[]|e] w1]; simpl.
  - unfold eff_bind at 1. rewrite lift_call_eq. simpl.
    destruct (well3_me w1) as [[p|e] w2]; simpl.
    + eexists _, _, w2, [EvCall "well3.me"]. split; [|by right].
      unfold eff_bind, Account.get_self, Account.set_self, add_trace, set_outside.
      simpl. by rewrite <- (assoc_L (++)).
    + eexists _, _, w2, [EvCall "well3.me"]. split; [|by right].
      unfold add_trace, set_outside. simpl. by rewrite <- (assoc_L (++)).
  - eexists _, _, w1, []. split; [|by left]. done.
Qed.

(** C5 (amended). One attempt of [build_and_send_tx] with a key bound
    and a profile loaded, whose gas estimation fails with [e]: the
    attempt ends in an error and neither signs nor sends.  It runs
    [refresh_profile] exactly once when the profile's linked address is
    the account's address, and not at all otherwise.  When no refresh is
    due, or the refresh returns, the error that propagates is
    "Tx simulation failed: " followed by [str(e)]; when the refresh
    itself raises, it is the refresh's error that propagates. *)
Theorem simulation_failure_refresh_then_raise (func : F) a s
    (key : string) (p : Account.profile) (nonce : Z) (tx : Account.tx)
    (e : exn) (w1 w2 w3 : W) :
  Account.private_key a = Some key →
  Account.self_profile a = Some p →
  get_transaction_count (Storage.address (Account.info a)) (outside s)
    = (Ok nonce, w1) →
  build_transaction func (Storage.address (Account.info a)) nonce
    Account.GAS_PRICE w1 = (Ok tx, w2) →
  estimate_gas tx w2 = (Raise e, w3) →
  let linked :=
    Account.linkedAddress p = Some (Storage.address (Account.info a)) in
  let failed :=
    Exn PlainException ("Tx simulation failed: " +:+ str_of_exn e) in
  let pre := [EvCall "eth.get_transaction_count"; EvCall "build_transaction";
              EvCall "eth.estimate_gas"] in
  let announced :=
    add_trace
      (pre ++ [EvLog INFO (Account.idx a +:+
                 ") Tx simulation failed, refreshing signatures and retrying")])
      (set_outside w3 s) in
  ∃ err st' new,
    attempt func (a, s) = (Raise err, st')
    ∧ trace st'.2 = trace s ++ new
    ∧ count_calls "well3.generate_codes" new
      = (if decide linked then 1 else 0)%nat
    ∧ count_calls "eth.account.sign_transaction" new = 0%nat
    ∧ count_calls "eth.send_raw_transaction" new = 0%nat
    ∧ (linked →
         st' = (refresh_profile (a, announced)).2
         ∧ err = match (refresh_profile (a, announced)).1 with
                 | Ok _ => failed
                 | Raise e' => e'
                 end)
    ∧ (¬ linked →
         st' = (a, add_trace pre (set_outside w3 s)) ∧ err = failed).
Proof.
  intros Hkey Hp Hcount Hbuild Hgas linked failed pre announced.
  unfold Account.build_and_send_tx_attempt.
  cbv [eff_bind try_except Account.get_self]. cbn [fst snd].
  rewrite Hkey, lift_call_eq, Hcount. cbn [fst snd].
  rewrite lift_call_eq. cbn [fst snd outside set_outside add_trace].
  rewrite Hbuild. cbn [fst snd].
  rewrite lift_call_eq. cbn [fst snd outside set_outside add_trace].
  rewrite Hgas. cbn [fst snd]. rewrite Hp.
  assert (add_trace [EvCall "eth.estimate_gas"]
            (set_outside w3
               (add_trace [EvCall "build_transaction"]
                  (set_outside w2
                     (add_trace [EvCall "eth.get_transaction_count"]
                        (set_outside w1 s)))))
          = add_trace pre (set_outside w3 s)) as ->.
  { unfold add_trace, set_outside. simpl. by rewrite <- !(assoc_L (++)). }
  fold linked. destruct (decide linked) as [Hl|Hl].
  - rewrite lift_log_eq, add_trace_add_trace. fold announced.
    destruct (refresh_profile_trace a announced) as (r & a' & w & evs & Hr & Hevs).
    rewrite Hr. cbn [fst snd].
    exists (match r with Ok _ => failed | Raise e' => e' end),
      (a', add_trace (EvCall "well3.generate_codes" :: evs) (set_outside w announced)),
      (pre ++ [EvLog INFO (Account.idx a +:+
                 ") Tx simulation failed, refreshing signatures and retrying")]
       ++ EvCall "well3.generate_codes" :: evs).
    split; [by destruct r|]. split.
    { simpl. by rewrite <- !(assoc_L (++)). }
    split; [by destruct Hevs as [-> | ->]|].
    split; [by destruct Hevs as [-> | ->]|].
    split; [by destruct Hevs as [-> | ->]|].
    split; [done|]. intros Hn. by destruct Hn.
  - unfold eff_ret, raise.
    exists failed, (a, add_trace pre (set_outside w3 s)), pre.
    by repeat split.
Qed.

Lemma count_calls_app name (evs1 evs2 : list event) :
  count_calls name (evs1 ++ evs2)
  = (count_calls name evs1 + count_calls name evs2)%nat.
Proof. unfold count_calls. by rewrite filter_app, length_app. Qed.

Lemma attempt_without_key (func : F) a s :
  Account.private_key a = None →
  attempt func (a, s)
  = (Raise (Exn PlainException "No private key specified"), (a, s)).
Proof.
  intros Hkey. unfold Account.build_and_send_tx_attempt.
  cbv [eff_bind Account.get_self]. cbn [fst]. by rewrite Hkey.
Qed.

Lemma retry_loop_without_key (policy : Account.retry_policy) (k : nat)
    (func : F) a s :
  Account.private_key a = None →
  ∃ new,
    Account.retry_loop policy k (attempt func) (a, s)
    = (Raise (Exn PlainException "No private key specified"),
       (a, add_trace new s))
    ∧ (∀ name, count_calls name new = 0%nat)
    ∧ length (filter is_warning new)
      = (if Account.do_not_retry policy PlainException then 1 else S k)%nat.
Proof.
  intros Hkey. revert s. induction k as [|k IH]; intros s.
  - cbn [Account.retry_loop]. unfold try_except.
    rewrite attempt_without_key by done.
    unfold eff_bind. rewrite lift_log_eq. cbn [exn_cls].
    exists [EvLog WARNING ("Retry: " +:+ "No private key specified")].
    split; [by destruct (Account.do_not_retry policy PlainException)|].
    split; [done|]. by destruct (Account.do_not_retry policy PlainException).
  - cbn [Account.retry_loop]. unfold try_except.
    rewrite attempt_without_key by done.
    unfold eff_bind at 1. rewrite lift_log_eq. cbn [exn_cls].
    destruct (Account.do_not_retry policy PlainException) eqn:Hno.
    + exists [EvLog WARNING ("Retry: " +:+ "No private key specified")].
      by repeat split.
    + unfold eff_bind. rewrite lift_sleep_eq, add_trace_add_trace.
      match goal with
      | |- context [Account.retry_loop _ _ _ (a, ?s')] =>
          destruct (IH s') as (new & -> & Hcalls & Hwarn)
      end.
      rewrite add_trace_add_trace. eexists. split; [done|]. split.
      * intros name. rewrite count_calls_app, Hcalls. done.
      * rewrite filter_app, length_app, Hwarn. done.
Qed.

(** With no private key bound, every attempt of [build_and_send_tx]
    raises "No private key specified" before any collaborator is
    called, and that error is what the decorated call finally raises.
    Whether it is retried is decided by [utils.async_retry], which is
    not among the sources: under the Retry Policy of §4.1 it is
    attempted once when the policy designates plain exceptions as
    do-not-retry and [max_tries] times otherwise (a warning per failed
    attempt) - the same as a failed simulation, which raises the same
    class. *)
Theorem missing_key_fails_like_any_exception (policy : Account.retry_policy)
    (func : F) a s :
  Account.private_key a = None →
  ∃ new,
    Account.build_and_send_tx BREATHE_SESSION_CONDITION
      well3_generate_codes well3_me get_transaction_count build_transaction
      estimate_gas sign_transaction send_raw_transaction policy func (a, s)
    = (Raise (Exn PlainException "No private key specified"),
       (a, add_trace new s))
    ∧ (∀ name, count_calls name new = 0%nat)
    ∧ length (filter is_warning new)
      = (if Account.do_not_retry policy PlainException then 1
         else Nat.max 1 (Account.max_tries policy))%nat.
Proof.
  intros Hkey. unfold Account.build_and_send_tx, Account.async_retry.
  destruct (retry_loop_without_key policy (Account.max_tries policy - 1) func a s Hkey)
    as (new & -> & Hcalls & Hwarn).
  exists new. split; [done|]. split; [done|]. rewrite Hwarn.
  destruct (Account.do_not_retry policy PlainException); lia.
Qed.

End BuildFacts.

(** ** Signing in with an invite code *)

Section SignInFacts.
Context {W : Type}.
Variable AUTO_UPDATE_INVITES : bool.
Variable update_invites : eff (run_state W) unit.
Variable use_invite_code : Main.account_entry → string → W → result unit * W.
Implicit Types (s : run_state W) (d : Main.account_entry).

Local Abbreviation draw_invite :=
  (Main.draw_invite AUTO_UPDATE_INVITES update_invites).
Local Abbreviation invite_pass :=
  (Main.invite_pass AUTO_UPDATE_INVITES update_invites use_invite_code).
Local Abbreviation invite_loop :=
  (Main.invite_loop AUTO_UPDATE_INVITES update_invites use_invite_code).
Local Abbreviation refill_attempt :=
  (Main.refill_attempt AUTO_UPDATE_INVITES update_invites).







End SignInFacts.

(** ** The batch orchestrator *)

Lemma splitlines_from_nonempty (cur : list ascii) (s : string) :
  cur ≠ [] ∨ s ≠ "" → splitlines_from cur s ≠ [].
Proof.
  revert cur. induction s as [|c rest IH]; intros cur Hne; simpl.
  - destruct Hne as [Hne|Hne]; [|done]. by destruct cur.
  - destruct (is_line_boundary c); [done|]. apply IH. by left.
Qed.

Section OrchestratorFacts.
Context {W : Type}.
Variable WAIT_BETWEEN_ACCOUNTS : Z * Z.
Variable THREADS_NUM : Z.
Variable now : W → string.
Variable file_open : string → W → result unit * W.
Variable file_write : string → string → W → result unit * W.
Variable async_func : Main.account_entry → eff (run_state W) Main.ProcessResult.
Variable sleep_between : bool.
Implicit Types (s : run_state W) (d : Main.account_entry) (t : Main.task).
Implicit Types (calls : list Main.handled).

Local Abbreviation report_error := (Main.report_error now file_open file_write).
Local Abbreviation process_one :=
  (Main.process_one WAIT_BETWEEN_ACCOUNTS now file_open file_write async_func
     sleep_between).
Local Abbreviation step_task :=
  (Main.step_task WAIT_BETWEEN_ACCOUNTS THREADS_NUM now file_open file_write
     async_func sleep_between).
Local Abbreviation run_schedule :=
  (Main.run_schedule WAIT_BETWEEN_ACCOUNTS THREADS_NUM now file_open file_write
     async_func sleep_between).
Local Abbreviation run_tasks :=
  (Main.run_tasks WAIT_BETWEEN_ACCOUNTS THREADS_NUM now file_open file_write
     async_func sleep_between).
Local Abbreviation process :=
  (Main.process WAIT_BETWEEN_ACCOUNTS THREADS_NUM now file_open file_write
     async_func sleep_between).
Local Abbreviation run_stretches :=
  (Main.run_stretches WAIT_BETWEEN_ACCOUNTS THREADS_NUM now file_open file_write
     async_func sleep_between).
Local Abbreviation after_pause :=
  (Main.after_pause WAIT_BETWEEN_ACCOUNTS sleep_between).
Local Abbreviation appends_succeed := (Main.appends_succeed file_open file_write).
Local Abbreviation keeps_trace := (Main.keeps_trace async_func).
Local Abbreviation error_logged d e evs :=
  (∃ line more,
     splitlines (Main.error_text e) = line :: more
     ∧ EvLog ERROR (pretty d.1 +:+ ") Process account error: " +:+ line) ∈ evs).
Local Abbreviation task_ok := Main.task_ok.
Local Abbreviation tasks_ok := Main.tasks_ok.
Local Abbreviation todo := Main.todo.
Local Abbreviation visits := Main.visits.
Local Abbreviation calls_of := Main.calls_of.

(** What the handler does, by the number of lines of the message. *)
Lemma error_text_lines (e : exn) :
  ∃ line more, splitlines (Main.error_text e) = line :: more.
Proof.
  assert (Main.error_text e ≠ "") as Hne.
  { unfold Main.error_text. by case_decide. }
  destruct (splitlines (Main.error_text e)) as [|line more] eqn:Hl; [|by eauto].
  by apply splitlines_from_nonempty in Hl; [|right].
Qed.

Lemma report_error_one_line d (e : exn) (line : string) s :
  splitlines (Main.error_text e) = [line] →
  report_error d e s
  = (Ok tt,
     add_trace [EvLog ERROR (pretty d.1 +:+ ") Process account error: " +:+ line)] s).
Proof.
  intros Hl. unfold Main.report_error. rewrite Hl. unfold eff_bind.
  by rewrite log_eq.
Qed.

Lemma report_error_more_lines d (e : exn) (line l2 : string) (more : list string) s :
  splitlines (Main.error_text e) = line :: l2 :: more →
  report_error d e s
  = let logged := EvLog ERROR (pretty d.1 +:+ ") Process account error: " +:+ line) in
    match file_open "logs/errors.txt" (outside s) with
    | (Raise e', w1) =>
        (Raise e', add_trace [logged; EvCall "aiofiles.open"] (set_outside w1 s))
    | (Ok _, w1) =>
        let text := now w1 +:+ " | " +:+ pretty d.1
                    +:+ ") Process account error: " +:+ Main.error_text e in
        match file_write "logs/errors.txt" text w1 with
        | (Raise e', w2) =>
            (Raise e',
             add_trace [logged; EvCall "aiofiles.open"; EvCall "file.write"]
               (set_outside w2 s))
        | (Ok _, w2) =>
            (Ok tt,
             add_trace [logged; EvCall "aiofiles.open"; EvCall "file.write";
                        EvAppendFile "logs/errors.txt" text]
               (set_outside w2 s))
        end
    end.
Proof.
  intros Hl. unfold Main.report_error. rewrite Hl. unfold eff_bind at 1.
  rewrite log_eq. unfold eff_bind at 1. rewrite call_eq. cbn [fst snd outside add_trace].
  destruct (file_open "logs/errors.txt" (outside s)) as [[[]|e'] w1]; cbn [fst snd].
  - unfold eff_bind at 1. rewrite call_eq. cbn [fst snd outside add_trace set_outside].
    destruct (file_write "logs/errors.txt" _ w1) as [[[]|e'] w2]; cbn [fst snd].
    + rewrite emit_eq. unfold add_trace, set_outside. simpl.
      by rewrite <- !(assoc_L (++)).
    + unfold add_trace, set_outside. simpl. by rewrite <- !(assoc_L (++)).
  - unfold add_trace, set_outside. simpl. by rewrite <- !(assoc_L (++)).
Qed.

(** With appends that succeed the handler returns: there is always a
    first line, it is logged, and the pool is left alone. *)
Lemma report_error_returns d (e : exn) s :
  appends_succeed →
  ∃ line more s2 new,
    splitlines (Main.error_text e) = line :: more
    ∧ report_error d e s = (Ok tt, s2)
    ∧ invites s2 = invites s
    ∧ trace s2
      = trace s ++ EvLog ERROR (pretty d.1 +:+ ") Process account error: " +:+ line)
                   :: new.
Proof.
  intros [Hopen Hwrite].
  destruct (error_text_lines e) as (line & more & Hl).
  exists line, more. destruct more as [|l2 more].
  - rewrite (report_error_one_line d e line s Hl). by eexists _, [].
  - rewrite (report_error_more_lines d e line l2 more s Hl). cbv zeta.
    destruct (Hopen (outside s)) as [w1 ->].
    match goal with
    | |- context [file_write ?p ?text w1] =>
        destruct (Hwrite text w1) as [w2 ->]
    end.
    by eexists _, _.
Qed.

Lemma process_one_returns (idx : nat) d s :
  appends_succeed →
  match async_func d (after_pause idx s) with
  | (Ok r, s1) => process_one idx d s = (Ok (Ok r), s1)
  | (Raise e, s1) =>
      ∃ line more s2 new,
        splitlines (Main.error_text e) = line :: more
        ∧ process_one idx d s = (Ok (Raise e), s2)
        ∧ invites s2 = invites s1
        ∧ trace s2
          = trace s1
            ++ EvLog ERROR (pretty d.1 +:+ ") Process account error: " +:+ line)
               :: new
  end.
Proof.
  intros Happ.
  destruct (async_func d (after_pause idx s)) as [[r|e] s1] eqn:Hf.
  - unfold Main.process_one. cbv [try_except eff_bind eff_ret].
    unfold Main.after_pause in Hf.
    destruct (sleep_between && negb (bool_decide (idx = 0%nat)));
      rewrite ?sleep_eq, Hf; done.
  - destruct (report_error_returns d e s1 Happ)
      as (line & more & s2 & new & Hl & Hrep & Hinv & Htr).
    exists line, more, s2, new. split; [done|]. split; [|done].
    unfold Main.process_one. cbv [try_except eff_bind eff_ret].
    unfold Main.after_pause in Hf.
    destruct (sleep_between && negb (bool_decide (idx = 0%nat)));
      rewrite ?sleep_eq, Hf, Hrep; done.
Qed.

Lemma process_one_ok (idx : nat) d s :
  appends_succeed → ∃ r s', process_one idx d s = (Ok r, s').
Proof.
  intros Happ. pose proof (process_one_returns idx d s Happ) as H.
  destruct (async_func d (after_pause idx s)) as [[r|e] s1]; [by eauto|].
  destruct H as (line & more & s2 & new & _ & -> & _). eauto.
Qed.

(** What the run leaves behind only grows, and it holds an ERROR line
    for every exception caught. *)
Lemma report_error_trace d (e : exn) s r s2 :
  report_error d e s = (r, s2) →
  ∃ new, trace s2 = trace s ++ new ∧ error_logged d e new.
Proof.
  intros Hrep. destruct (error_text_lines e) as (line & more & Hl).
  destruct more as [|l2 more].
  - rewrite (report_error_one_line d e line s Hl) in Hrep. injection Hrep as _ <-.
    eexists. split; [done|]. exists line, []. split; [done|]. by left.
  - rewrite (report_error_more_lines d e line l2 more s Hl) in Hrep. cbv zeta in Hrep.
    destruct (file_open "logs/errors.txt" (outside s)) as [[[]|e1] w1].
    + destruct (file_write "logs/errors.txt" _ w1) as [[[]|e2] w2];
        injection Hrep as _ <-; (eexists; split; [done|]);
        exists line, (l2 :: more); (split; [done|]); by left.
    + injection Hrep as _ <-. eexists. split; [done|].
      exists line, (l2 :: more). split; [done|]. by left.
Qed.

Lemma process_one_trace (idx : nat) d s r s2 :
  keeps_trace → process_one idx d s = (Ok r, s2) →
  ∃ new, trace s2 = trace s ++ new
         ∧ ∀ e, r = Raise e → error_logged d e new.
Proof.
  intros Hkeep. unfold Main.process_one. unfold eff_bind at 1.
  set (pause := if sleep_between && negb (bool_decide (idx = 0%nat))
                then [EvSleep (Uniform WAIT_BETWEEN_ACCOUNTS.1 WAIT_BETWEEN_ACCOUNTS.2)]
                else []).
  assert ((if sleep_between && negb (bool_decide (idx = 0%nat))
           then sleep (Uniform WAIT_BETWEEN_ACCOUNTS.1 WAIT_BETWEEN_ACCOUNTS.2)
           else eff_ret tt) s = (Ok tt, add_trace pause s)) as ->.
  { unfold pause. destruct (sleep_between && _); [done|]. by rewrite add_trace_nil. }
  unfold try_except, eff_bind at 1.
  destruct (Hkeep d (add_trace pause s)) as [new1 Hnew1].
  destruct (async_func d (add_trace pause s)) as [[r1|e] s1]; simpl in Hnew1.
  - unfold eff_ret. intros [= <- <-]. exists (pause ++ new1).
    split; [by rewrite Hnew1, (assoc_L (++))|]. intros e [=].
  - unfold eff_bind.
    destruct (report_error d e s1) as [[[]|e'] s3] eqn:Hrep; [|done].
    unfold eff_ret. intros [= <- <-].
    destruct (report_error_trace d e s1 _ _ Hrep) as (new2 & Htr & line & more & Hl & Hin).
    exists (pause ++ new1 ++ new2). split.
    { rewrite Htr, Hnew1. by rewrite !(assoc_L (++)). }
    intros e0 [= <-]. exists line, more. split; [done|].
    rewrite !elem_of_app. by right; right.
Qed.

Lemma run_stretches_trace (xs : list Main.stretch) s calls s' :
  keeps_trace → run_stretches xs s = (Ok calls, s') →
  ∃ new, trace s' = trace s ++ new
         ∧ ∀ c e, c ∈ calls → Main.outcome c = Raise e →
                  error_logged (Main.account c) e new.
Proof.
  intros Hkeep. revert s calls.
  induction xs as [|x xs IH]; intros s calls.
  { simpl. unfold eff_ret. intros [= <- <-]. exists []. rewrite app_nil_r.
    split; [done|]. by intros c e Hc%elem_of_nil. }
  destruct x as [b|b idx d]; cbn [Main.run_stretches]; unfold eff_bind at 1.
  - unfold Main.stagger. destruct (decide (THREADS_NUM = 0)); [done|].
    rewrite sleep_eq. intros Hrun.
    destruct (IH _ _ Hrun) as (new & Htr & Hlog).
    eexists (_ :: new). split; [by rewrite Htr; simpl; rewrite <- (assoc_L (++))|].
    intros c e Hc Hout. destruct (Hlog c e Hc Hout) as (line & more & Hl & Hin).
    exists line, more. split; [done|]. by right.
  - destruct (process_one idx d s) as [[r|e1] s1] eqn:Hone; [|done].
    unfold eff_bind at 1.
    destruct (run_stretches xs s1) as [[calls1|e1] s2] eqn:Hrest; [|done].
    unfold eff_ret. intros [= <- <-].
    destruct (process_one_trace idx d s r s1 Hkeep Hone) as (new1 & Htr1 & Hlog1).
    destruct (IH _ _ Hrest) as (new2 & Htr2 & Hlog2).
    exists (new1 ++ new2). split; [by rewrite Htr2, Htr1, (assoc_L (++))|].
    intros c e Hc Hout. apply elem_of_cons in Hc as [->|Hc].
    + simpl in Hout. destruct (Hlog1 e Hout) as (line & more & Hl & Hin).
      exists line, more. split; [done|]. rewrite elem_of_app. by left.
    + destruct (Hlog2 c e Hc Hout) as (line & more & Hl & Hin).
      exists line, more. split; [done|]. rewrite elem_of_app. by right.
Qed.

(** Stretches run one after the other. *)
Lemma run_stretches_app (xs ys : list Main.stretch) s :
  run_stretches (xs ++ ys) s
  = match run_stretches xs s with
    | (Ok c1, s1) =>
        match run_stretches ys s1 with
        | (Ok c2, s2) => (Ok (c1 ++ c2), s2)
        | (Raise e, s2) => (Raise e, s2)
        end
    | (Raise e, s1) => (Raise e, s1)
    end.
Proof.
  revert s. induction xs as [|x xs IH]; intros s.
  - simpl. unfold eff_ret. by destruct (run_stretches ys s) as [[c2|e] s2].
  - destruct x as [b|b idx d]; cbn [app Main.run_stretches]; unfold eff_bind.
    + destruct (Main.stagger _ _ b s) as [[[]|e] s0]; [|done]. apply IH.
    + destruct (process_one idx d s) as [[r|e] s0]; [|done].
      rewrite IH. unfold eff_ret.
      destruct (run_stretches xs s0) as [[c1|e] s1]; [|done].
      destruct (run_stretches ys s1) as [[c2|e] s2]; done.
Qed.

Lemma count_consumed_app calls1 calls2 :
  Main.count_consumed (calls1 ++ calls2)
  = (Main.count_consumed calls1 + Main.count_consumed calls2)%nat.
Proof. unfold Main.count_consumed. by rewrite filter_app, length_app. Qed.

Lemma calls_of_app (b : nat) calls1 calls2 :
  calls_of b (calls1 ++ calls2) = calls_of b calls1 ++ calls_of b calls2.
Proof. apply filter_app. Qed.

Lemma calls_of_other (b : nat) calls :
  Forall (λ c, Main.in_batch c ≠ b) calls → calls_of b calls = [].
Proof.
  induction 1 as [|c calls Hc _ IH]; [done|].
  unfold Main.calls_of. rewrite filter_cons_False by done. exact IH.
Qed.

Lemma task_ok_other (b : nat) batch calls more t :
  Forall (λ c, Main.in_batch c ≠ b) more →
  task_ok b batch calls t → task_ok b batch (calls ++ more) t.
Proof.
  intros Hother. unfold Main.task_ok.
  by rewrite calls_of_app, (calls_of_other b more Hother), app_nil_r.
Qed.

(** One step of a task is one stretch of the run, or none. *)
Lemma step_task_ok (b : nat) batch calls t s :
  THREADS_NUM ≠ 0 → appends_succeed → task_ok b batch calls t →
  ∃ xs more,
    run_stretches xs s = (Ok more, (step_task t s).2)
    ∧ Forall (λ c, Main.in_batch c = b) more
    ∧ task_ok b batch (calls ++ more) (step_task t s).1
    ∧ todo (step_task t s).1 = pred (todo t)
    ∧ (length (Main.pending (step_task t s).1) ≤ length (Main.pending t))%nat.
Proof.
  intros HT Happ (Hb & Hpos & Hpend & Hcalls & Hused & Hcrash & Hret).
  destruct t as [tb pend pos used st]. simpl in *.
  unfold Main.step_task, todo. simpl. destruct st as [| | |e].
  - exists [Main.Start tb], []. cbn [Main.run_stretches]. unfold eff_bind, eff_ret.
    unfold Main.stagger. destruct (decide (THREADS_NUM = 0)); [done|].
    rewrite sleep_eq. simpl. rewrite app_nil_r.
    repeat split; try done; lia.
  - destruct pend as [|d rest].
    + exists [], []. simpl. rewrite app_nil_r. repeat split; try done; lia.
    + destruct (process_one_ok pos d s Happ) as (r & s' & Hone).
      exists [Main.Body tb pos d],
        [{| Main.in_batch := tb; Main.at_index := pos; Main.account := d;
            Main.outcome := r |}].
      cbn [Main.run_stretches]. unfold eff_bind, eff_ret. rewrite Hone. simpl.
      assert (batch !! pos = Some d) as Hd.
      { rewrite <- (Nat.add_0_r pos), <- lookup_drop, <- Hpend. done. }
      assert (rest = drop (S pos) batch) as Hrest.
      { rewrite <- (Nat.add_1_l pos), Nat.add_comm, <- drop_drop, <- Hpend. done. }
      split; [done|]. split; [by apply Forall_singleton|].
      split; [|split; [done|lia]].
      unfold Main.task_ok.
      cbn [Main.bid Main.pending Main.position Main.used_invites Main.status].
      rewrite calls_of_app.
      assert (calls_of b [{| Main.in_batch := tb; Main.at_index := pos;
                             Main.account := d; Main.outcome := r |}]
              = [{| Main.in_batch := tb; Main.at_index := pos;
                    Main.account := d; Main.outcome := r |}]) as ->.
      { unfold Main.calls_of. by rewrite filter_cons_True. }
      split; [done|]. split.
      { apply lookup_lt_Some in Hd. lia. }
      split; [done|]. split.
      { rewrite fmap_app, Hcalls. rewrite (take_S_r _ _ d Hd), imap_app.
        simpl. rewrite length_take_le by (apply lookup_lt_Some in Hd; lia).
        by rewrite Nat.add_0_r. }
      split.
      { rewrite count_consumed_app, <- Hused.
        unfold Main.count_consumed at 1. destruct (Main.consumed r) eqn:Hc.
        - rewrite filter_cons_True by (simpl; by rewrite Hc). simpl. lia.
        - rewrite filter_cons_False by (simpl; rewrite Hc; intros []). simpl. lia. }
      split; [done|]. done.
  - exists [], []. simpl. rewrite app_nil_r. repeat split; try done; lia.
  - by destruct (Hcrash e).
Qed.

Lemma tasks_ok_create (batches : list (list Main.account_entry)) :
  tasks_ok batches [] (imap Main.create_task batches).
Proof.
  split; [by rewrite length_imap|]. split; [done|].
  intros i batch t Hb Ht. rewrite list_lookup_imap, Hb in Ht.
  injection Ht as <-. unfold Main.task_ok. simpl.
  repeat split; try done; lia.
Qed.

Lemma tasks_ok_batch batches calls tasks (i : nat) t :
  tasks_ok batches calls tasks → tasks !! i = Some t →
  ∃ batch, batches !! i = Some batch ∧ task_ok i batch calls t.
Proof.
  intros (Hlen & _ & Hok) Ht.
  destruct (lookup_lt_is_Some_2 batches i) as [batch Hb].
  { rewrite <- Hlen. by eapply lookup_lt_Some. }
  exists batch. split; [done|]. by eapply Hok.
Qed.

Lemma task_ok_not_crashed (b : nat) batch calls t :
  task_ok b batch calls t → Main.is_crashed t = false.
Proof.
  intros (_ & _ & _ & _ & _ & Hcrash & _). unfold Main.is_crashed.
  destruct (Main.status t) as [| | |e]; try done. by destruct (Hcrash e).
Qed.

Lemma tasks_ok_none_crashed batches calls tasks :
  tasks_ok batches calls tasks → existsb Main.is_crashed tasks = false.
Proof.
  intros Hok.
  assert (Forall (λ t, Main.is_crashed t = false) tasks) as Hall.
  { apply Forall_lookup. intros i t Ht.
    destruct (tasks_ok_batch batches calls tasks i t Hok Ht) as (batch & _ & Hti).
    by eapply task_ok_not_crashed. }
  clear Hok. induction Hall as [|t tasks Ht _ IH]; [done|].
  simpl. by rewrite Ht, IH.
Qed.

Lemma tasks_ok_step batches calls tasks (i : nat) t s :
  THREADS_NUM ≠ 0 → appends_succeed →
  tasks_ok batches calls tasks → tasks !! i = Some t →
  ∃ xs more,
    run_stretches xs s = (Ok more, (step_task t s).2)
    ∧ Main.is_crashed (step_task t s).1 = false
    ∧ tasks_ok batches (calls ++ more) (<[i:=(step_task t s).1]> tasks).
Proof.
  intros HT Happ Hok Ht. pose proof Hok as (Hlen & Hin & Hall).
  destruct (tasks_ok_batch batches calls tasks i t Hok Ht) as (batch & Hb & Hti).
  destruct (step_task_ok i batch calls t s HT Happ Hti)
    as (xs & more & Hrun & Hmore & Hok' & _).
  exists xs, more. split; [done|].
  split; [by eapply task_ok_not_crashed|].
  split; [by rewrite length_insert|]. split.
  { apply Forall_app. split; [done|].
    eapply Forall_impl; [exact Hmore|]. intros c ->.
    by eapply lookup_lt_Some. }
  intros j batch' t' Hb' Ht'.
  destruct (decide (i = j)) as [->|Hne].
  - rewrite list_lookup_insert_eq in Ht' by (by eapply lookup_lt_Some).
    injection Ht' as <-. by simplify_eq.
  - rewrite list_lookup_insert_ne in Ht' by done.
    apply task_ok_other; [|by eapply Hall].
    eapply Forall_impl; [exact Hmore|]. by intros c ->.
Qed.

(** A run under a schedule is a sequence of stretches. *)
Lemma run_schedule_ok schedule batches calls tasks s :
  THREADS_NUM ≠ 0 → appends_succeed → tasks_ok batches calls tasks →
  ∃ xs more,
    run_stretches xs s = (Ok more, (run_schedule schedule tasks s).2)
    ∧ tasks_ok batches (calls ++ more) (run_schedule schedule tasks s).1.
Proof.
  intros HT Happ. revert calls tasks s.
  induction schedule as [|i rest IH]; intros calls tasks s Hok; simpl.
  { exists [], []. by rewrite app_nil_r. }
  destruct (tasks !! i) as [t|] eqn:Ht; [|by apply IH].
  destruct (tasks_ok_step batches calls tasks i t s HT Happ Hok Ht)
    as (xs1 & more1 & Hrun1 & Hnc & Hok1).
  destruct (step_task t s) as [t' s1]. simpl in Hrun1, Hnc, Hok1. rewrite Hnc.
  destruct (IH (calls ++ more1) (<[i:=t']> tasks) s1 Hok1)
    as (xs2 & more2 & Hrun2 & Hok2).
  exists (xs1 ++ xs2), (more1 ++ more2).
  rewrite run_stretches_app, Hrun1, Hrun2. split; [done|].
  by rewrite (assoc_L (++)).
Qed.

Lemma visits_cons (i j : nat) schedule :
  visits i (j :: schedule)
  = ((if decide (j = i) then 1 else 0) + visits i schedule)%nat.
Proof.
  unfold Main.visits. destruct (decide (j = i)).
  - by rewrite filter_cons_True.
  - by rewrite filter_cons_False.
Qed.

Lemma visits_seq (i a n : nat) :
  visits i (seq a n) = if decide (a ≤ i < a + n)%nat then 1%nat else 0%nat.
Proof.
  revert a. induction n as [|n IH]; intros a.
  - simpl. by case_decide; [lia|].
  - cbn [seq]. rewrite visits_cons, IH.
    repeat case_decide; lia.
Qed.

Lemma visits_rounds (i m n : nat) :
  (i < n)%nat → visits i (mjoin (replicate m (seq 0 n))) = m.
Proof.
  intros Hi. induction m as [|m IH]; [done|].
  simpl. unfold Main.visits in *. rewrite filter_app, length_app, IH.
  fold (visits i (seq 0 n)). rewrite visits_seq. case_decide; lia.
Qed.

Lemma run_schedule_done schedule batches calls tasks s :
  THREADS_NUM ≠ 0 → appends_succeed → tasks_ok batches calls tasks →
  (∀ i t, tasks !! i = Some t → (todo t ≤ visits i schedule)%nat) →
  ∀ i t, (run_schedule schedule tasks s).1 !! i = Some t →
         Main.status t = Main.Returned.
Proof.
  intros HT Happ. revert calls tasks s.
  induction schedule as [|i0 rest IH]; intros calls tasks s Hok Htodo i t Ht.
  - simpl in Ht. pose proof (Htodo i t Ht) as Hle.
    destruct (tasks_ok_batch batches calls tasks i t Hok Ht)
      as (batch & _ & _ & _ & _ & _ & _ & Hcrash & _).
    unfold Main.todo, Main.visits in Hle. simpl in Hle.
    destruct (Main.status t) as [| | |e]; try done; try lia.
    by destruct (Hcrash e).
  - simpl in Ht. destruct (tasks !! i0) as [t0|] eqn:Ht0.
    + destruct (tasks_ok_step batches calls tasks i0 t0 s HT Happ Hok Ht0)
        as (xs & more & _ & Hnc & Hok').
      destruct (tasks_ok_batch batches calls tasks i0 t0 Hok Ht0) as (batch & _ & Hok0).
      destruct (step_task_ok i0 batch calls t0 s HT Happ Hok0)
        as (_ & _ & _ & _ & _ & Hpred & _).
      destruct (step_task t0 s) as [t0' s'] eqn:Hstep. simpl in *.
      rewrite Hnc in Ht.
      eapply (IH _ _ s' Hok'); [|done].
      intros j tj Hj. destruct (decide (i0 = j)) as [->|Hne].
      * rewrite list_lookup_insert_eq in Hj by (by eapply lookup_lt_Some).
        injection Hj as <-. pose proof (Htodo j t0 Ht0) as Hle.
        rewrite visits_cons in Hle. rewrite decide_True in Hle by done. lia.
      * rewrite list_lookup_insert_ne in Hj by done.
        pose proof (Htodo j tj Hj) as Hle.
        rewrite visits_cons in Hle. rewrite decide_False in Hle by done. lia.
    + eapply (IH _ _ s Hok); [|done].
      intros j tj Hj. pose proof (Htodo j tj Hj) as Hle.
      rewrite visits_cons in Hle.
      rewrite decide_False in Hle by (intros ->; congruence). lia.
Qed.

Lemma todo_remaining tasks (i : nat) t :
  tasks !! i = Some t →
  (todo t ≤ visits i (Main.remaining_schedule tasks))%nat.
Proof.
  intros Ht. unfold Main.remaining_schedule.
  rewrite visits_rounds by (by eapply lookup_lt_Some).
  assert (length (Main.pending t)
          ≤ max_list ((length ∘ Main.pending) <$> tasks))%nat.
  { apply max_list_elem_of_le, list_elem_of_fmap. exists t.
    split; [done|]. by eapply list_elem_of_lookup_2. }
  unfold Main.todo. destruct (Main.status t); lia.
Qed.

Lemma gather_returned tasks :
  (∀ i t, tasks !! i = Some t → Main.status t = Main.Returned) →
  Main.gather tasks = Ok (Main.used_invites <$> tasks).
Proof.
  induction tasks as [|t tasks IH]; intros Hall; [done|].
  unfold Main.gather. cbn [foldr]. fold (Main.gather tasks).
  rewrite (Hall 0%nat t) by done.
  rewrite IH; [done|]. intros i t' Ht'. by apply (Hall (S i)).
Qed.

(** Every call belongs to one batch: counting per batch and adding up
    counts every call once. *)
Lemma sum_count_consumed (n : nat) calls :
  Forall (λ c, (Main.in_batch c < n)%nat) calls →
  sum_list ((λ b, Main.count_consumed (calls_of b calls)) <$> seq 0 n)
  = Main.count_consumed calls.
Proof.
  induction 1 as [|c calls Hc _ IH].
  { induction (seq 0 n) as [|b bs IHb]; [done|]. simpl in *. exact IHb. }
  assert (∀ l : list nat,
            sum_list ((λ b, Main.count_consumed (calls_of b (c :: calls))) <$> l)
            = (sum_list ((λ b, if decide (Main.in_batch c = b)
                               then Main.count_consumed [c] else 0%nat) <$> l)
               + sum_list ((λ b, Main.count_consumed (calls_of b calls)) <$> l))%nat)
    as Hsplit.
  { induction l as [|b bs IHb]; [done|]. cbn [fmap list_fmap sum_list].
    fold (@fmap list _ nat nat). rewrite IHb. unfold id.
    assert (Main.count_consumed (calls_of b (c :: calls))
            = ((if decide (Main.in_batch c = b) then Main.count_consumed [c] else 0)
               + Main.count_consumed (calls_of b calls))%nat) as ->; [|lia].
    unfold Main.calls_of. destruct (decide (Main.in_batch c = b)) as [Hb|Hb].
    - rewrite filter_cons_True by done.
      change (c :: filter (λ c0, Main.in_batch c0 = b) calls)
        with ([c] ++ filter (λ c0, Main.in_batch c0 = b) calls).
      by rewrite count_consumed_app.
    - by rewrite filter_cons_False. }
  rewrite Hsplit, IH.
  change (c :: calls) with ([c] ++ calls). rewrite count_consumed_app. f_equal.
  assert (∀ a m, sum_list ((λ b, if decide (Main.in_batch c = b)
                                 then Main.count_consumed [c] else 0%nat)
                             <$> seq a m)
                 = if decide (a ≤ Main.in_batch c < a + m)%nat
                   then Main.count_consumed [c] else 0%nat) as Hone.
  { intros a m. revert a. induction m as [|m IHm]; intros a.
    - simpl. by case_decide; [lia|].
    - cbn [seq fmap list_fmap sum_list]. fold (@fmap list _ nat nat).
      rewrite IHm. unfold id. repeat case_decide; lia. }
  rewrite Hone. rewrite decide_True by lia. done.
Qed.

Lemma run_schedule_nil schedule s : run_schedule schedule [] s = ([], s).
Proof. induction schedule as [|i rest IH]; [done|]. simpl. apply IH. Qed.

Lemma distribute_zero {A} (data : list A) batches :
  Batches.distribute 0 data = Ok batches → batches = [].
Proof.
  unfold Batches.distribute. destruct data as [|d data].
  - by intros [= <-].
  - cbn [Batches.distribute_from]. unfold Batches.append_to_batch.
    by destruct (decide (0 = 0)).
Qed.

Lemma run_tasks_spec schedule batches s :
  THREADS_NUM ≠ 0 ∨ batches = [] → appends_succeed →
  ∃ tasks s' xs calls,
    run_tasks schedule batches s = (tasks, s')
    ∧ run_stretches xs s = (Ok calls, s')
    ∧ tasks_ok batches calls tasks
    ∧ ∀ i t, tasks !! i = Some t → Main.status t = Main.Returned.
Proof.
  intros [HT| ->] Happ.
  - unfold Main.run_tasks.
    destruct (run_schedule_ok schedule batches [] _ s HT Happ (tasks_ok_create batches))
      as (xs1 & calls1 & Hrun1 & Hok1).
    destruct (run_schedule schedule (imap Main.create_task batches) s)
      as [tasks1 s1]. simpl in Hrun1, Hok1.
    rewrite (tasks_ok_none_crashed batches _ tasks1 Hok1).
    destruct (run_schedule_ok (Main.remaining_schedule tasks1) batches _ tasks1 s1
                HT Happ Hok1) as (xs2 & calls2 & Hrun2 & Hok2).
    pose proof (run_schedule_done (Main.remaining_schedule tasks1) batches _ tasks1 s1
                  HT Happ Hok1 (todo_remaining tasks1)) as Hdone.
    destruct (run_schedule (Main.remaining_schedule tasks1) tasks1 s1)
      as [tasks2 s2]. simpl in *.
    exists tasks2, s2, (xs1 ++ xs2), (calls1 ++ calls2).
    split; [done|]. split; [by rewrite run_stretches_app, Hrun1, Hrun2|].
    split; [done|]. done.
  - exists [], s, [], []. unfold Main.run_tasks. simpl. rewrite run_schedule_nil.
    split; [by rewrite run_schedule_nil|]. split; [done|].
    split; [by repeat split|]. done.
Qed.

(** C2 (amended).  The orchestrator on the batches [get_batches] made,
    under any interleaving [schedule] of its tasks, when appending to
    logs/errors.txt does not raise.  [process] returns one count per
    batch, and the run is a sequence of stretches - the staggered start
    of a task, or one pass through the loop body of [process_batch],
    which calls [async_func] - that leaves exactly the state [process]
    leaves.  In it every account of every batch is handed to
    [async_func] exactly once, the accounts of one batch in the order
    of the batch, whatever the calls before it came to.  A batch's
    count is the number of its calls that returned a result with
    [invite_used], and the counts add up to the number of such calls
    over all batches.  The loop body never raises: it returns what
    [async_func] returned, or catches what it raised after logging it
    at ERROR level with the account's index and the first line of the
    message; when [async_func] only adds to what the run has left
    behind, every exception caught has its ERROR line in what the run
    leaves. *)
Theorem process_isolates_failures (data : list Main.account_entry)
    (schedule : list nat) (batches : list (list Main.account_entry)) s :
  Batches.distribute THREADS_NUM data = Ok batches →
  appends_succeed →
  ∃ xs calls counts s',
    process schedule batches s = (Ok counts, s')
    ∧ run_stretches xs s = (Ok calls, s')
    ∧ length counts = length batches
    ∧ (∀ b batch, batches !! b = Some batch →
         (λ c, (Main.at_index c, Main.account c)) <$> calls_of b calls
         = imap pair batch
         ∧ counts !! b = Some (Main.count_consumed (calls_of b calls)))
    ∧ sum_list counts = Main.count_consumed calls
    ∧ (keeps_trace →
       ∃ new, trace s' = trace s ++ new
              ∧ ∀ c e, c ∈ calls → Main.outcome c = Raise e →
                       error_logged (Main.account c) e new)
    ∧ (∀ (idx : nat) d s0,
         match async_func d (after_pause idx s0) with
         | (Ok r, s1) => process_one idx d s0 = (Ok (Ok r), s1)
         | (Raise e, s1) =>
             ∃ line more s2 new,
               splitlines (Main.error_text e) = line :: more
               ∧ process_one idx d s0 = (Ok (Raise e), s2)
               ∧ invites s2 = invites s1
               ∧ trace s2
                 = trace s1
                   ++ EvLog ERROR (pretty d.1 +:+ ") Process account error: "
                                   +:+ line) :: new
         end).
Proof.
  intros Hbatches Happ.
  destruct (run_tasks_spec schedule batches s)
    as (tasks & s' & xs & calls & Hrun & Hxs & Hok & Hdone); [|done|].
  { destruct (decide (THREADS_NUM = 0)) as [HT|HT]; [|by left].
    right. rewrite HT in Hbatches. by eapply distribute_zero. }
  destruct Hok as (Hlen & Hin & Hall).
  assert (∀ b batch, batches !! b = Some batch →
            (λ c, (Main.at_index c, Main.account c)) <$> calls_of b calls
            = imap pair batch
            ∧ (Main.used_invites <$> tasks) !! b
              = Some (Main.count_consumed (calls_of b calls))) as Hper.
  { intros b batch Hb.
    destruct (lookup_lt_is_Some_2 tasks b) as [t Ht].
    { rewrite Hlen. by eapply lookup_lt_Some. }
    destruct (Hall b batch t Hb Ht) as (_ & Hpos & Hpend & Hcalls & Hused & _ & Hret).
    rewrite (Hret (Hdone b t Ht)) in Hpend. symmetry in Hpend.
    apply drop_nil_inv in Hpend.
    rewrite take_ge in Hcalls by done. split; [done|].
    by rewrite list_lookup_fmap, Ht, <- Hused. }
  exists xs, calls, (Main.used_invites <$> tasks), s'.
  split. { unfold Main.process. rewrite Hrun. by rewrite gather_returned. }
  split; [done|]. split; [by rewrite length_fmap|]. split; [done|]. split.
  { rewrite <- (sum_count_consumed (length batches) calls Hin). f_equal.
    apply list_eq. intros b.
    rewrite (list_lookup_fmap _ (seq 0 (length batches))).
    destruct (decide (b < length batches)%nat) as [Hlt|Hge].
    - destruct (lookup_lt_is_Some_2 batches b Hlt) as [batch Hb].
      destruct (Hper b batch Hb) as [_ ->].
      by rewrite lookup_seq_lt.
    - rewrite (lookup_ge_None_2 (Main.used_invites <$> tasks))
        by (rewrite length_fmap; lia).
      by rewrite lookup_seq_ge by lia. }
  split; [intros Hkeep; by eapply run_stretches_trace|].
  intros idx d s0. by apply process_one_returns.
Qed.

End OrchestratorFacts.

(** * Concrete runs *)

Section Examples.
Import Samples.

(** ** Batches *)

Example distribute_seven :
  Batches.distribute 3 [1; 2; 3; 4; 5; 6; 7]%nat
  = Ok [[1; 4; 7]; [2; 5]; [3; 6]]%nat.
Proof. reflexivity. Qed.

Example distribute_no_threads :
  Batches.distribute 0 [1; 2]%nat
  = Raise (Exn ZeroDivisionError "integer modulo by zero").
Proof. reflexivity. Qed.

Lemma get_batches_round_robin_partition_witness :
  1 ≤ 3 ∧
  ∃ bs, Batches.distribute 3 [1; 2; 3; 4; 5; 6; 7]%nat = Ok bs
    ∧ length bs = Z.to_nat 3
    ∧ (∀ (i : nat) d, [1; 2; 3; 4; 5; 6; 7]%nat !! i = Some d →
         ∃ b, bs !! (i `mod` Z.to_nat 3)%nat = Some b
              ∧ b !! (i `div` Z.to_nat 3)%nat = Some d)
    ∧ concat bs ≡ₚ [1; 2; 3; 4; 5; 6; 7]%nat.
Proof.
  split; [lia|].
  apply (get_batches_round_robin_partition 3 [1; 2; 3; 4; 5; 6; 7]%nat). lia.
Defined.

(** ** The invite pool *)

(** C3 as stated fails on a queue that holds a code twice: two
    consecutive calls return the same code.  (The pool is filled from
    invites.txt and from refreshed profiles, neither deduplicated.) *)
Lemma get_invite_twice_same_code :
  ∃ s1 s2,
    Invites.get_invite (pool ["A"; "A"]) = (Ok (Some "A"), s1)
    ∧ Invites.get_invite s1 = (Ok (Some "A"), s2).
Proof. eexists _, _. split; reflexivity. Qed.

Lemma get_invite_destructive_witness :
  NoDup (invites (pool ["A"; "B"]))
  ∧ (Invites.get_invite (pool ["A"; "B"])).1 = Ok (Some "A")
  ∧ (Invites.get_invite (Invites.get_invite (pool ["A"; "B"])).2).1
    ≠ Ok (Some "A").
Proof.
  assert (NoDup (invites (pool ["A"; "B"]))) as Hnd.
  { simpl. apply NoDup_cons. split; [|apply NoDup_singleton].
    intros H. apply list_elem_of_singleton in H. discriminate H. }
  split; [exact Hnd|]. split; [reflexivity|].
  destruct (get_invite_destructive (pool ["A"; "B"])) as (_ & _ & Hdistinct).
  eapply (Hdistinct Hnd _ _ _ _ "A"); reflexivity.
Defined.

Lemma update_invites_nonempty_noop_witness :
  4 ≠ 0 ∧ invites (pool ["A"]) ≠ [] ∧
  Invites.update_invites (30, 60) 4 (Invites.FirstCount 10) false ["0x1"]
    (λ _ _ w, (Ok (Some ["NEW"]), w)) (λ l w, (l, w)) (λ l w, (l, w)) (pool ["A"])
  = (Ok tt, RunState ["A"] tt [EvSleep (Quotient 30 4)]).
Proof.
  split; [lia|]. split; [discriminate|].
  apply (update_invites_nonempty_noop (30, 60) 4 (Invites.FirstCount 10) false
           ["0x1"] (λ _ _ w, (Ok (Some ["NEW"]), w)) (λ l w, (l, w))
           (λ l w, (l, w)) (pool ["A"])); [lia|discriminate].
Defined.

Example update_invites_empty_refills :
  (Invites.update_invites (30, 60) 4 (Invites.FirstCount 10) false ["0x1"]
     (λ _ _ w, (Ok (Some ["NEW"]), w)) (λ l w, (l, w)) (λ l w, (l, w)) s0).2
  = RunState ["NEW"] tt
      [EvPrint; EvLog INFO "Updating invites"; EvCall "refresh";
       EvLog INFO "Updating invites 1) Added new 1";
       EvLog SUCCESS "Invites updated: 1 new
"].
Proof. reflexivity. Qed.

(** ** The transaction lifecycle *)

(** C5 as stated fails when the refresh itself fails: gas estimation
    has failed, yet the error that reaches the caller is the platform's,
    not "Tx simulation failed". *)
Lemma simulation_failure_masked_by_refresh_failure :
  (attempt0 false (account0 (Some "0xA") (Some "key"), s0)).1 = Raise unavailable
  ∧ unavailable ≠ Exn PlainException ("Tx simulation failed: " +:+ str_of_exn reverted).
Proof. split; [reflexivity|discriminate]. Qed.

Lemma simulation_failure_refresh_then_raise_witness :
  ∃ st', attempt0 true (account0 (Some "0xA") (Some "key"), s0)
         = (Raise (Exn PlainException "Tx simulation failed: execution reverted"), st')
         ∧ count_calls "well3.generate_codes" (trace st'.2) = 1%nat.
Proof.
  destruct (simulation_failure_refresh_then_raise
              (W:=unit) (F:=unit) "breathe"
              (λ w, (Ok tt, w)) (λ w, (Ok (profile0 (Some "0xA")), w))
              (λ _ w, (Ok 7, w)) (λ _ _ _ _ w, (Ok tx0, w))
              (λ _ w, (Raise reverted, w)) (λ _ _, Ok "signed")
              (λ _ w, (Ok "0xhash", w))
              tt (account0 (Some "0xA") (Some "key")) s0
              "key" (profile0 (Some "0xA")) 7 tx0 reverted tt tt tt
              eq_refl eq_refl eq_refl eq_refl eq_refl)
    as (err & st' & new & Hrun & Htrace & Hcount & _ & _ & Hlinked & _).
  destruct (Hlinked eq_refl) as [-> ->].
  eexists. split; [exact Hrun|reflexivity].
Defined.

(** Under a policy that retries plain exceptions (as §4.3 asks for a
    failed simulation) a call without a key is attempted three times;
    under one that designates them do-not-retry, once. *)
Lemma missing_key_is_retried :
  send0 policy3 (account0 None None, s0)
  = (Raise (Exn PlainException "No private key specified"),
     (account0 None None,
      RunState [] tt
        [EvLog WARNING "Retry: No private key specified"; EvSleep (Seconds 1);
         EvLog WARNING "Retry: No private key specified"; EvSleep (Seconds 1);
         EvLog WARNING "Retry: No private key specified"])).
Proof. reflexivity. Qed.

Example missing_key_not_retried :
  send0 {| Account.max_tries := 3;
           Account.do_not_retry :=
             λ c, match c with PlainException => true | _ => false end;
           Account.backoff := λ _, Seconds 1 |} (account0 None None, s0)
  = (Raise (Exn PlainException "No private key specified"),
     (account0 None None,
      RunState [] tt [EvLog WARNING "Retry: No private key specified"])).
Proof. reflexivity. Qed.

Lemma missing_key_fails_like_any_exception_witness :
  Account.private_key (account0 None None) = None
  ∧ ∃ new,
      send0 policy3 (account0 None None, s0)
      = (Raise (Exn PlainException "No private key specified"),
         (account0 None None, add_trace new s0))
      ∧ length (filter is_warning new) = 3%nat.
Proof.
  split; [reflexivity|].
  destruct (missing_key_fails_like_any_exception (W:=unit) (F:=unit) "breathe"
              (λ w, (Ok tt, w)) (λ w, (Ok (profile0 (Some "0xA")), w))
              (λ _ w, (Ok 7, w)) (λ _ _ _ _ w, (Ok tx0, w))
              (λ _ w, (Ok 21000, w)) (λ _ _, Ok "signed") (λ _ w, (Ok "0xhash", w))
              policy3 tt (account0 None None) s0 eq_refl)
    as (new & Hrun & _ & Hwarn).
  exists new. split; [exact Hrun|exact Hwarn].
Defined.

Example send_with_key :
  (send0 policy3 (account0 (Some "0xA") (Some "key"), s0)).1 = Ok "0xhash".
Proof. reflexivity. Qed.

(** Confirmation against a chain that never produces a receipt. *)
Lemma tx_verification_outcomes_witness :
  (151 ≤ 151)%nat
  ∧ (Account.tx_verification (W:=unit) "https://scan" "0xtopic" [] (λ t _, t)
       (λ _ w, (Ok None, w)) 151 (account0 None (Some "key")) "0xhash"
       "Claim daily insight" 1 s0).1 = Ok (Some tt).
Proof.
  split; [lia|].
  destruct (tx_verification_outcomes (W:=unit) "https://scan" "0xtopic" []
              (λ t _, t) (λ _ w, (Ok None, w)) 151 (account0 None (Some "key"))
              "0xhash" "Claim daily insight" s0 (le_n 151)) as [Hpending _].
  rewrite Hpending; [reflexivity|]. intros k _. left. reflexivity.
Defined.

Example tx_verification_failed_receipt :
  (Account.tx_verification (W:=nat) "https://scan" "0xtopic" [] (λ t _, t)
     (λ _ w, (if decide (w = 2)%nat
              then Ok (Some {| Account.status := Some 0; Account.logs := None |})
              else Raise (Exn TransactionNotFound "not found"), S w))
     151 (account0 None (Some "key")) "0xhash" "Claim" 1 (RunState [] 0%nat []))
  = (Ok (Some tt),
     RunState [] 3%nat
       [EvLog INFO "1) Claim - Tx sent";
        EvCall "eth.get_transaction_receipt"; EvSleep (Seconds 1);
        EvCall "eth.get_transaction_receipt"; EvSleep (Seconds 1);
        EvCall "eth.get_transaction_receipt";
        EvLog ERROR "1) Claim - Failed tx: https://scan/tx/0xhash"]).
Proof. reflexivity. Qed.

(** ** Signing in *)



Example invite_loop_skips_used_code :
  Main.invite_loop true refill0 redeem0 5 (entry 1) (pool ["USED"; "GOOD"; "NEXT"])
  = (Ok (Some true),
     RunState ["NEXT"] tt
       [EvLog INFO "1) Entering invite code: USED";
        EvCall "well3.use_invite_code";
        EvLog INFO "1) Code already used. Trying another one";
        EvLog INFO "1) Entering invite code: GOOD";
        EvCall "well3.use_invite_code"]).
Proof. reflexivity. Qed.

(** ** The orchestrator *)

Example process_three_accounts :
  (process0 [1; 0; 1; 1; 0]%nat [[entry 1; entry 3]; [entry 2]] s0).1 = Ok [2; 0]%nat.
Proof. reflexivity. Qed.

(** C2 as stated fails when the handler cannot append to
    logs/errors.txt.  One worker, accounts 1 and 2 in its batch, no
    directory logs/: account 1 raises an exception whose message has two
    lines, the handler logs the first and opens the file, and the
    FileNotFoundError of [aiofiles.open] leaves [process_batch] and
    [process].  Account 2 is never handed to [async_func] and no count
    is returned. *)
Lemma append_failure_aborts_batch :
  Batches.distribute 1 [entry 1; entry 2] = Ok [[entry 1; entry 2]]
  ∧ process1 false [] [[entry 1; entry 2]] s0
    = (Raise (Exn FileNotFoundError
                "[Errno 2] No such file or directory: 'logs/errors.txt'"),
       RunState [] tt
         [EvSleep (QuotientTimes 30 1 0);
          EvLog INFO "1) Signing in";
          EvLog ERROR "1) Process account error: Sign in failed";
          EvCall "aiofiles.open"]).
Proof. split; reflexivity. Qed.

(** The same run with a directory logs/: account 2 is processed. *)
Example append_success_goes_on :
  process1 true [] [[entry 1; entry 2]] s0
  = (Ok [1%nat],
     RunState [] tt
       [EvSleep (QuotientTimes 30 1 0);
        EvLog INFO "1) Signing in";
        EvLog ERROR "1) Process account error: Sign in failed";
        EvCall "aiofiles.open"; EvCall "file.write";
        EvAppendFile "logs/errors.txt"
          "2024-01-01 00:00:00 | 1) Process account error: Sign in failed
<html>502</html>";
        EvSleep (Uniform 30 60);
        EvLog INFO "2) Signing in"]).
Proof. reflexivity. Qed.

Lemma process_isolates_failures_witness :
  Batches.distribute 1 [entry 1; entry 2] = Ok [[entry 1; entry 2]]
  ∧ Main.appends_succeed open_ok write_ok
  ∧ ∃ xs calls s',
      process1 true [] [[entry 1; entry 2]] s0 = (Ok [1%nat], s')
      ∧ Main.run_stretches (30, 60) 1 (λ _, "2024-01-01 00:00:00") open_ok write_ok
          async1 true xs s0 = (Ok calls, s')
      ∧ (λ c, (Main.at_index c, Main.account c)) <$> Main.calls_of 0 calls
        = [(0%nat, entry 1); (1%nat, entry 2)]
      ∧ Main.count_consumed calls = 1%nat.
Proof.
  assert (Main.appends_succeed open_ok write_ok) as Happ.
  { split; [intros w|intros text w]; exists w; reflexivity. }
  split; [reflexivity|]. split; [exact Happ|].
  destruct (process_isolates_failures (W:=unit) (30, 60) 1
              (λ _, "2024-01-01 00:00:00") open_ok write_ok async1 true
              [entry 1; entry 2] [] [[entry 1; entry 2]] s0 eq_refl Happ)
    as (xs & calls & counts & s' & Hprocess & Hrun & _ & Hper & Hsum & _).
  destruct (Hper 0%nat [entry 1; entry 2] eq_refl) as [Hcalls _].
  assert (Main.process (30, 60) 1 (λ _ : unit, "2024-01-01 00:00:00") open_ok
            write_ok async1 true [] [[entry 1; entry 2]] s0
          = (Ok [1%nat], (process1 true [] [[entry 1; entry 2]] s0).2)) as Hc
    by reflexivity.
  rewrite Hprocess in Hc. injection Hc as Hcounts Hs'. subst counts.
  exists xs, calls, s'. split; [exact Hprocess|]. split; [exact Hrun|].
  split; [exact Hcalls|]. rewrite <- Hsum. reflexivity.
Defined.

(** ** The store *)

Lemma store1_wf : Storage.wf store1 heap1.
Proof.
  intros addr l Hl. unfold store1 in Hl. cbn [Storage.data] in Hl.
  apply lookup_singleton_Some in Hl as [<- <-]. eexists. reflexivity.
Defined.

Lemma from_to_dict_json (v : Storage.account_value) :
  from_dict_json (to_dict_json v) = Ok v.
Proof.
  destruct v as [a p t codes e l pq b d o ins].
  unfold from_dict_json, to_dict_json. cbn -[mapM map_to_list list_to_map].
  rewrite (mapM_fmap_Some as_str JStr codes) by done.
  cbn -[mapM map_to_list list_to_map].
  assert (as_breathe (json_of_breathe b) = Some b) as -> by (by destruct b).
  cbn -[mapM map_to_list list_to_map].
  rewrite (mapM_fmap_Some (λ m, pair m.1 <$> as_int m.2) (prod_map id JInt))
    by (by intros []).
  cbn -[map_to_list list_to_map]. by rewrite list_to_map_to_list.
Qed.

Lemma save_then_init_roundtrip_witness :
  (∀ v, from_dict_json (to_dict_json v) = Ok v)
  ∧ ∃ s' h',
      Storage.init from_dict_json (Storage.new "storage/data.json") ∅
        (Storage.save to_dict_json store1 heap1 ∅) = Ok (s', h')
      ∧ Storage.contents s' h' = Storage.contents store1 heap1.
Proof.
  split; [exact from_to_dict_json|].
  destruct (save_then_init_roundtrip to_dict_json from_dict_json
              from_to_dict_json store1 heap1 ∅ ∅)
    as (s' & h' & Hinit & _ & Hcontents & _).
  exists s', h'. split; [exact Hinit|exact Hcontents].
Defined.

Lemma accessors_work_on_deep_copies_witness :
  Storage.wf store1 heap1
  ∧ ∃ r h',
      Storage.get_account_info store1 "0xA" heap1 = Some (r, h')
      ∧ r ≫= Storage.view h' = Some info0
      ∧ Storage.contents store1 h' = Storage.contents store1 heap1.
Proof.
  split; [exact store1_wf|].
  destruct (accessors_work_on_deep_copies store1 heap1 "0xA" store1_wf)
    as (_ & r & h' & Hget & Hview & Hsame & _).
  exists r, h'. split; [exact Hget|]. split; [|exact Hsame].
  rewrite Hview. reflexivity.
Defined.

(** Were the accessors to hand out [copy.copy] instead: the copy shares
    the list of codes with the store's record, and emptying it through
    the copy empties it in the store. *)
Example shallow_copy_would_share :
  ∃ h',
    Storage.shallowcopy 3%positive heap1 = Some (4%positive, h')
    ∧ Storage.mutates (Storage.footprint h' 4%positive) h'
        (<[1%positive:=Storage.ObjList []]> h')
    ∧ Storage.contents store1 (<[1%positive:=Storage.ObjList []]> h') !! "0xA"
      ≠ Storage.contents store1 h' !! "0xA".
Proof.
  eexists. split; [reflexivity|]. split.
  - intros x Hx. apply lookup_insert_ne. intros <-. apply Hx. by vm_compute.
  - rewrite !contents_lookup. by vm_compute.
Qed.

End Examples.

(** * Further properties of the code *)

(** ** get_batches: shape and edge cases *)

Section BatchShape.
Context {A : Type}.
Implicit Types (data : list A) (bs : list (list A)).

Lemma round_robin_length_of_batch (n : nat) data bs (j : nat) b :
  (0 < n)%nat → Batches.round_robin n data bs → bs !! j = Some b →
  length b = ((length data + n - 1 - j) `div` n)%nat.
Proof.
  intros Hn (Hl & Hlen & _ & _) Hb.
  assert (j < n)%nat as Hj by (apply lookup_lt_Some in Hb; lia).
  pose proof (Hlen _ _ (length b) Hb) as H1.
  pose proof (Hlen _ _ (length b - 1)%nat Hb) as H2.
  set (M := length data) in *. set (lb := length b) in *.
  set (q := ((M + n - 1 - j) `div` n)%nat).
  pose proof (Nat.div_mod_eq (M + n - 1 - j) n) as Hdm.
  pose proof (Nat.mod_upper_bound (M + n - 1 - j) n ltac:(lia)) as Hlt.
  fold q in Hdm.
  set (r := ((M + n - 1 - j) `mod` n)%nat) in *. clearbody q r lb M.
  clear Hlen Hb.
  assert (¬ (lb * n + j < M)%nat) as Hnot by (intros Hc; apply H1 in Hc; lia).
  assert (lb ≠ 0 → (lb - 1) * n + j < M)%nat as Hpos by (intros ?; apply H2; lia).
  clear H1 H2.
  destruct (decide (lb = q)) as [|Hne]; [done|]. exfalso.
  destruct (decide (lb < q)%nat).
  - assert (n * (lb + 1) ≤ n * q)%nat as Hle by (apply Nat.mul_le_mono_l; lia).
    rewrite Nat.mul_add_distr_l, Nat.mul_1_r, (Nat.mul_comm n lb) in Hle. lia.
  - assert (n * (q + 1) ≤ n * (lb - 1 + 1))%nat as Hle by (apply Nat.mul_le_mono_l; lia).
    rewrite !Nat.mul_add_distr_l, !Nat.mul_1_r, (Nat.mul_comm n (lb - 1)) in Hle.
    assert (lb ≠ 0)%nat as H0 by lia. specialize (Hpos H0). lia.
Qed.

(** X1.  The batches [get_batches] builds for [N >= 1] workers are
    balanced: batch [j] holds ceil((M - j) / N) of the [M] accounts, so
    an earlier batch is never shorter than a later one and no two batches
    differ in length by more than one account. *)
Theorem batch_sizes_balanced (N : Z) data bs :
  1 ≤ N → Batches.distribute N data = Ok bs →
  (∀ (j : nat) b, bs !! j = Some b →
     length b = ((length data + Z.to_nat N - 1 - j) `div` Z.to_nat N)%nat)
  ∧ (∀ (j k : nat) b c, (j ≤ k)%nat → bs !! j = Some b → bs !! k = Some c →
       (length c ≤ length b ≤ length c + 1)%nat).
Proof.
  intros HN Hrun.
  destruct (distribute_round_robin N data HN) as (bs' & Hrun' & Hrr).
  rewrite Hrun in Hrun'. injection Hrun' as <-.
  assert (0 < Z.to_nat N)%nat as Hn by lia.
  assert (∀ (j : nat) b, bs !! j = Some b →
     length b = ((length data + Z.to_nat N - 1 - j) `div` Z.to_nat N)%nat) as Hlen.
  { intros j b. by apply round_robin_length_of_batch. }
  split; [done|].
  intros j k b c Hjk Hb Hc.
  assert (k < Z.to_nat N)%nat as Hk.
  { apply lookup_lt_Some in Hc. destruct Hrr as [Hl _]. lia. }
  rewrite (Hlen _ _ Hb), (Hlen _ _ Hc).
  set (n := Z.to_nat N) in *. set (M := length data). clearbody n M.
  split.
  - apply Nat.Div0.div_le_mono. lia.
  - replace (((M + n - 1 - k) `div` n) + 1)%nat
      with ((M + n - 1 - k + 1 * n) `div` n)%nat
      by (rewrite Nat.div_add by lia; lia).
    apply Nat.Div0.div_le_mono. lia.
Qed.

(** X2.  With [THREADS_NUM <= 0] there is no batch to append to: the
    loop of [get_batches] returns the empty list of batches for an empty
    account list and raises on the first account of any other -
    ZeroDivisionError when [THREADS_NUM] is 0, IndexError when it is
    negative. *)
Theorem distribute_without_threads (N : Z) (d : A) data :
  N ≤ 0 →
  Batches.distribute N ([] : list A) = Ok []
  ∧ Batches.distribute N (d :: data)
    = Raise (if decide (N = 0)
             then Exn ZeroDivisionError "integer modulo by zero"
             else Exn IndexError "list index out of range").
Proof.
  intros HN. unfold Batches.distribute.
  replace (Z.to_nat N) with 0%nat by lia. simpl. split; [done|].
  unfold Batches.append_to_batch.
  destruct (decide (N = 0)) as [|Hne]; [done|].
  unfold py_index. simpl.
  repeat case_decide; try done; lia.
Qed.
End BatchShape.

Lemma batch_sizes_balanced_witness :
  1 ≤ 3
  ∧ Batches.distribute 3 [1; 2; 3; 4; 5; 6; 7]%nat = Ok [[1; 4; 7]; [2; 5]; [3; 6]]%nat
  ∧ ∀ (j : nat) b, [[1; 4; 7]; [2; 5]; [3; 6]]%nat !! j = Some b →
      length b = ((7 + 3 - 1 - j) `div` 3)%nat.
Proof.
  split; [lia|]. split; [reflexivity|].
  apply (batch_sizes_balanced 3 [1; 2; 3; 4; 5; 6; 7]%nat
           [[1; 4; 7]; [2; 5]; [3; 6]]%nat); [lia|reflexivity].
Defined.

Lemma distribute_without_threads_witness :
  -2 ≤ 0
  ∧ Batches.distribute (-2) ([] : list nat) = Ok []
  ∧ Batches.distribute (-2) [1; 2]%nat
    = Raise (Exn IndexError "list index out of range").
Proof.
  split; [lia|].
  apply (distribute_without_threads (-2) 1%nat [2%nat]). lia.
Defined.
Section BatchData.
Variables (wallets proxies twitters : list string).

(** X3.  [get_batches(skip=k)] with [k >= 0] and nothing in [want_only]
    leaves out the first [k] accounts and keeps the numbering of the
    others: the entry at position [i] of what is distributed is account
    [k + i] of the zipped input, under its 1-based index [k + i + 1]. *)
Theorem skip_keeps_numbering (k : Z) (i : nat) (d : nat * Batches.account_data) :
  0 ≤ k →
  Batches.batch_data wallets proxies twitters [] (Some k) !! i = Some d
  ↔ Batches.zip_accounts wallets proxies twitters !! (Z.to_nat k + i)%nat = Some d.2
    ∧ d.1 = (Z.to_nat k + i + 1)%nat.
Proof.
  intros Hk. unfold Batches.batch_data, py_slice_from, enumerate1.
  destruct (decide (0 ≤ k)) as [_|]; [|lia].
  rewrite lookup_drop, list_lookup_imap.
  destruct (Batches.zip_accounts wallets proxies twitters !! (Z.to_nat k + i)%nat)
    as [a|]; simpl.
  - destruct d as [n a']. simpl. split.
    + intros [= <- <-]. split; [done|lia].
    + intros [[= ->] ->]. do 2 f_equal. lia.
  - split; [done|]. by intros [? _].
Qed.

(** X4.  With an empty proxy list [zip(wallets, cycle(proxies),
    twitters)] is empty, so [get_batches] returns [THREADS_NUM] empty
    batches whatever the wallets, [skip] and [want_only] are: no account
    is processed. *)
Theorem no_proxies_no_accounts (want_only : list nat) (N : Z) (skip : option Z) :
  Batches.get_batches wallets [] twitters want_only N skip
  = Ok (replicate (Z.to_nat N) []).
Proof.
  unfold Batches.get_batches, Batches.batch_data. simpl.
  destruct skip as [s|]; [|done].
  unfold py_slice_from. simpl.
  destruct want_only; [|done].
  unfold enumerate1. simpl. by destruct (decide (0 ≤ s)); rewrite drop_nil.
Qed.
End BatchData.

Lemma skip_keeps_numbering_witness :
  0 ≤ 1
  ∧ Batches.batch_data ["w1"; "w2"; "w3"] ["p1"; "p2"] ["t1"; "t2"; "t3"] []
      (Some 1) !! 1%nat
    = Some (3%nat, ("w3", "p1", "t3")).
Proof.
  split; [lia|].
  apply (skip_keeps_numbering ["w1"; "w2"; "w3"] ["p1"; "p2"] ["t1"; "t2"; "t3"]
           1 1%nat (3%nat, ("w3", "p1", "t3"))); [lia|].
  split; reflexivity.
Defined.

(** ** The store: removal, copies, loading *)

Section StoreFacts.
Import Storage.
Implicit Types (s : storage) (h : heap).

(** X5.  [remove(address)] deletes the entry of that address and no
    other; a following [get_final_account_info] of the address returns
    [None] without allocating anything; for an address the store does not
    hold, [remove] changes nothing (and raises nothing). *)
Theorem remove_deletes_entry s h addr :
  contents (remove s addr) h = delete addr (contents s h)
  ∧ filename (remove s addr) = filename s
  ∧ get_final_account_info (remove s addr) addr h = Some (None, h)
  ∧ (data s !! addr = None → remove s addr = s).
Proof.
  unfold remove, get_final_account_info, contents.
  destruct (data s !! addr) as [l|] eqn:Hl; simpl.
  - rewrite lookup_delete_eq. split; [|done]. apply omap_delete.
  - rewrite Hl. split; [|done].
    symmetry. apply delete_id. by rewrite lookup_omap, Hl.
Qed.

(** X6.  [set_final_account_info(addr, info)] followed by
    [get_final_account_info(addr)] involves three distinct objects: the
    caller's [info], the copy the store keeps (new when it is stored) and
    the copy the getter hands out (new when it is returned); all three
    read as the same record. *)
Theorem set_then_get_returns_equal_copy s h addr info v :
  view h info = Some v →
  ∃ s' h' stored c h'',
    set_final_account_info s addr info h = Some (s', h')
    ∧ data s' !! addr = Some stored
    ∧ get_final_account_info s' addr h' = Some (Some c, h'')
    ∧ view h'' c = Some v
    ∧ view h'' stored = Some v
    ∧ view h'' info = Some v
    ∧ h !! stored = None ∧ h' !! c = None
    ∧ stored ≠ info ∧ c ≠ info ∧ c ≠ stored.
Proof.
  intros Hv.
  destruct (deepcopy_spec h info v Hv) as (st & h' & Hcopy & Hsub & Hst & Hfresh).
  destruct (deepcopy_spec h' st v Hst) as (c & h'' & Hcopy' & Hsub' & Hc & Hfresh').
  exists {| filename := filename s; data := <[addr:=st]> (data s) |}, h', st, c, h''.
  unfold set_final_account_info, get_final_account_info.
  rewrite Hcopy. simpl. rewrite lookup_insert_eq, Hcopy'. simpl.
  assert (st ∈ footprint h' st) as Hstf.
  { unfold footprint. destruct (h' !! st) as [[]|]; set_solver. }
  assert (c ∈ footprint h'' c) as Hcf.
  { unfold footprint. destruct (h'' !! c) as [[]|]; set_solver. }
  pose proof (Hfresh _ Hstf) as Hst0. pose proof (Hfresh' _ Hcf) as Hc0.
  assert (is_Some (h !! info)) as [o Ho].
  { unfold view in Hv. destruct (h !! info); [eauto|done]. }
  assert (is_Some (h' !! st)) as [o' Ho'].
  { unfold view in Hst. destruct (h' !! st); [eauto|done]. }
  repeat split; try done.
  - by eapply view_weaken.
  - eapply view_weaken; [done|]. by eapply view_weaken.
  - intros ->. congruence.
  - intros ->. apply (lookup_weaken _ _ _ _ Ho) in Hsub. congruence.
  - intros ->. congruence.
Qed.
End StoreFacts.
Lemma remove_deletes_entry_witness :
  Storage.data Samples.store1 !! "0xB" = None
  ∧ Storage.remove Samples.store1 "0xB" = Samples.store1.
Proof.
  split; [reflexivity|].
  destruct (remove_deletes_entry Samples.store1 Samples.heap1 "0xB")
    as (_ & _ & _ & Hsame).
  apply Hsame. reflexivity.
Defined.

Lemma set_then_get_returns_equal_copy_witness :
  Storage.view Samples.heap1 3%positive = Some Samples.info0
  ∧ ∃ s' h' c h'',
      Storage.set_final_account_info Samples.store1 "0xB" 3%positive Samples.heap1
      = Some (s', h')
      ∧ Storage.get_final_account_info s' "0xB" h' = Some (Some c, h'')
      ∧ Storage.view h'' c = Some Samples.info0
      ∧ c ≠ 3%positive.
Proof.
  split; [reflexivity|].
  destruct (set_then_get_returns_equal_copy Samples.store1 Samples.heap1 "0xB"
              3%positive Samples.info0 eq_refl)
    as (s' & h' & stored & c & h'' & Hset & _ & Hget & Hc & _ & _ & _ & _ & _ & Hne & _).
  exists s', h', c, h''. split; [exact Hset|]. split; [exact Hget|].
  split; [exact Hc|exact Hne].
Defined.

Section LoadFacts.
Import Storage.
Context {J : Type}.
Variable to_dict : account_value → J.
Variable from_dict : J → result account_value.

Lemma load_items_rejects (items : list (string * J)) (acc : gmap string loc)
    (h : heap) a i e :
  (a, i) ∈ items → from_dict i = Raise e →
  ∃ e', load_items from_dict items acc h = Raise e'.
Proof.
  revert acc h. induction items as [|[a' i'] items IH]; intros acc h Hin He.
  - by apply elem_of_nil in Hin.
  - cbn [load_items]. destruct (from_dict i') as [v|e'] eqn:Hi'; [|eauto].
    destruct (alloc_account v h) as [l h1]. apply IH; [|done].
    apply elem_of_cons in Hin as [[= -> ->]|]; [congruence|done].
Qed.

(** X7.  [init] succeeds exactly when the snapshot file exists and is
    either blank or a JSON object each of whose members
    [AccountInfo.from_dict] accepts; a missing file, unparsable text or a
    single rejected record makes the whole call raise. *)
Theorem init_succeeds_iff (s : storage) (h : heap)
    (d : gmap string (file_content J)) :
  (∃ s' h', init from_dict s h d = Ok (s', h'))
  ↔ d !! filename s = Some Blank
    ∨ ∃ members, d !! filename s = Some (JsonObject members)
                 ∧ ∀ a i, members !! a = Some i → ∃ v, from_dict i = Ok v.
Proof.
  unfold init. destruct (d !! filename s) as [[|members|]|] eqn:Hd.
  - split; [by left|eauto].
  - split.
    + intros (s' & h' & Hrun). right. exists members. split; [done|].
      intros a i Hai. destruct (from_dict i) as [v|e] eqn:Hi; [eauto|].
      destruct (load_items_rejects (map_to_list members) ∅ h a i e) as [e' He'];
        [by apply elem_of_map_to_list|done|].
      by rewrite He' in Hrun.
    + intros [[=]|(m & [= <-] & Hok)].
      destruct (load_items_spec from_dict (map_to_list members) ∅ h)
        as (m & h' & -> & _).
      { apply NoDup_fst_map_to_list. }
      { intros a i Hai%elem_of_map_to_list. eauto. }
      eauto.
  - split; [by intros (? & ? & ?)|]. by intros [[=]|(? & [=] & _)].
  - split; [by intros (? & ? & ?)|]. by intros [[=]|(? & [=] & _)].
Qed.

Hypothesis from_to_dict : ∀ v, from_dict (to_dict v) = Ok v.

Lemma save_init_contents (s : storage) (h h0 : heap)
    (d : gmap string (file_content J)) :
  ∃ s' h',
    init from_dict (new (filename s)) h0 (save to_dict s h d) = Ok (s', h')
    ∧ contents s' h' = contents s h.
Proof.
  unfold init, save. simpl. rewrite lookup_insert_eq.
  set (c := contents s h).
  destruct (load_items_spec from_dict (map_to_list (to_dict <$> c)) ∅ h0)
    as (m & h' & -> & _ & Hin & Hout).
  { apply NoDup_fst_map_to_list. }
  { intros a i [v [<- _]]%elem_of_map_to_list%lookup_fmap_Some. eauto. }
  eexists _, h'. split; [done|].
  apply map_eq. intros a. rewrite contents_lookup. simpl.
  destruct (c !! a) as [v|] eqn:Hc.
  - destruct (Hin a (to_dict v)) as (l & v' & -> & Hv' & Hview).
    { apply elem_of_map_to_list. by rewrite lookup_fmap, Hc. }
    rewrite from_to_dict in Hv'. by injection Hv' as <-.
  - rewrite Hout, lookup_empty; [done|].
    intros [[a' i] [Ha' Hai]]%list_elem_of_fmap. simpl in Ha'. subst a'.
    apply elem_of_map_to_list in Hai. by rewrite lookup_fmap, Hc in Hai.
Qed.

(** X8.  Memory and file agree only from one [save] to the next write:
    with [from_dict] undoing [to_dict], a record stored by
    [set_account_info] is in what a new [Storage] loads from the file
    once [save] has run after it, and is not in what it loads from a
    file saved before it. *)
Theorem set_is_durable_after_save (s : storage) (h h0 : heap)
    (d : gmap string (file_content J)) addr info v :
  wf s h → view h info = Some v →
  (∀ x, x ∈ footprint h info → ¬ owns s h x) →
  ∃ s1 h1 s2 h2 s3 h3,
    set_account_info s addr info h = Some (s1, h1)
    ∧ init from_dict (new (filename s)) h0 (save to_dict s1 h1 d) = Ok (s2, h2)
    ∧ contents s2 h2 = <[addr:=v]> (contents s h)
    ∧ init from_dict (new (filename s)) h0 (save to_dict s h d) = Ok (s3, h3)
    ∧ contents s3 h3 = contents s h.
Proof.
  intros Hwf Hv Hsep.
  destruct (set_account_info_spec s h addr info v Hwf Hv Hsep)
    as (s1 & h1 & Hset & Hc1 & _).
  destruct (save_init_contents s1 h1 h0 d) as (s2 & h2 & Hinit & Hc2).
  destruct (save_init_contents s h h0 d) as (s3 & h3 & Hinit3 & Hc3).
  exists s1, h1, s2, h2, s3, h3.
  assert (filename s1 = filename s) as Hf.
  { unfold set_account_info, set_final_account_info in Hset.
    destruct (deepcopy info h) as [[c hc]|]; simplify_eq/=. done. }
  rewrite Hf in Hinit. rewrite Hc2, Hc1. done.
Qed.
End LoadFacts.

Lemma fresh_record_is_separate (s : Storage.storage) (h h' : Storage.heap) v l :
  Storage.wf s h → Storage.alloc_account v h = (l, h') →
  Storage.wf s h' ∧ ∀ x, x ∈ Storage.footprint h' l → ¬ Storage.owns s h' x.
Proof.
  intros Hwf Hal. apply alloc_account_spec in Hal as (Hsub & _ & Hfresh).
  split; [by eapply wf_weaken|].
  intros x Hx Hown. apply Hfresh in Hx.
  destruct (owns_in_heap s h x Hwf (owns_weaken s h h' x Hwf Hsub Hown)) as [o Ho].
  congruence.
Qed.

Lemma init_succeeds_iff_witness :
  ({[ "storage/data.json" := Storage.Blank ]} : gmap string (Storage.file_content Samples.json))
    !! Storage.filename Samples.store1 = Some Storage.Blank
  ∧ ∃ s' h', Storage.init Samples.from_dict_json Samples.store1 Samples.heap1
               {[ "storage/data.json" := Storage.Blank ]} = Ok (s', h').
Proof.
  split; [reflexivity|].
  apply (init_succeeds_iff Samples.from_dict_json Samples.store1 Samples.heap1
           {[ "storage/data.json" := Storage.Blank ]}).
  left. reflexivity.
Defined.

Lemma set_is_durable_after_save_witness :
  (∀ v, Samples.from_dict_json (Samples.to_dict_json v) = Ok v)
  ∧ Storage.wf Samples.store1 StoreSamples.heap2
  ∧ Storage.view StoreSamples.heap2 StoreSamples.caller_info = Some StoreSamples.info1
  ∧ (∀ x, x ∈ Storage.footprint StoreSamples.heap2 StoreSamples.caller_info →
          ¬ Storage.owns Samples.store1 StoreSamples.heap2 x)
  ∧ ∃ s1 h1 s2 h2,
      Storage.set_account_info Samples.store1 "0xB" StoreSamples.caller_info
        StoreSamples.heap2 = Some (s1, h1)
      ∧ Storage.init Samples.from_dict_json (Storage.new "storage/data.json") ∅
          (Storage.save Samples.to_dict_json s1 h1 ∅) = Ok (s2, h2)
      ∧ Storage.contents s2 h2
        = <["0xB":=StoreSamples.info1]>
            (Storage.contents Samples.store1 StoreSamples.heap2).
Proof.
  destruct (fresh_record_is_separate Samples.store1 Samples.heap1
              StoreSamples.heap2 StoreSamples.info1 StoreSamples.caller_info
              store1_wf eq_refl) as [Hwf Hsep].
  split; [exact from_to_dict_json|]. split; [exact Hwf|].
  split; [reflexivity|]. split; [exact Hsep|].
  destruct (set_is_durable_after_save Samples.to_dict_json Samples.from_dict_json
              from_to_dict_json Samples.store1 StoreSamples.heap2 ∅ ∅ "0xB"
              StoreSamples.caller_info StoreSamples.info1 Hwf eq_refl Hsep)
    as (s1 & h1 & s2 & h2 & _ & _ & Hset & Hinit & Hcontents & _).
  exists s1, h1, s2, h2. split; [exact Hset|]. split; [exact Hinit|exact Hcontents].
Defined.

(** ** The invite pool: order, refill, errors *)

Section PoolFacts.
Context {W : Type}.
Implicit Types (s : run_state W).

Lemma get_invites_spec (n : nat) s :
  Drain.get_invites n s
  = (Ok ((Some <$> take n (invites s)) ++ replicate (n - length (invites s)) None),
     set_invites (drop n (invites s)) s).
Proof.
  revert s. induction n as [|n IH]; intros s.
  - simpl. unfold eff_ret. rewrite drop_0. by destruct s.
  - cbn [Drain.get_invites]. unfold eff_bind at 1.
    destruct (invites s) as [|c q] eqn:Hq.
    + rewrite (get_invite_empty s Hq). unfold eff_bind. rewrite IH, Hq. simpl.
      rewrite take_nil, !drop_nil. simpl. rewrite Nat.sub_0_r. done.
    + rewrite (get_invite_cons s c q Hq). unfold eff_bind. rewrite IH. simpl.
      unfold eff_ret. done.
Qed.

(** X9.  The pool is a first-in first-out queue: after
    [add_invites(new)], [n] consecutive [get_invite] calls return the
    first [n] codes of the old queue followed by [new], in that order,
    then [None] for every call past the end, and leave the rest of the
    queue in place.  Codes added later are never handed out before codes
    queued earlier. *)
Theorem pool_is_fifo (new : list string) (n : nat) s :
  (Invites.add_invites new;; Drain.get_invites n) s
  = (Ok ((Some <$> take n (invites s ++ new))
         ++ replicate (n - length (invites s ++ new)) None),
     set_invites (drop n (invites s ++ new)) s).
Proof.
  unfold eff_bind, Invites.add_invites. by rewrite get_invites_spec.
Qed.
End PoolFacts.
Section RefillFacts.
Context {W : Type}.
Variable WAIT_BETWEEN_ACCOUNTS : Z * Z.
Variable THREADS_NUM : Z.
Variable MOBILE_PROXY : bool.
Variable addresses : list string.
Variable refresh : string → string → W → result (option (list string)) * W.
Variable shuffle_addresses : list (nat * string) → W → list (nat * string) * W.
Variable shuffle_codes : list string → W → list string * W.
Implicit Types (s : run_state W).
Implicit Types (vs : list (nat * result (option (list string)))).

Local Abbreviation refill_loop :=
  (Invites.refill_loop WAIT_BETWEEN_ACCOUNTS MOBILE_PROXY refresh).
Local Abbreviation update_invites first_count :=
  (Invites.update_invites WAIT_BETWEEN_ACCOUNTS THREADS_NUM first_count
     MOBILE_PROXY addresses refresh shuffle_addresses shuffle_codes).
Local Abbreviation refreshes := (Refills.refreshes refresh).

(** What the loop logs for an account that yielded [codes]. *)
Local Abbreviation added y :=
  (EvLog INFO ("Updating invites " +:+ pretty y.1 +:+ ") Added new "
               +:+ pretty (length y.2))).

(** What the caller of [update_invites] gets: nothing, or the failure
    of a refresh wrapped by the handler. *)
Local Abbreviation refill_result vs :=
  (match Refills.failure vs with
   | None => Ok tt
   | Some e => Raise (Exn PlainException ("Update invites failed: " +:+ str_of_exn e))
   end).

Lemma filter_is_info_app (evs1 evs2 : list event) :
  filter is_info (evs1 ++ evs2) = filter is_info evs1 ++ filter is_info evs2.
Proof. apply filter_app. Qed.

Lemma enumerate1_indices {A} (l : list A) :
  (enumerate1 l).*1 = seq 1 (length l).
Proof.
  unfold enumerate1. rewrite fmap_imap.
  assert (∀ j, imap (λ i (_ : A), S (j + i)) l = seq (S j) (length l)) as H.
  { induction l as [|a r IH]; intros j; [done|].
    cbn [imap length seq]. rewrite Nat.add_0_r. f_equal.
    rewrite <- (IH (S j)). apply imap_ext. intros i x _. simpl. lia. }
  rewrite <- (H 0%nat). by apply imap_ext.
Qed.

(** The calls are made in the order of the list, one per entry. *)
Lemma refreshes_indices (l : list (nat * string)) (w : W) :
  (refreshes l w).1.*1 = take (length (refreshes l w).1) l.*1.
Proof.
  revert w. induction l as [|[idx address] rest IH]; intros w; [done|].
  cbn [Refills.refreshes].
  destruct (refresh ("Updating invites " +:+ pretty idx) address w) as [[o|e] w1];
    [|done].
  specialize (IH w1). destruct (refreshes rest w1) as [vs w2]. simpl in *.
  by rewrite IH at 1.
Qed.

(** Nothing is called after a call that raised. *)
Lemma refreshes_take (k : nat) (l : list (nat * string)) (w : W) :
  length (refreshes (take k l) w).1 = k →
  Refills.failure (refreshes (take k l) w).1 ≠ None ∨ k = length l →
  refreshes l w = refreshes (take k l) w.
Proof.
  revert k w. induction l as [|[idx address] rest IH]; intros k w Hlen Hstop.
  { by rewrite take_nil. }
  destruct k as [|k].
  { simpl in *. by destruct Hstop as [|[=]]. }
  cbn [take Refills.refreshes] in *.
  destruct (refresh ("Updating invites " +:+ pretty idx) address w) as [[o|e] w1];
    [|done].
  specialize (IH k w1).
  destruct (refreshes (take k rest) w1) as [vs w2] eqn:Hvs. simpl in *.
  rewrite IH; [done|lia|].
  destruct Hstop as [Hf|Hk]; [by left|right; lia].
Qed.

Lemma refill_loop_refreshes (l : list (nat * string)) (max_use : option Z) s :
  ∃ (k : nat) vs s' new,
    (k ≤ length l)%nat
    ∧ refreshes (take k l) (outside s) = (vs, outside s')
    ∧ length vs = k
    ∧ refill_loop l max_use s
      = (match Refills.failure vs with None => Ok tt | Some e => Raise e end, s')
    ∧ invites s' = invites s ++ concat (Refills.yields vs).*2
    ∧ trace s' = trace s ++ new
    ∧ count_calls "refresh" new = k
    ∧ filter is_info new = (λ y, added y) <$> Refills.yields vs
    ∧ (max_use = None → Refills.failure vs = None → k = length l)
    ∧ (∀ m, max_use = Some m →
         (m ≤ 0 → k = 0%nat)
         ∧ (Refills.contributors vs ≤ Z.to_nat m)%nat
         ∧ (Refills.failure vs = None → (k < length l)%nat →
            m ≤ Z.of_nat (Refills.contributors vs))
         ∧ (∀ j, (j < k)%nat → Z.of_nat (Refills.contributors (take j vs)) < m))
    ∧ (MOBILE_PROXY = false → Forall (λ e, ¬ is_sleep e) new).
Proof.
  revert max_use s. induction l as [|[idx address] rest IH]; intros max_use s.
  { exists 0%nat, [], s, []. simpl. rewrite !app_nil_r.
    repeat split; try done; try lia.
    all: intros; repeat split; intros; try done;
      unfold Refills.contributors; simpl; lia. }
  cbn [Invites.refill_loop].
  destruct (Invites.used_up max_use) eqn:Hup.
  { exists 0%nat, [], s, []. simpl. rewrite !app_nil_r.
    destruct max_use as [m|]; [|done]. simpl in Hup. apply bool_decide_eq_true in Hup.
    repeat split; try done; try lia.
    all: intros; simplify_eq; repeat split; intros; try done;
      unfold Refills.contributors; simpl; lia. }
  set (pause := if MOBILE_PROXY && negb (bool_decide (idx = 1%nat))
                then [EvSleep (Uniform WAIT_BETWEEN_ACCOUNTS.1 WAIT_BETWEEN_ACCOUNTS.2)]
                else []).
  assert ((if MOBILE_PROXY && negb (bool_decide (idx = 1%nat))
           then sleep (Uniform WAIT_BETWEEN_ACCOUNTS.1 WAIT_BETWEEN_ACCOUNTS.2)
           else eff_ret tt) s = (Ok tt, add_trace pause s)) as Hpause.
  { unfold pause. destruct (MOBILE_PROXY && _); [done|].
    by rewrite add_trace_nil. }
  assert (MOBILE_PROXY = false → pause = []) as Hnopause.
  { intros ->. done. }
  assert (count_calls "refresh" pause = 0%nat ∧ filter is_info pause = []) as [Hpc Hpi].
  { unfold pause. by destruct (MOBILE_PROXY && _). }
  unfold eff_bind at 1. rewrite Hpause. unfold eff_bind at 1. rewrite call_eq.
  change (outside (add_trace pause s)) with (outside s).
  destruct (refresh ("Updating invites " +:+ pretty idx) address (outside s))
    as [[[codes|]|e] w1] eqn:Hres; cbn [fst snd].
  - unfold eff_bind at 1. rewrite log_eq. unfold eff_bind at 1.
    unfold Invites.add_invites at 1.
    set (s1 := set_invites _ _).
    destruct (IH (match codes, max_use with
                  | _ :: _, Some m => Some (m - 1)
                  | _, _ => max_use
                  end) s1)
      as (k & vs & s' & new & Hk & Hvs & Hlen & Hrun & Hinv & Htr & Hcnt & Hinfo
          & Hall & Hcap & Hsl).
    exists (S k), ((idx, Ok (Some codes)) :: vs), s',
      (pause ++ [EvCall "refresh"] ++ [added (idx, codes)] ++ new).
    split; [simpl; lia|]. split.
    { cbn [take Refills.refreshes]. rewrite Hres.
      change (outside s1) with w1 in Hvs. by rewrite Hvs. }
    split; [simpl; lia|]. split; [done|]. split.
    { rewrite Hinv. unfold s1. simpl. by rewrite <- (assoc_L (++)). }
    split.
    { rewrite Htr. unfold s1. simpl. by rewrite <- !(assoc_L (++)). }
    split.
    { rewrite !count_calls_app, Hpc, Hcnt. done. }
    split.
    { rewrite !filter_is_info_app, Hpi, Hinfo. done. }
    split.
    { intros -> Hf. simpl in Hf.
      assert (match codes with _ :: _ | _ => @None Z end = None) as Hnone
        by (by destruct codes).
      rewrite Hnone in Hall. rewrite (Hall eq_refl Hf). done. }
    split.
    { intros m ->. simpl in Hup. apply bool_decide_eq_false in Hup.
      split; [lia|]. unfold Refills.contributors in *. simpl.
      rewrite filter_cons. simpl.
      destruct codes as [|c codes].
      - destruct (Hcap m eq_refl) as (_ & Hle & Hreach & Hbelow).
        destruct (decide (@nil string ≠ [])) as [Hd|Hd]; [done|].
        split; [exact Hle|]. split.
        { intros Hf Hlt. apply Hreach; [done|lia]. }
        intros [|j] Hj; [simpl; lia|]. simpl.
        try rewrite filter_cons_False by (simpl; by intros Hn). apply Hbelow. lia.
      - destruct (Hcap (m - 1) eq_refl) as (_ & Hle & Hreach & Hbelow).
        destruct (decide (c :: codes ≠ [])) as [Hd|Hd]; [|by destruct Hd].
        simpl. split; [lia|]. split.
        { intros Hf Hlt. specialize (Hreach Hf ltac:(lia)). lia. }
        intros [|j] Hj; [simpl; lia|]. simpl.
        specialize (Hbelow j ltac:(lia)). lia. }
    intros Hmp. rewrite (Hnopause Hmp). simpl.
    apply Forall_cons. split; [by intros []|].
    apply Forall_cons. split; [by intros []|]. by apply Hsl.
  - set (s1 := add_trace _ _).
    destruct (IH max_use s1)
      as (k & vs & s' & new & Hk & Hvs & Hlen & Hrun & Hinv & Htr & Hcnt & Hinfo
          & Hall & Hcap & Hsl).
    exists (S k), ((idx, Ok None) :: vs), s', (pause ++ [EvCall "refresh"] ++ new).
    split; [simpl; lia|]. split.
    { cbn [take Refills.refreshes]. rewrite Hres.
      change (outside s1) with w1 in Hvs. by rewrite Hvs. }
    split; [simpl; lia|]. split; [done|]. split; [by rewrite Hinv|]. split.
    { rewrite Htr. unfold s1. simpl. by rewrite <- !(assoc_L (++)). }
    split.
    { rewrite !count_calls_app, Hpc, Hcnt. done. }
    split.
    { rewrite !filter_is_info_app, Hpi, Hinfo. done. }
    split.
    { intros Hm Hf. simpl in Hf. rewrite (Hall Hm Hf). done. }
    split.
    { intros m ->. simpl in Hup. apply bool_decide_eq_false in Hup.
      destruct (Hcap m eq_refl) as (_ & Hle & Hreach & Hbelow).
      split; [lia|]. unfold Refills.contributors in *. simpl.
      split; [exact Hle|]. split.
      { intros Hf Hlt. apply Hreach; [done|lia]. }
      intros [|j] Hj; [simpl; lia|]. simpl. apply Hbelow. lia. }
    intros Hmp. rewrite (Hnopause Hmp). simpl.
    apply Forall_cons. split; [by intros []|]. by apply Hsl.
  - exists 1%nat, [(idx, Raise e)],
      (add_trace [EvCall "refresh"] (set_outside w1 (add_trace pause s))),
      (pause ++ [EvCall "refresh"]).
    split; [simpl; lia|]. split.
    { cbn [take Refills.refreshes]. rewrite take_0. by rewrite Hres. }
    split; [done|]. split; [done|]. split; [simpl; by rewrite app_nil_r|]. split.
    { simpl. by rewrite <- !(assoc_L (++)). }
    split.
    { rewrite count_calls_app, Hpc. done. }
    split.
    { rewrite filter_is_info_app, Hpi. done. }
    split; [done|]. split.
    { intros m ->. simpl in Hup. apply bool_decide_eq_false in Hup.
      unfold Refills.contributors. simpl. repeat split; try done; try lia.
      intros [|j] Hj; [simpl; lia|lia]. }
    intros Hmp. rewrite (Hnopause Hmp). simpl.
    apply Forall_cons. split; [by intros []|]. done.
Qed.

(** X10.  Whatever goes wrong inside [update_invites] reaches the
    caller as a plain [Exception] whose message is "Update invites
    failed: " followed by the text of the original error.  In particular
    with THREADS_NUM = 0 a call on a non-empty pool fails that way on the
    division for the pause, leaving the state as it was. *)
Theorem update_invites_errors_are_wrapped (first_count : Invites.first_count) s :
  (∀ e s', update_invites first_count s = (Raise e, s') →
     ∃ cause, e = Exn PlainException ("Update invites failed: " +:+ cause))
  ∧ (THREADS_NUM = 0 → invites s ≠ [] →
     update_invites first_count s
     = (Raise (Exn PlainException "Update invites failed: division by zero"), s)).
Proof.
  split.
  - intros e s'. unfold Invites.update_invites, try_except.
    destruct (match invites s with
              | [] => _
              | _ :: _ => _
              end) as [[[]|e0] s0]; [done|].
    unfold raise. intros [= <- <-]. eauto.
  - intros HT Hne. unfold Invites.update_invites, try_except.
    destruct (invites s) as [|c rest]; [done|].
    unfold eff_bind, truediv. destruct (decide (THREADS_NUM = 0)); [|done]. done.
Qed.

(** X11.  A refill with an integer
    AUTO_UPDATE_INVITES_FROM_FIRST_COUNT = [n], entered on an empty
    pool.  [refresh] is called for the addresses of [addresses[:n]] in
    their order, once each, every call on the world the call before it
    left, up to and including the first call that raises - for all of
    them when none raises.  The pool afterwards holds exactly the
    [invite_codes] these calls returned, in the order of the calls, and
    each account that returned a record is logged with the number of its
    codes - also when a later refresh raised, in which case the caller
    gets that failure wrapped as "Update invites failed: ...".  Without
    MOBILE_PROXY the refill never pauses. *)
Theorem uncapped_refill_visits_prefix (n : Z) s :
  invites s = [] →
  ∃ vs s' new,
    refreshes (enumerate1 (py_slice_to n addresses)) (outside s) = (vs, outside s')
    ∧ update_invites (Invites.FirstCount n) s = (refill_result vs, s')
    ∧ invites s' = concat (Refills.yields vs).*2
    ∧ trace s' = trace s ++ new
    ∧ count_calls "refresh" new = length vs
    ∧ vs.*1 = take (length vs) (seq 1 (length (py_slice_to n addresses)))
    ∧ (Refills.failure vs = None → length vs = length (py_slice_to n addresses))
    ∧ filter is_info new
      = EvLog INFO "Updating invites" :: ((λ y, added y) <$> Refills.yields vs)
    ∧ (MOBILE_PROXY = false → Forall (λ e, ¬ is_sleep e) new).
Proof.
  intros Hs. unfold Invites.update_invites, try_except. rewrite Hs.
  unfold Invites.refill. unfold eff_bind at 1. unfold eff_ret at 1.
  unfold eff_bind at 1. rewrite emit_eq. unfold eff_bind at 1. rewrite log_eq.
  rewrite add_trace_add_trace. unfold eff_bind at 1.
  set (l := enumerate1 (py_slice_to n addresses)).
  set (s0 := add_trace _ s).
  destruct (refill_loop_refreshes l None s0)
    as (k & vs & s1 & new & Hk & Hvs & Hlen & Hrun & Hinv & Htr & Hcnt & Hinfo
        & Hall & _ & Hsl).
  rewrite Hrun. change (outside s0) with (outside s) in Hvs.
  assert (refreshes l (outside s) = (vs, outside s1)) as Hfull.
  { rewrite <- Hvs. apply refreshes_take; rewrite Hvs; simpl; [done|].
    destruct (Refills.failure vs) eqn:Hf; [by left|right; by apply Hall]. }
  assert (vs.*1 = take (length vs) (seq 1 (length (py_slice_to n addresses))))
    as Hidx.
  { pose proof (refreshes_indices l (outside s)) as Hi. rewrite Hfull in Hi.
    simpl in Hi. rewrite Hi. f_equal. unfold l. apply enumerate1_indices. }
  unfold s0 in Htr, Hinv. simpl in Htr, Hinv. rewrite Hs in Hinv. simpl in Hinv.
  assert (length l = length (py_slice_to n addresses)) as Hll.
  { unfold l, enumerate1. by rewrite length_imap. }
  assert (∀ evs lv msg, count_calls "refresh"
              ([EvPrint] ++ [EvLog INFO "Updating invites"] ++ evs ++ [EvLog lv msg])
            = count_calls "refresh" evs) as Hc2.
  { intros evs lv msg. rewrite !count_calls_app.
    unfold count_calls at 1 2 4. simpl. lia. }
  destruct (Refills.failure vs) as [e|] eqn:Hf.
  - unfold raise.
    exists vs, s1, ([EvPrint] ++ [EvLog INFO "Updating invites"] ++ new).
    split; [done|]. split; [by rewrite Hf|]. split; [done|]. split.
    { rewrite Htr. simpl. by rewrite <- !(assoc_L (++)). }
    split; [by rewrite Hlen|]. split; [done|]. split; [by rewrite Hf|].
    split; [by rewrite !filter_is_info_app, Hinfo|].
    intros Hmp. simpl. apply Forall_cons. split; [by intros []|].
    apply Forall_cons. split; [by intros []|]. by apply Hsl.
  - unfold eff_bind at 1. unfold eff_ret at 1. rewrite log_eq.
    set (s2 := add_trace _ s1).
    eexists vs, s2, ([EvPrint] ++ [EvLog INFO "Updating invites"] ++ new ++ [_]).
    split; [done|]. split; [by rewrite Hf|]. split; [done|]. split.
    { simpl. rewrite Htr. by rewrite <- !(assoc_L (++)). }
    split; [by rewrite Hc2, Hlen|]. split; [done|].
    split; [intros _; rewrite Hlen, <- Hll; by apply Hall|].
    split; [rewrite !filter_is_info_app, Hinfo; by rewrite app_nil_r|].
    intros Hmp. simpl. apply Forall_cons. split; [by intros []|].
    apply Forall_cons. split; [by intros []|].
    apply Forall_app. split; [by apply Hsl|].
    apply Forall_cons. split; [by intros []|]. done.
Qed.

(** X12.  A refill with a tuple AUTO_UPDATE_INVITES_FROM_FIRST_COUNT
    = [(max_use, n)], entered on an empty pool.  [addresses[:n]] is
    shuffled and [refresh] is called for the first [k] entries of the
    shuffled list, in their order, once each, every call on the world
    the call before it left.  The calls stop at the end of the list, at
    a call that raises, or as soon as [max_use] of the accounts
    refreshed had at least one code: before every call made, fewer than
    [max_use] accounts had contributed, so never more than [max_use]
    do, and none is refreshed when [max_use <= 0].  When no call
    raised the pool afterwards is what [random.shuffle] made of exactly
    the [invite_codes] these calls returned; when one raised the pool
    holds the codes returned before it, in the order of the calls, and
    the caller gets the failure wrapped as "Update invites failed:
    ...". *)
Theorem capped_refill_respects_cap (max_use n : Z) s :
  invites s = [] →
  ∃ (k : nat) vs w1 s' new,
    let shuffled := shuffle_addresses (enumerate1 (py_slice_to n addresses)) (outside s) in
    (k ≤ length shuffled.1)%nat
    ∧ refreshes (take k shuffled.1) shuffled.2 = (vs, w1)
    ∧ length vs = k
    ∧ update_invites (Invites.FirstCountCapped max_use n) s = (refill_result vs, s')
    ∧ (invites s', outside s')
      = match Refills.failure vs with
        | None => shuffle_codes (concat (Refills.yields vs).*2) w1
        | Some _ => (concat (Refills.yields vs).*2, w1)
        end
    ∧ trace s' = trace s ++ new
    ∧ count_calls "refresh" new = k
    ∧ (Refills.contributors vs ≤ Z.to_nat max_use)%nat
    ∧ (max_use ≤ 0 → k = 0%nat)
    ∧ (Refills.failure vs = None → (k < length shuffled.1)%nat →
       max_use ≤ Z.of_nat (Refills.contributors vs))
    ∧ (∀ j, (j < k)%nat → Z.of_nat (Refills.contributors (take j vs)) < max_use)
    ∧ filter is_info new
      = EvLog INFO "Updating invites" :: ((λ y, added y) <$> Refills.yields vs).
Proof.
  intros Hs. unfold Invites.update_invites, try_except. rewrite Hs.
  unfold Invites.refill. unfold eff_bind at 1.
  destruct (shuffle_addresses (enumerate1 (py_slice_to n addresses)) (outside s))
    as [l w0] eqn:Hsh. cbv zeta. cbn [fst snd].
  unfold eff_bind at 1. rewrite emit_eq. unfold eff_bind at 1. rewrite log_eq.
  rewrite add_trace_add_trace. unfold eff_bind at 1.
  set (s0 := add_trace _ _).
  destruct (refill_loop_refreshes l (Some max_use) s0)
    as (k & vs & s1 & new & Hk & Hvs & Hlen & Hrun & Hinv & Htr & Hcnt & Hinfo
        & _ & Hcap & _).
  rewrite Hrun. destruct (Hcap max_use eq_refl) as (Hzero & Hle & Hreach & Hbelow).
  change (outside s0) with w0 in Hvs.
  unfold s0 in Htr, Hinv. simpl in Htr, Hinv. rewrite Hs in Hinv. simpl in Hinv.
  assert (∀ evs lv msg, count_calls "refresh"
              ([EvPrint] ++ [EvLog INFO "Updating invites"] ++ evs ++ [EvLog lv msg])
            = count_calls "refresh" evs) as Hc2.
  { intros evs lv msg. rewrite !count_calls_app.
    unfold count_calls at 1 2 4. simpl. lia. }
  destruct (Refills.failure vs) as [e|] eqn:Hf.
  - unfold raise.
    exists k, vs, (outside s1), s1, ([EvPrint] ++ [EvLog INFO "Updating invites"] ++ new).
    split; [done|]. split; [done|]. split; [done|]. split; [by rewrite Hf|].
    split; [by rewrite Hf, Hinv|]. split.
    { rewrite Htr. simpl. by rewrite <- !(assoc_L (++)). }
    split; [done|]. split; [done|]. split; [done|]. split; [by rewrite Hf|].
    split; [done|].
    by rewrite !filter_is_info_app, Hinfo.
  - unfold eff_bind at 1.
    destruct (shuffle_codes (invites s1) (outside s1)) as [codes w2] eqn:Hsc.
    rewrite log_eq.
    eexists k, vs, (outside s1), _,
      ([EvPrint] ++ [EvLog INFO "Updating invites"] ++ new ++ [_]).
    split; [done|]. split; [done|]. split; [done|]. split; [by rewrite Hf|].
    split; [rewrite Hf; simpl; by rewrite <- Hinv, Hsc|]. split.
    { simpl. rewrite Htr. by rewrite <- !(assoc_L (++)). }
    split; [by rewrite Hc2|]. split; [done|]. split; [done|].
    split; [intros _ Hlt; by apply Hreach|]. split; [done|].
    rewrite !filter_is_info_app, Hinfo. by rewrite app_nil_r.
Qed.
End RefillFacts.

Lemma update_invites_errors_are_wrapped_witness :
  (0 : Z) = 0 ∧ invites (Samples.pool ["A"]) ≠ []
  ∧ Invites.update_invites (30, 60) 0 (Invites.FirstCount 10) false ["0x1"]
      (λ _ _ w, (Ok (Some ["NEW"]), w)) (λ l w, (l, w)) (λ l w, (l, w))
      (Samples.pool ["A"])
    = (Raise (Exn PlainException "Update invites failed: division by zero"),
       Samples.pool ["A"]).
Proof.
  split; [reflexivity|]. split; [discriminate|].
  apply (update_invites_errors_are_wrapped (W:=unit) (30, 60) 0 false ["0x1"]
           (λ _ _ w, (Ok (Some ["NEW"]), w)) (λ l w, (l, w)) (λ l w, (l, w))
           (Invites.FirstCount 10) (Samples.pool ["A"])); [reflexivity|discriminate].
Defined.

Lemma uncapped_refill_visits_prefix_witness :
  invites Samples.s0 = []
  ∧ ∃ s' new,
      Invites.update_invites (30, 60) 4 (Invites.FirstCount 2) false
        ["0x1"; "0x2"; "0x3"]
        (λ _ address w, (if decide (address = "0x1") then Ok None
                         else Ok (Some ["CODE-" +:+ address]), w))
        (λ l w, (l, w)) (λ l w, (l, w)) Samples.s0 = (Ok tt, s')
      ∧ invites s' = ["CODE-0x2"]
      ∧ trace s' = trace Samples.s0 ++ new
      ∧ count_calls "refresh" new = 2%nat.
Proof.
  split; [reflexivity|].
  destruct (uncapped_refill_visits_prefix (W:=unit) (30, 60) 4 false
              ["0x1"; "0x2"; "0x3"]
              (λ _ address w, (if decide (address = "0x1") then Ok None
                               else Ok (Some ["CODE-" +:+ address]), w))
              (λ l w, (l, w)) (λ l w, (l, w)) 2 Samples.s0 eq_refl)
    as (vs & s' & new & Hvs & Hrun & Hpool & Htrace & Hcount & _).
  assert (([(1%nat, Ok None); (2%nat, Ok (Some ["CODE-0x2"]))], tt)
          = (vs, outside s')) as Hc by exact Hvs.
  injection Hc as Hv _. subst vs.
  exists s', new. split; [exact Hrun|]. split; [exact Hpool|].
  split; [exact Htrace|exact Hcount].
Defined.

Lemma capped_refill_respects_cap_witness :
  invites Samples.s0 = []
  ∧ ∃ (k : nat) vs s',
      Invites.update_invites (30, 60) 4 (Invites.FirstCountCapped 1 10) false
        ["0x1"; "0x2"] (λ _ _ w, (Ok (Some ["NEW"]), w)) (λ l w, (l, w))
        (λ l w, (l, w)) Samples.s0
      = (match Refills.failure vs with
         | None => Ok tt
         | Some e =>
             Raise (Exn PlainException ("Update invites failed: " +:+ str_of_exn e))
         end, s')
      ∧ length vs = k
      ∧ (Refills.contributors vs ≤ 1)%nat
      ∧ (Refills.failure vs = None → (k < 2)%nat →
         1 ≤ Z.of_nat (Refills.contributors vs)).
Proof.
  split; [reflexivity|].
  destruct (capped_refill_respects_cap (W:=unit) (30, 60) 4 false ["0x1"; "0x2"]
              (λ _ _ w, (Ok (Some ["NEW"]), w)) (λ l w, (l, w)) (λ l w, (l, w))
              1 10 Samples.s0 eq_refl)
    as (k & vs & w1 & s' & new & _ & _ & Hlen & Hrun & _ & _ & _ & Hcap & _ & Hreach & _).
  exists k, vs, s'. split; [exact Hrun|]. split; [exact Hlen|].
  split; [exact Hcap|exact Hreach].
Defined.

Example capped_refill_stops_at_cap :
  (Invites.update_invites (30, 60) 4 (Invites.FirstCountCapped 1 10) false
     ["0x1"; "0x2"] (λ _ address w, (Ok (Some ["CODE-" +:+ address]), w))
     (λ l w, (l, w)) (λ l w, (l, w)) Samples.s0).2
  = RunState ["CODE-0x1"] tt
      [EvPrint; EvLog INFO "Updating invites"; EvCall "refresh";
       EvLog INFO "Updating invites 1) Added new 1";
       EvLog SUCCESS "Invites updated: 1 new
"].
Proof. reflexivity. Qed.

(** ** The result log of a receipt *)

Section PayloadFacts.

Lemma length_be_bytes (n : nat) (w : Z) : length (Payload.be_bytes n w) = n.
Proof.
  revert w. induction n as [|n IH]; intros w; simpl; [done|].
  rewrite length_app, IH. simpl. lia.
Qed.

Lemma hex_digits_app (b1 b2 : list Z) :
  Account.hex_digits (b1 ++ b2) = Account.hex_digits b1 ++ Account.hex_digits b2.
Proof. unfold Account.hex_digits. apply bind_app. Qed.

Lemma length_hex_digits (bytes : list Z) :
  length (Account.hex_digits bytes) = (2 * length bytes)%nat.
Proof.
  induction bytes as [|b bytes IH]; [done|].
  change (Account.hex_digits (b :: bytes))
    with ([b `div` 16; b `mod` 16] ++ Account.hex_digits bytes).
  rewrite length_app, IH. simpl. lia.
Qed.

Lemma foldl_hex_digits (acc : Z) (bytes : list Z) :
  foldl (λ acc d, acc * 16 + d) acc (Account.hex_digits bytes)
  = foldl (λ acc b, acc * 256 + b) acc bytes.
Proof.
  revert acc. induction bytes as [|b bytes IH]; intros acc; [done|].
  change (Account.hex_digits (b :: bytes))
    with ([b `div` 16; b `mod` 16] ++ Account.hex_digits bytes).
  rewrite foldl_app, IH. simpl. f_equal.
  pose proof (Z.div_mod b 16 ltac:(lia)). lia.
Qed.

Lemma foldl_be_bytes (n : nat) (acc w : Z) :
  foldl (λ acc b, acc * 256 + b) acc (Payload.be_bytes n w)
  = acc * 256 ^ Z.of_nat n + w `mod` 256 ^ Z.of_nat n.
Proof.
  revert acc w. induction n as [|n IH]; intros acc w.
  - simpl. rewrite Z.mod_1_r. lia.
  - cbn [Payload.be_bytes]. rewrite foldl_app, IH. simpl.
    rewrite Nat2Z.inj_succ, Z.pow_succ_r by lia.
    rewrite (Z.rem_mul_r w 256 (256 ^ Z.of_nat n)) by lia. lia.
Qed.

Lemma int16_word (w : Z) :
  0 ≤ w < 2 ^ 256 →
  Account.int16 (Account.hex_digits (Payload.be_bytes 32 w)) = w.
Proof.
  intros Hw. unfold Account.int16. rewrite foldl_hex_digits, foldl_be_bytes.
  rewrite Z.mod_small; [lia|]. split; [lia|].
  replace (256 ^ Z.of_nat 32) with (2 ^ 256) by reflexivity. lia.
Qed.

Lemma chunk_head (d rest : list Z) :
  length d = 64%nat → take 64 (d ++ rest) = d ∧ drop 64 (d ++ rest) = rest.
Proof.
  intros Hd. split.
  - rewrite take_app_le by lia. apply take_ge. lia.
  - rewrite drop_app_ge by lia. rewrite Hd. by rewrite Nat.sub_diag.
Qed.

Lemma log_values_chunks (d0 d1 d2 d3 d4 d5 ex : list Z) :
  Forall (λ d, length d = 64%nat) [d0; d1; d2; d3; d4; d5] →
  Account.log_values (d0 ++ d1 ++ d2 ++ d3 ++ d4 ++ d5 ++ ex)
  = Ok (Account.int16 <$> [d0; d1; d2; d3; d4; d5]).
Proof.
  intros Hlen.
  repeat match goal with
         | H : Forall _ (_ :: _) |- _ => apply Forall_cons in H as [? H]
         end.
  assert (∀ (i : nat) (d rest : list Z), length d = 64%nat →
            drop (64 * S i) (d ++ rest) = drop (64 * i) rest) as Hdrop.
  { intros i d rest Hd. replace (64 * S i)%nat with (64 + 64 * i)%nat by lia.
    rewrite <- drop_drop. by rewrite (proj2 (chunk_head d rest Hd)). }
  unfold Account.log_values. cbn [seq foldr].
  rewrite !Hdrop by done. change (64 * 0)%nat with 0%nat. rewrite !drop_0.
  assert (∀ d rest : list Z, length d = 64%nat → take 64 (d ++ rest) = d) as Htake
    by (intros d rest Hd; apply (chunk_head d rest Hd)).
  rewrite !Htake by done.
  destruct d0; [done|]. destruct d1; [done|]. destruct d2; [done|].
  destruct d3; [done|]. destruct d4; [done|]. destruct d5; [done|]. done.
Qed.

Lemma log_values_words (w0 w1 w2 w3 w4 w5 : Z) (extra : list Z) :
  Forall (λ w, 0 ≤ w < 2 ^ 256) [w0; w1; w2; w3; w4; w5] →
  Account.log_values
    (Account.hex_digits (Payload.words [w0; w1; w2; w3; w4; w5] ++ extra))
  = Ok [w0; w1; w2; w3; w4; w5].
Proof.
  intros Hws.
  assert (∀ w, length (Account.hex_digits (Payload.be_bytes 32 w)) = 64%nat) as Hlen.
  { intros w. by rewrite length_hex_digits, length_be_bytes. }
  unfold Payload.words. rewrite !bind_cons.
  change (@nil Z ≫= Payload.be_bytes 32) with (@nil Z). rewrite app_nil_r.
  rewrite <- !(assoc_L (++)), !hex_digits_app.
  rewrite log_values_chunks by (repeat (apply Forall_cons; split; [apply Hlen|]); done).
  repeat match goal with
         | H : Forall _ (_ :: _) |- _ => apply Forall_cons in H as [? H]
         end.
  rewrite !fmap_cons, !int16_word by done. done.
Qed.

(** X13.  Decoding undoes the chain's layout: for event data that
    starts with six 32-byte big-endian words (each below 2^256) - read,
    as [tx_verification] reads it, from a [data.hex()] of "0x" and two
    digits per byte - the list [values] holds exactly those six numbers;
    bytes after the sixth word are ignored. *)
Theorem result_log_roundtrip (w0 w1 w2 w3 w4 w5 : Z) (extra : list Z) :
  Forall (λ w, 0 ≤ w < 2 ^ 256) [w0; w1; w2; w3; w4; w5] →
  Account.log_values
    (Account.hex_digits (Payload.words [w0; w1; w2; w3; w4; w5] ++ extra))
  = Ok [w0; w1; w2; w3; w4; w5].
Proof. apply log_values_words. Qed.
End PayloadFacts.

Lemma result_log_roundtrip_witness :
  Forall (λ w, 0 ≤ w < 2 ^ 256) [1; 2; 0; 5; 0; 7]
  ∧ Account.log_values
      (Account.hex_digits (Payload.words [1; 2; 0; 5; 0; 7] ++ [255]))
    = Ok [1; 2; 0; 5; 0; 7].
Proof.
  assert (Forall (λ w, 0 ≤ w < 2 ^ 256) [1; 2; 0; 5; 0; 7]) as Hws.
  { repeat (apply Forall_cons; split; [split; [lia|reflexivity]|]).
    apply Forall_nil_2. }
  split; [exact Hws|].
  apply (result_log_roundtrip 1 2 0 5 0 7 [255] Hws).
Defined.
Section ReportFacts.
Context {W : Type}.
Variable LOG_RESULT_TOPIC : string.
Variable LOG_DATA_NAME_AND_COLOR : list (string * string).
Variable colored : string → string → string.
Implicit Types (s : run_state W).

Local Abbreviation pretty_parts :=
  (Account.pretty_parts LOG_DATA_NAME_AND_COLOR colored).
Local Abbreviation report_logs :=
  (Account.report_logs (W:=W) LOG_RESULT_TOPIC LOG_DATA_NAME_AND_COLOR colored).
Local Abbreviation report_receipt :=
  (Account.report_receipt (W:=W) LOG_RESULT_TOPIC LOG_DATA_NAME_AND_COLOR colored).

(** What is reported of one value with its entry of
    [LOG_DATA_NAME_AND_COLOR]. *)
Local Abbreviation part x :=
  (colored (pretty (x.1 : Z) +:+ " " +:+ (x.2).1) (x.2).2).

Lemma pretty_parts_spec (i : nat) (vals : list Z) :
  (i + length vals ≤ length LOG_DATA_NAME_AND_COLOR)%nat →
  pretty_parts i vals
  = Ok ((λ x, part x)
          <$> filter (λ x, x.1 ≠ 0) (zip vals (drop i LOG_DATA_NAME_AND_COLOR))).
Proof.
  revert i. induction vals as [|v vals IH]; intros i Hlen; [done|].
  simpl in Hlen. cbn [Account.pretty_parts].
  destruct (lookup_lt_is_Some_2 LOG_DATA_NAME_AND_COLOR i ltac:(lia)) as [[name color] Hi].
  rewrite (drop_S _ _ _ Hi). cbn [zip zip_with]. rewrite filter_cons. simpl.
  rewrite IH by lia. destruct (decide (v = 0)) as [->|Hv].
  - by destruct (decide (0 ≠ 0)).
  - rewrite Hi. simpl. by destruct (decide (v ≠ 0)).
Qed.

(** X14.  What [tx_verification] reports of a result log whose
    data starts with six words [w0 .. w5]: one line "Received: ..."
    between two blank lines, listing of [w2 .. w5] (the first two words
    are never shown) those that are not zero, each with its name from
    LOG_DATA_NAME_AND_COLOR, in payload order. *)
Theorem result_log_is_reported (self_idx : string) (ts : list string)
    (w0 w1 w2 w3 w4 w5 : Z) (extra : list Z) s :
  Forall (λ w, 0 ≤ w < 2 ^ 256) [w0; w1; w2; w3; w4; w5] →
  (4 ≤ length LOG_DATA_NAME_AND_COLOR)%nat →
  report_logs self_idx
    [{| Account.topics := Some (LOG_RESULT_TOPIC :: ts);
        Account.data := Some (Payload.words [w0; w1; w2; w3; w4; w5] ++ extra) |}] s
  = (Ok tt,
     add_trace
       [EvPrint;
        EvLog INFO
          (self_idx +:+ ") Received: "
           +:+ Account.join_comma
                 ((λ x, part x)
                    <$> filter (λ x, x.1 ≠ 0)
                          (zip [w2; w3; w4; w5] LOG_DATA_NAME_AND_COLOR)));
        EvPrint] s).
Proof.
  intros Hws Hnames. cbn [Account.report_logs Account.topics Account.data].
  destruct (decide (LOG_RESULT_TOPIC ≠ LOG_RESULT_TOPIC)) as [|_]; [done|].
  unfold eff_bind at 1, Account.of_result at 1.
  rewrite log_values_words by done.
  unfold eff_bind at 1, Account.of_result at 1.
  change (drop 2 [w0; w1; w2; w3; w4; w5]) with [w2; w3; w4; w5].
  rewrite pretty_parts_spec by (simpl; lia). rewrite drop_0.
  unfold eff_bind. rewrite emit_eq, log_eq, emit_eq. unfold eff_ret.
  by rewrite !add_trace_add_trace.
Qed.

Lemma log_values_length (digits : list Z) :
  ((320 < length digits)%nat →
     ∃ vs, Account.log_values digits = Ok vs ∧ length vs = 6%nat)
  ∧ ((length digits ≤ 320)%nat →
     Account.log_values digits
     = Raise (Exn (OtherError "ValueError")
                "invalid literal for int() with base 16: ''")).
Proof.
  unfold Account.log_values. cbn [seq foldr]. split.
  - intros Hlen.
    assert (∀ i : nat, (i ≤ 5)%nat →
              ∃ d ds, take 64 (drop (64 * i) digits) = d :: ds) as Hne.
    { intros i Hi. destruct (take 64 (drop (64 * i) digits)) as [|d ds] eqn:Ht; [|eauto].
      apply (f_equal length) in Ht. rewrite length_take, length_drop in Ht.
      cbn [length] in Ht. lia. }
    destruct (Hne 0%nat ltac:(lia)) as (? & ? & ->).
    destruct (Hne 1%nat ltac:(lia)) as (? & ? & ->).
    destruct (Hne 2%nat ltac:(lia)) as (? & ? & ->).
    destruct (Hne 3%nat ltac:(lia)) as (? & ? & ->).
    destruct (Hne 4%nat ltac:(lia)) as (? & ? & ->).
    destruct (Hne 5%nat ltac:(lia)) as (? & ? & ->).
    simpl. eauto.
  - intros Hlen.
    assert (take 64 (drop (64 * 5) digits) = []) as ->.
    { rewrite drop_ge by lia. done. }
    repeat match goal with
           | |- context [match take 64 (drop ?k digits) with _ => _ end] =>
               destruct (take 64 (drop k digits))
           end; done.
Qed.

(** X15.  A result log with at most 160 bytes of data has no sixth
    word: decoding it fails, the bare [except] swallows the failure, and
    the report of the receipt ends there - only the status line is left,
    and the logs that follow in the same receipt are not looked at. *)
Theorem short_result_log_ends_report (self_idx action tx_link : string)
    (status : option Z) (ts : list string) (bytes : list Z)
    (later : list Account.receipt_log) s :
  (length bytes ≤ 160)%nat →
  report_receipt self_idx action tx_link
    {| Account.status := status;
       Account.logs :=
         Some ({| Account.topics := Some (LOG_RESULT_TOPIC :: ts);
                  Account.data := Some bytes |} :: later) |} s
  = (Ok tt,
     add_trace
       [EvLog (if decide (status = Some 1) then SUCCESS else ERROR)
          (self_idx +:+ ") " +:+ action
           +:+ (if decide (status = Some 1)
                then " - Successful tx: " else " - Failed tx: ")
           +:+ tx_link)] s).
Proof.
  intros Hlen. unfold Account.report_receipt, eff_bind at 1.
  cbn [Account.status Account.logs].
  assert (Account.log_values (Account.hex_digits bytes)
          = Raise (Exn (OtherError "ValueError")
                     "invalid literal for int() with base 16: ''")) as Hraise.
  { apply log_values_length. rewrite length_hex_digits. lia. }
  destruct (decide (status = Some 1)); rewrite log_eq;
    unfold try_except; cbn [Account.report_logs Account.topics Account.data];
    (destruct (decide (LOG_RESULT_TOPIC ≠ LOG_RESULT_TOPIC)) as [|_]; [done|]);
    unfold eff_bind at 1, Account.of_result at 1; by rewrite Hraise.
Qed.
End ReportFacts.

Lemma result_log_is_reported_witness :
  Forall (λ w, 0 ≤ w < 2 ^ 256) [1; 2; 0; 5; 0; 7]
  ∧ (4 ≤ length [("uncommon", "white"); ("rare", "blue");
                 ("legendary", "yellow"); ("mythical", "red")])%nat
  ∧ Account.report_logs (W:=unit) "0xtopic"
      [("uncommon", "white"); ("rare", "blue");
       ("legendary", "yellow"); ("mythical", "red")] (λ t _, t) "1"
      [{| Account.topics := Some ["0xtopic"];
          Account.data := Some (Payload.words [1; 2; 0; 5; 0; 7]) |}] Samples.s0
    = (Ok tt,
       RunState [] tt
         [EvPrint; EvLog INFO "1) Received: 5 rare, 7 mythical"; EvPrint]).
Proof.
  assert (Forall (λ w, 0 ≤ w < 2 ^ 256) [1; 2; 0; 5; 0; 7]) as Hws.
  { repeat (apply Forall_cons; split; [split; [lia|reflexivity]|]).
    apply Forall_nil_2. }
  split; [exact Hws|]. split; [simpl; lia|].
  pose proof (result_log_is_reported (W:=unit) "0xtopic"
                [("uncommon", "white"); ("rare", "blue");
                 ("legendary", "yellow"); ("mythical", "red")] (λ t _, t) "1" []
                1 2 0 5 0 7 [] Samples.s0 Hws ltac:(simpl; lia)) as Hrep.
  rewrite app_nil_r in Hrep. exact Hrep.
Defined.

Lemma short_result_log_ends_report_witness :
  (length [1; 2; 3] ≤ 160)%nat
  ∧ Account.report_receipt (W:=unit) "0xtopic" [] (λ t _, t) "1" "Claim" "link"
      {| Account.status := Some 1;
         Account.logs :=
           Some [{| Account.topics := Some ["0xtopic"];
                    Account.data := Some [1; 2; 3] |};
                 {| Account.topics := Some ["0xtopic"];
                    Account.data := Some (Payload.words [1; 2; 0; 5; 0; 7]) |}] |}
      Samples.s0
    = (Ok tt, RunState [] tt [EvLog SUCCESS "1) Claim - Successful tx: link"]).
Proof.
  split; [simpl; lia|].
  apply (short_result_log_ends_report (W:=unit) "0xtopic" [] (λ t _, t) "1" "Claim"
           "link" (Some 1) [] [1; 2; 3] _ Samples.s0). simpl. lia.
Defined.

(** ** Transaction confirmation: other latencies, other errors *)

Section PollLatencyFacts.
Context {W : Type}.
Variable SCAN : string.
Variable LOG_RESULT_TOPIC : string.
Variable LOG_DATA_NAME_AND_COLOR : list (string * string).
Variable colored : string → string → string.
Variable get_transaction_receipt : string → W → result (option Account.receipt) * W.
Implicit Types (s : run_state W) (w : W).

Local Abbreviation poll :=
  (Account.poll LOG_RESULT_TOPIC LOG_DATA_NAME_AND_COLOR colored get_transaction_receipt).
Local Abbreviation tx_verification :=
  (Account.tx_verification SCAN LOG_RESULT_TOPIC LOG_DATA_NAME_AND_COLOR colored
     get_transaction_receipt).
Local Abbreviation world_after := (Account.world_after get_transaction_receipt).
Local Abbreviation answer := (Account.answer get_transaction_receipt).
Local Abbreviation no_receipt := Account.no_receipt.
Local Abbreviation idle_rounds := Account.idle_rounds.

Lemma idle_rounds_S (n : nat) (p : Z) :
  idle_rounds (S n) p
  = [EvCall "eth.get_transaction_receipt"; EvSleep (Seconds p)] ++ idle_rounds n p.
Proof. done. Qed.

Lemma poll_idle_any (n fuel : nat) self_idx action tx_hash link (t p : Z) s :
  (∀ k, (k < n)%nat →
     no_receipt (answer tx_hash (world_after tx_hash k (outside s)))) →
  (∀ k, (k < n)%nat → t + Z.of_nat k * p < 150) →
  poll (n + fuel) self_idx action tx_hash link t p s
  = poll fuel self_idx action tx_hash link (t + Z.of_nat n * p) p
      (add_trace (idle_rounds n p)
         (set_outside (world_after tx_hash n (outside s)) s)).
Proof.
  revert t s. induction n as [|n IH]; intros t s Hno Ht.
  - simpl. rewrite Z.add_0_r. f_equal. destruct s.
    unfold add_trace, set_outside, Account.idle_rounds. simpl. by rewrite app_nil_r.
  - replace (S n + fuel)%nat with (S (n + fuel)) by lia.
    rewrite (poll_idle_round LOG_RESULT_TOPIC LOG_DATA_NAME_AND_COLOR colored
               get_transaction_receipt);
      [|specialize (Ht 0%nat ltac:(lia)); lia|apply (Hno 0%nat); lia].
    rewrite IH.
    + f_equal; [lia|]. unfold add_trace, set_outside. simpl.
      rewrite <- (world_after_S get_transaction_receipt). f_equal.
      rewrite <- (assoc_L (++)). f_equal.
    + intros k Hk. simpl. rewrite <- (world_after_S get_transaction_receipt).
      apply Hno. lia.
    + intros k Hk. specialize (Ht (S k) ltac:(lia)). lia.
Qed.

(** X16.  The budget of 150 seconds is counted in poll latencies: with
    [poll_latency = p >= 1] and no receipt, [tx_verification] makes
    exactly ceil(150 / p) queries, sleeps [p] after each, then logs the
    WARNING "Pending tx" and returns normally. *)
Theorem tx_verification_budget (fuel : nat) (a : Account.account)
    (tx_hash action : string) (p : Z) s :
  1 ≤ p →
  let rounds := Z.to_nat ((149 + p) `div` p) in
  (rounds < fuel)%nat →
  (∀ k, (k < rounds)%nat →
     no_receipt (answer tx_hash (world_after tx_hash k (outside s)))) →
  tx_verification fuel a tx_hash action p s
  = (Ok (Some tt),
     add_trace
       (EvLog INFO (Account.idx a +:+ ") " +:+ action +:+ " - Tx sent")
        :: idle_rounds rounds p
        ++ [EvLog WARNING (Account.idx a +:+ ") " +:+ action +:+ " - Pending tx: "
                           +:+ (SCAN +:+ "/tx/" +:+ tx_hash))])
       (set_outside (world_after tx_hash rounds (outside s)) s)).
Proof.
  intros Hp rounds Hfuel Hno.
  pose proof (Z.div_mod (149 + p) p ltac:(lia)) as Hdm.
  pose proof (Z.mod_pos_bound (149 + p) p ltac:(lia)) as Hmod.
  assert (0 ≤ (149 + p) `div` p) as Hq by (apply Z.div_pos; lia).
  assert (Z.of_nat rounds = (149 + p) `div` p) as Hr by (unfold rounds; lia).
  unfold Account.tx_verification, eff_bind. rewrite log_eq.
  replace fuel with (rounds + S (fuel - rounds - 1))%nat by lia.
  rewrite poll_idle_any; [|exact Hno|].
  - rewrite (poll_timeout LOG_RESULT_TOPIC LOG_DATA_NAME_AND_COLOR colored
               get_transaction_receipt) by nia.
    f_equal. unfold add_trace, set_outside. simpl. f_equal.
    by rewrite <- !(assoc_L (++)).
  - intros k Hk. nia.
Qed.

(** X17.  With [poll_latency <= 0] the time counted never reaches the
    budget: against a chain that never has a receipt the loop is not
    left, however many rounds it is given - every round is a query and a
    sleep of [poll_latency], and no "Pending tx" is ever logged. *)
Theorem tx_verification_needs_positive_latency (fuel : nat) (a : Account.account)
    (tx_hash action : string) (p : Z) s :
  p ≤ 0 →
  (∀ k, no_receipt (answer tx_hash (world_after tx_hash k (outside s)))) →
  tx_verification fuel a tx_hash action p s
  = (Ok None,
     add_trace
       (EvLog INFO (Account.idx a +:+ ") " +:+ action +:+ " - Tx sent")
        :: idle_rounds fuel p)
       (set_outside (world_after tx_hash fuel (outside s)) s)).
Proof.
  intros Hp Hno. unfold Account.tx_verification, eff_bind. rewrite log_eq.
  replace fuel with (fuel + 0)%nat at 1 by lia.
  rewrite poll_idle_any; [|intros k _; apply Hno|intros k _; nia].
  simpl. unfold eff_ret. f_equal. unfold add_trace, set_outside. simpl. f_equal.
  by rewrite <- !(assoc_L (++)).
Qed.

(** X18.  Only TransactionNotFound is taken for "no receipt yet": if a
    receipt query raises any other exception while the budget lasts,
    [tx_verification] raises that exception at once - after the idle
    rounds before it, without sleeping, logging a status or "Pending
    tx". *)
Theorem tx_verification_rpc_error (fuel n : nat) (a : Account.account)
    (tx_hash action : string) (p : Z) (e : exn) s :
  0 ≤ p → Z.of_nat n * p < 150 → (n < fuel)%nat →
  (∀ k, (k < n)%nat →
     no_receipt (answer tx_hash (world_after tx_hash k (outside s)))) →
  answer tx_hash (world_after tx_hash n (outside s)) = Raise e →
  exn_cls e ≠ TransactionNotFound →
  tx_verification fuel a tx_hash action p s
  = (Raise e,
     add_trace
       (EvLog INFO (Account.idx a +:+ ") " +:+ action +:+ " - Tx sent")
        :: idle_rounds n p ++ [EvCall "eth.get_transaction_receipt"])
       (set_outside (world_after tx_hash (S n) (outside s)) s)).
Proof.
  intros Hp Hn Hfuel Hno Hans Hcls.
  unfold Account.tx_verification, eff_bind at 1. rewrite log_eq.
  replace fuel with (n + S (fuel - n - 1))%nat by lia.
  rewrite poll_idle_any; [|exact Hno|intros k Hk; nia].
  cbn [Account.poll]. destruct (decide (0 + Z.of_nat n * p < 150)) as [_|]; [|lia].
  unfold eff_bind at 1, try_except, eff_bind at 1. rewrite call_eq.
  unfold Account.answer in Hans. simpl. rewrite Hans.
  destruct (exn_cls e) eqn:Hc; try done;
    unfold raise; f_equal; unfold add_trace, set_outside, Account.world_after;
    simpl; f_equal; by rewrite <- !(assoc_L (++)).
Qed.
End PollLatencyFacts.

Lemma tx_verification_budget_witness :
  1 ≤ 50
  ∧ (Z.to_nat ((149 + 50) `div` 50) < 4)%nat
  ∧ Account.tx_verification (W:=unit) "https://scan" "0xtopic" [] (λ t _, t)
      (λ _ w, (Ok None, w)) 4 (Samples.account0 None (Some "key")) "0xhash"
      "Claim" 50 Samples.s0
    = (Ok (Some tt),
       RunState [] tt
         [EvLog INFO "1) Claim - Tx sent";
          EvCall "eth.get_transaction_receipt"; EvSleep (Seconds 50);
          EvCall "eth.get_transaction_receipt"; EvSleep (Seconds 50);
          EvCall "eth.get_transaction_receipt"; EvSleep (Seconds 50);
          EvLog WARNING "1) Claim - Pending tx: https://scan/tx/0xhash"]).
Proof.
  assert (Z.to_nat ((149 + 50) `div` 50) < 4)%nat as Hrounds.
  { change (Z.to_nat ((149 + 50) `div` 50)) with 3%nat. lia. }
  split; [lia|]. split; [exact Hrounds|].
  apply (tx_verification_budget (W:=unit) "https://scan" "0xtopic" [] (λ t _, t)
           (λ _ w, (Ok None, w)) 4 (Samples.account0 None (Some "key")) "0xhash"
           "Claim" 50 Samples.s0); [lia|exact Hrounds|].
  intros k _. left. reflexivity.
Defined.

Lemma tx_verification_needs_positive_latency_witness :
  0 ≤ 0
  ∧ Account.tx_verification (W:=unit) "https://scan" "0xtopic" [] (λ t _, t)
      (λ _ w, (Ok None, w)) 2 (Samples.account0 None (Some "key")) "0xhash"
      "Claim" 0 Samples.s0
    = (Ok None,
       RunState [] tt
         [EvLog INFO "1) Claim - Tx sent";
          EvCall "eth.get_transaction_receipt"; EvSleep (Seconds 0);
          EvCall "eth.get_transaction_receipt"; EvSleep (Seconds 0)]).
Proof.
  split; [lia|].
  apply (tx_verification_needs_positive_latency (W:=unit) "https://scan" "0xtopic"
           [] (λ t _, t) (λ _ w, (Ok None, w)) 2
           (Samples.account0 None (Some "key")) "0xhash" "Claim" 0 Samples.s0); [lia|].
  intros k. left. reflexivity.
Defined.

Lemma tx_verification_rpc_error_witness :
  0 ≤ 1 ∧ Z.of_nat 0 * 1 < 150 ∧ (0 < 151)%nat
  ∧ exn_cls Samples.unavailable ≠ TransactionNotFound
  ∧ Account.tx_verification (W:=unit) "https://scan" "0xtopic" [] (λ t _, t)
      (λ _ w, (Raise Samples.unavailable, w)) 151
      (Samples.account0 None (Some "key")) "0xhash" "Claim" 1 Samples.s0
    = (Raise Samples.unavailable,
       RunState [] tt
         [EvLog INFO "1) Claim - Tx sent"; EvCall "eth.get_transaction_receipt"]).
Proof.
  split; [lia|]. split; [lia|]. split; [lia|]. split; [discriminate|].
  apply (tx_verification_rpc_error (W:=unit) "https://scan" "0xtopic" [] (λ t _, t)
           (λ _ w, (Raise Samples.unavailable, w)) 151 0
           (Samples.account0 None (Some "key")) "0xhash" "Claim" 1
           Samples.unavailable Samples.s0); [lia|lia|lia| |reflexivity|discriminate].
  intros k Hk. lia.
Defined.
(** ** The profile refresh *)

Section RefreshFacts.
Context {W : Type}.
Variable BREATHE_SESSION_CONDITION : string.
Variable well3_generate_codes : W → result unit * W.
Variable well3_me : W → result Account.profile * W.
Implicit Types (s : run_state W) (a : Account.account).

Local Abbreviation refresh_profile :=
  (Account.refresh_profile BREATHE_SESSION_CONDITION well3_generate_codes well3_me).

Lemma apply_profile_frame (p : Account.profile) a :
  let a' := Account.apply_profile BREATHE_SESSION_CONDITION p a in
  Account.idx a' = Account.idx a
  ∧ Account.private_key a' = Account.private_key a
  ∧ Account.self_profile a' = Some p
  ∧ Storage.address (Account.info a') = Storage.address (Account.info a)
  ∧ Storage.proxy (Account.info a') = Storage.proxy (Account.info a)
  ∧ Storage.twitter_auth_token (Account.info a')
    = Storage.twitter_auth_token (Account.info a)
  ∧ Storage.daily_insight (Account.info a') = Storage.daily_insight (Account.info a)
  ∧ Storage.insights_to_open (Account.info a')
    = Storage.insights_to_open (Account.info a)
  ∧ Storage.insights (Account.info a') = Storage.insights (Account.info a)
  ∧ Storage.invite_codes (Account.info a')
    = (filter (λ rc, rc.2 = false) (Account.myReferralCodes p)).*1
  ∧ Storage.exp (Account.info a') = Account.quest_exp p
  ∧ Storage.lvl (Account.info a') = Account.quest_rank p
  ∧ Storage.pending_quests (Account.info a')
    = Z.of_nat (length (Account.pendingVerify p)).
Proof.
  unfold Account.apply_profile. simpl.
  destruct (filter _ (Account.dailyProgress p)) as [|[? t] ?]; simpl; done.
Qed.

(** X19.  [refresh_profile] changes the [Account] object only when
    both platform calls return: if [generate_codes] or [me] raises, the
    object is as before.  When it returns, the profile is loaded,
    [invite_codes] holds exactly the profile's referral codes without a
    'usedAt', and exp, level and pending-quest count mirror the profile.
    In no case does it touch the invite pool, the bound private key, the
    index, or the record's address, proxy, token and insight counts. *)
Theorem refresh_profile_outcomes a s :
  ∃ r a' s',
    refresh_profile (a, s) = (r, (a', s'))
    ∧ invites s' = invites s
    ∧ Account.idx a' = Account.idx a
    ∧ Account.private_key a' = Account.private_key a
    ∧ Storage.address (Account.info a') = Storage.address (Account.info a)
    ∧ Storage.proxy (Account.info a') = Storage.proxy (Account.info a)
    ∧ Storage.twitter_auth_token (Account.info a')
      = Storage.twitter_auth_token (Account.info a)
    ∧ Storage.insights (Account.info a') = Storage.insights (Account.info a)
    ∧ (∀ e, r = Raise e → a' = a)
    ∧ (r = Ok tt →
       ∃ p, Account.self_profile a' = Some p
            ∧ (∀ code, code ∈ Storage.invite_codes (Account.info a')
                       ↔ (code, false) ∈ Account.myReferralCodes p)
            ∧ Storage.exp (Account.info a') = Account.quest_exp p
            ∧ Storage.lvl (Account.info a') = Account.quest_rank p
            ∧ Storage.pending_quests (Account.info a')
              = Z.of_nat (length (Account.pendingVerify p))).
Proof.
  unfold Account.refresh_profile, eff_bind at 1. rewrite lift_call_eq.
  destruct (well3_generate_codes (outside s)) as [[[]|e] w1]; simpl.
  2:{ eexists _, _, _. split; [done|]. by repeat split. }
  unfold eff_bind at 1. rewrite lift_call_eq. simpl.
  destruct (well3_me w1) as [[p|e] w2]; simpl.
  2:{ eexists _, _, _. split; [done|]. by repeat split. }
  unfold eff_bind, Account.get_self, Account.set_self. cbn [fst snd].
  destruct (apply_profile_frame p a)
    as (Hidx & Hkey & Hprof & Haddr & Hproxy & Htok & _ & _ & Hins & Hcodes
        & Hexp & Hlvl & Hpend).
  set (a' := Account.apply_profile BREATHE_SESSION_CONDITION p a) in *.
  exists (Ok tt), a', (add_trace [EvCall "well3.me"]
                         (set_outside w2 (add_trace [EvCall "well3.generate_codes"]
                                            (set_outside w1 s)))).
  split; [done|]. split; [done|].
  repeat (split; [assumption|]). split; [done|].
  intros _. exists p. split; [done|]. split; [|done].
  intros code. rewrite Hcodes, list_elem_of_fmap. split.
  - intros [[c used] [-> [Hused Hin]%list_elem_of_filter]]. simpl in *. by subst.
  - intros Hin. exists (code, false). split; [done|].
    apply list_elem_of_filter. done.
Qed.
End RefreshFacts.

Lemma refresh_profile_outcomes_witness :
  ∃ a' s',
    Account.refresh_profile (W:=unit) "breathe" (λ w, (Ok tt, w))
      (λ w, (Ok (Samples.profile0 None), w))
      (Samples.account0 None (Some "key"), Samples.s0) = (Ok tt, (a', s'))
    ∧ Account.private_key a' = Some "key"
    ∧ ("CODE1" ∈ Storage.invite_codes (Account.info a')
       ↔ ("CODE1", false) ∈ Account.myReferralCodes (Samples.profile0 None)).
Proof.
  destruct (refresh_profile_outcomes (W:=unit) "breathe" (λ w, (Ok tt, w))
              (λ w, (Ok (Samples.profile0 None), w))
              (Samples.account0 None (Some "key")) Samples.s0)
    as (r & a' & s' & Hrun & _ & _ & Hkey & _ & _ & _ & _ & _ & Hok).
  assert (r = Ok tt) as -> by (by injection Hrun as <- _ _).
  destruct (Hok eq_refl) as (p & Hp & Hcodes & _).
  assert (p = Samples.profile0 None) as ->.
  { injection Hrun as <- _. by injection Hp as <-. }
  exists a', s'. split; [exact Hrun|]. split; [exact Hkey|]. apply Hcodes.
Defined.

(** ** The error handler of a batch *)

Section SplitFacts.

Lemma splitlines_from_plain (cur : list ascii) (line rest : string) :
  Forall (λ c, is_line_boundary c = false) (list_ascii_of_string line) →
  splitlines_from cur (line +:+ rest)
  = splitlines_from (reverse (list_ascii_of_string line) ++ cur) rest.
Proof.
  revert cur. induction line as [|c line IH]; intros cur Hplain; [done|].
  simpl in Hplain. apply Forall_cons in Hplain as [Hc Hplain].
  change (String c line +:+ rest) with (String c (line +:+ rest)).
  cbn [splitlines_from]. rewrite Hc.
  rewrite IH by done. cbn [list_ascii_of_string].
  rewrite reverse_cons, <- (assoc_L (++)). done.
Qed.

Lemma append_nil_r (s : string) : s +:+ "" = s.
Proof.
  induction s as [|c s IH]; [done|].
  change (String c s +:+ "") with (String c (s +:+ "")). by rewrite IH.
Qed.

Lemma splitlines_one_line (line : string) :
  line ≠ "" →
  Forall (λ c, is_line_boundary c = false) (list_ascii_of_string line) →
  splitlines line = [line].
Proof.
  intros Hne Hplain. unfold splitlines.
  rewrite <- (append_nil_r line) at 1.
  rewrite splitlines_from_plain by done. rewrite app_nil_r. simpl.
  destruct (reverse (list_ascii_of_string line)) as [|c cs] eqn:Hr.
  - apply (f_equal reverse) in Hr. rewrite reverse_involutive in Hr.
    destruct line; [done|discriminate].
  - rewrite <- Hr, reverse_involutive. by rewrite string_of_list_ascii_of_string.
Qed.

Lemma splitlines_first_line (line rest : string) :
  Forall (λ c, is_line_boundary c = false) (list_ascii_of_string line) →
  splitlines (line +:+ String "010" rest) = line :: splitlines rest.
Proof.
  intros Hplain. unfold splitlines. rewrite splitlines_from_plain by done.
  rewrite app_nil_r. cbn [splitlines_from].
  change (is_line_boundary "010") with true. cbv iota.
  rewrite reverse_involutive, string_of_list_ascii_of_string. f_equal.
  destruct rest as [|c' rest']; [done|].
  rewrite bool_decide_eq_false_2; [done|]. by intros [[=] _].
Qed.
End SplitFacts.

Section HandlerFacts.
Context {W : Type}.
Variable now : W → string.
Variable file_open : string → W → result unit * W.
Variable file_write : string → string → W → result unit * W.
Implicit Types (s : run_state W) (d : Main.account_entry).

Local Abbreviation report_error := (Main.report_error now file_open file_write).

(** X20.  What the [except] block of [process_batch] does, by the text
    of the exception.  A message on one line is logged as one ERROR line
    with the account's index (an empty message as a single space); no
    file is opened and the block ends normally.  A newline at the very
    end does not count as a second line.  A message that goes on after a
    newline is logged with its first line only; then logs/errors.txt is
    opened and the whole message written to it with a timestamp taken
    once the file is open.  If opening or writing raises, that exception
    leaves the block with nothing recorded as written; otherwise the
    block ends normally. *)
Theorem report_error_by_message d (cls : exn_class) (line rest : string) s :
  Forall (λ c, is_line_boundary c = false) (list_ascii_of_string line) →
  report_error d (Exn cls line) s
  = (Ok tt,
     add_trace [EvLog ERROR (pretty d.1 +:+ ") Process account error: "
                             +:+ (if decide (line = "") then " " else line))] s)
  ∧ report_error d (Exn cls (line +:+ String "010" "")) s
    = (Ok tt,
       add_trace [EvLog ERROR (pretty d.1 +:+ ") Process account error: " +:+ line)] s)
  ∧ (rest ≠ "" →
     report_error d (Exn cls (line +:+ String "010" rest)) s
     = let logged :=
         EvLog ERROR (pretty d.1 +:+ ") Process account error: " +:+ line) in
       match file_open "logs/errors.txt" (outside s) with
       | (Raise e', w1) =>
           (Raise e', add_trace [logged; EvCall "aiofiles.open"] (set_outside w1 s))
       | (Ok _, w1) =>
           let text := now w1 +:+ " | " +:+ pretty d.1
                       +:+ ") Process account error: "
                       +:+ (line +:+ String "010" rest) in
           match file_write "logs/errors.txt" text w1 with
           | (Raise e', w2) =>
               (Raise e',
                add_trace [logged; EvCall "aiofiles.open"; EvCall "file.write"]
                  (set_outside w2 s))
           | (Ok _, w2) =>
               (Ok tt,
                add_trace [logged; EvCall "aiofiles.open"; EvCall "file.write";
                           EvAppendFile "logs/errors.txt" text]
                  (set_outside w2 s))
           end
       end).
Proof.
  intros Hplain.
  assert (∀ r, Main.error_text (Exn cls (line +:+ String "010" r))
               = line +:+ String "010" r) as Htext.
  { intros r. unfold Main.error_text, str_of_exn. simpl.
    destruct (decide (line +:+ String "010" r = "")) as [He|]; [|done].
    by destruct line. }
  split; [|split].
  - destruct (decide (line = "")) as [->|Hne].
    + by apply report_error_one_line.
    + apply report_error_one_line. unfold Main.error_text, str_of_exn. simpl.
      rewrite decide_False by done. by apply splitlines_one_line.
  - apply report_error_one_line. rewrite Htext.
    by rewrite (splitlines_first_line line "" Hplain).
  - intros Hrest.
    destruct (splitlines rest) as [|l2 more] eqn:Hl.
    { by apply splitlines_from_nonempty in Hl; [|right]. }
    rewrite (report_error_more_lines now file_open file_write d _ line l2 more s).
    + by rewrite Htext.
    + by rewrite Htext, (splitlines_first_line line rest Hplain), Hl.
Qed.
End HandlerFacts.

Lemma report_error_by_message_witness :
  Forall (λ c, is_line_boundary c = false) (list_ascii_of_string "Sign in failed")
  ∧ "<html>502</html>" ≠ ""
  ∧ Main.report_error (W:=unit) (λ _, "2024-01-01 00:00:00") Samples.open_missing
      Samples.write_ok (Samples.entry 1)
      (Exn PlainException ("Sign in failed" +:+ String "010" "<html>502</html>"))
      Samples.s0
    = (Raise (Exn FileNotFoundError
                "[Errno 2] No such file or directory: 'logs/errors.txt'"),
       RunState [] tt [EvLog ERROR "1) Process account error: Sign in failed";
                       EvCall "aiofiles.open"]).
Proof.
  assert (Forall (λ c, is_line_boundary c = false)
            (list_ascii_of_string "Sign in failed")) as Hplain.
  { repeat (apply Forall_cons; split; [reflexivity|]). apply Forall_nil_2. }
  split; [exact Hplain|]. split; [discriminate|].
  destruct (report_error_by_message (W:=unit) (λ _, "2024-01-01 00:00:00")
              Samples.open_missing Samples.write_ok
              (Samples.entry 1) PlainException "Sign in failed" "<html>502</html>"
              Samples.s0 Hplain)
    as (_ & _ & Hmore).
  rewrite Hmore by discriminate. reflexivity.
Defined.

(** ** What the methods may leave behind *)

Section LeavesFacts.
Context {W : Type}.
Implicit Types (P : event → Prop) (s : run_state W).

Lemma leaves_ret {A} P (a : A) : leaves (W:=W) P (eff_ret a).
Proof. intros s. exists (Ok a), s, []. by rewrite app_nil_r. Qed.

Lemma leaves_raise {A} P (e : exn) : leaves (W:=W) (A:=A) P (raise e).
Proof. intros s. exists (Raise e), s, []. by rewrite app_nil_r. Qed.

Lemma leaves_emit P (e : event) : P e → leaves (W:=W) P (emit e).
Proof.
  intros He s. eexists (Ok tt), _, [e]. split; [done|].
  split; [done|]. split; [done|]. by apply Forall_singleton.
Qed.

Lemma leaves_log P lv msg : P (EvLog lv msg) → leaves (W:=W) P (log lv msg).
Proof. apply leaves_emit. Qed.

Lemma leaves_call {A} P name (f : W → result A * W) :
  P (EvCall name) → leaves P (call name f).
Proof.
  intros He s. rewrite call_eq. eexists _, _, [EvCall name]. split; [done|].
  split; [done|]. split; [done|]. by apply Forall_singleton.
Qed.

Lemma leaves_read {A} P (f : W → A) :
  leaves (W:=W) P (λ s, (Ok (f (outside s)), s)).
Proof. intros s. eexists _, s, []. by rewrite app_nil_r. Qed.

Lemma leaves_bind {A B} P (m : eff (run_state W) A) (k : A → eff (run_state W) B) :
  leaves P m → (∀ a, leaves P (k a)) → leaves P (eff_bind m k).
Proof.
  intros Hm Hk s. destruct (Hm s) as (r & s1 & new1 & Hrun & Hinv & Htr & HP).
  unfold eff_bind. rewrite Hrun. destruct r as [a|e].
  - destruct (Hk a s1) as (r & s2 & new2 & Hrun2 & Hinv2 & Htr2 & HP2).
    exists r, s2, (new1 ++ new2). split; [done|]. split; [congruence|].
    split; [by rewrite Htr2, Htr, (assoc_L (++))|]. by apply Forall_app.
  - by exists (Raise e), s1, new1.
Qed.

Lemma leaves_try {A} P (m : eff (run_state W) A) (h : exn → eff (run_state W) A) :
  leaves P m → (∀ e, leaves P (h e)) → leaves P (try_except m h).
Proof.
  intros Hm Hh s. destruct (Hm s) as (r & s1 & new1 & Hrun & Hinv & Htr & HP).
  unfold try_except. rewrite Hrun. destruct r as [a|e].
  - by exists (Ok a), s1, new1.
  - destruct (Hh e s1) as (r & s2 & new2 & Hrun2 & Hinv2 & Htr2 & HP2).
    exists r, s2, (new1 ++ new2). split; [done|]. split; [congruence|].
    split; [by rewrite Htr2, Htr, (assoc_L (++))|]. by apply Forall_app.
Qed.

Lemma leaves_weaken {A} P Q (m : eff (run_state W) A) :
  (∀ e, P e → Q e) → leaves P m → leaves Q m.
Proof.
  intros HPQ Hm s. destruct (Hm s) as (r & s1 & new1 & Hrun & Hinv & Htr & HP).
  exists r, s1, new1. repeat split; try done. by eapply Forall_impl.
Qed.

Lemma count_calls_none name (evs : list event) :
  Forall (λ e, e ≠ EvCall name) evs → count_calls name evs = 0%nat.
Proof.
  intros H. unfold count_calls. induction H as [|e evs He _ IH]; [done|].
  rewrite filter_cons. by destruct (decide (e = EvCall name)).
Qed.
End LeavesFacts.
(** ** Quests *)

Section QuestFacts.
Context {W : Type}.
Variable FAKE_TWITTER : bool.
Variable BREATHE_SESSION_CONDITION : string.
Variable SHARE_TWEET_FORMAT : string.
Variable self_idx : string.
Variable self_quests : string → option (list (string * Quests.quest)).
Variable self_pending_quests : list string.
Variable self_invite_codes : list string.
Variable well3_claim_exp : string → W → result unit * W.
Variable well3_complete_breath_session : W → result unit * W.
Variable twitter_post_tweet : string → W → result string * W.
Variable twitter_follow : string → W → result unit * W.
Variable twitter_retweet : string → W → result unit * W.
Variable twitter_like : string → W → result bool * W.
Variable time_ms : W → Z.
Variable str_timedelta : Z → string.
Variable random_sample : list nat → nat → W → list nat * W.
Variable wait_a_bit : option duration → W → result unit * W.
Implicit Types (s : run_state W).

Local Abbreviation tweet_text :=
  (Quests.tweet_text SHARE_TWEET_FORMAT self_invite_codes).
Local Abbreviation post_tweet_loop :=
  (Quests.post_tweet_loop (W:=W) SHARE_TWEET_FORMAT self_invite_codes twitter_post_tweet).
Local Abbreviation post_tweet :=
  (Quests.post_tweet (W:=W) SHARE_TWEET_FORMAT self_invite_codes twitter_post_tweet
     random_sample).
Local Abbreviation do_breathe :=
  (Quests.do_breathe (W:=W) self_idx well3_complete_breath_session time_ms
     str_timedelta).
Local Abbreviation do_special :=
  (Quests.do_special (W:=W) FAKE_TWITTER SHARE_TWEET_FORMAT self_idx
     self_invite_codes twitter_post_tweet twitter_follow twitter_retweet
     twitter_like random_sample wait_a_bit).
Local Abbreviation do_task :=
  (Quests.do_task (W:=W) FAKE_TWITTER BREATHE_SESSION_CONDITION SHARE_TWEET_FORMAT
     self_idx self_invite_codes well3_complete_breath_session twitter_post_tweet
     twitter_follow twitter_retweet twitter_like time_ms str_timedelta
     random_sample wait_a_bit).
Local Abbreviation quests_loop :=
  (Quests.quests_loop (W:=W) FAKE_TWITTER BREATHE_SESSION_CONDITION
     SHARE_TWEET_FORMAT self_idx self_pending_quests self_invite_codes
     well3_claim_exp well3_complete_breath_session twitter_post_tweet
     twitter_follow twitter_retweet twitter_like time_ms str_timedelta
     random_sample wait_a_bit).
Local Abbreviation do_quests_batch :=
  (Quests.do_quests_batch (W:=W) FAKE_TWITTER BREATHE_SESSION_CONDITION
     SHARE_TWEET_FORMAT self_idx self_quests self_pending_quests self_invite_codes
     well3_claim_exp well3_complete_breath_session twitter_post_tweet
     twitter_follow twitter_retweet twitter_like time_ms str_timedelta
     random_sample wait_a_bit).

Local Abbreviation is_duplicate e :=
  (contains "Status is a duplicate" (str_of_exn e) = true).

Lemma post_tweet_loop_spec (positions : list nat) (last_exc : exn) s :
  ∃ r s' (k : nat),
    post_tweet_loop positions last_exc s = (r, s')
    ∧ invites s' = invites s
    ∧ trace s' = trace s ++ replicate k (EvCall "twitter.post_tweet")
    ∧ (k ≤ length positions)%nat
    ∧ (positions ≠ [] → 1 ≤ k)%nat
    ∧ (∀ url, r = Ok url →
         ∃ i w, i ∈ positions ∧ (twitter_post_tweet (tweet_text i) w).1 = Ok url)
    ∧ (∀ e, r = Raise e →
         (positions = [] ∧ e = last_exc)
         ∨ ∃ i w, i ∈ positions
                  ∧ (twitter_post_tweet (tweet_text i) w).1 = Raise e
                  ∧ (is_duplicate e → k = length positions)).
Proof.
  revert last_exc s. induction positions as [|i rest IH]; intros last_exc s.
  { exists (Raise last_exc), s, 0%nat. simpl. rewrite app_nil_r.
    repeat split; try done. intros e [= <-]. by left. }
  cbn [Quests.post_tweet_loop]. unfold try_except. rewrite call_eq.
  destruct (twitter_post_tweet (tweet_text i) (outside s)) as [[url|e] w1] eqn:Hpost;
    cbn [fst snd].
  - exists (Ok url), (add_trace [EvCall "twitter.post_tweet"] (set_outside w1 s)), 1%nat.
    split; [done|]. split; [done|]. split; [done|]. split; [simpl; lia|].
    split; [done|]. split.
    + intros ? [= <-]. exists i, (outside s). split; [by left|]. by rewrite Hpost.
    + done.
  - destruct (contains "Status is a duplicate" (str_of_exn e)) eqn:Hdup.
    + destruct (IH e (add_trace [EvCall "twitter.post_tweet"] (set_outside w1 s)))
        as (r & s' & k & Hrun & Hinv & Htr & Hk & Hk1 & Hok & Herr).
      exists r, s', (S k). split; [done|]. split; [done|]. split.
      { rewrite Htr. simpl. by rewrite <- (assoc_L (++)). }
      split; [simpl; lia|]. split; [lia|]. split.
      * intros url Hr. destruct (Hok url Hr) as (j & w & Hj & Hw).
        exists j, w. split; [by right|done].
      * intros e' Hr. right. destruct (Herr e' Hr) as [[-> ->]|(j & w & Hj & Hw & Hall)].
        -- exists i, (outside s). split; [by left|]. rewrite Hpost.
           split; [done|]. intros _. simpl in *. lia.
        -- exists j, w. split; [by right|]. split; [done|].
           intros Hd. simpl. by rewrite (Hall Hd).
    + exists (Raise e), (add_trace [EvCall "twitter.post_tweet"] (set_outside w1 s)), 1%nat.
      split; [done|]. split; [done|]. split; [done|]. split; [simpl; lia|].
      split; [done|]. split; [done|].
      intros ? [= <-]. right. exists i, (outside s). split; [by left|].
      rewrite Hpost. split; [done|]. intros Hd. congruence.
Qed.

(** X21.  [post_tweet], with [random.sample] returning a permutation
    of the [parts + 1] insertion positions: it calls the social client
    at least once and at most [parts + 1] times, each time with the
    text for one of those positions, and nothing else happens.  What it
    returns is the URL of a call that succeeded; what it raises is an
    error a call raised - the placeholder "Can't send non-duplicate
    tweet" is never raised as such - and a duplicate-status error is
    raised only after all [parts + 1] positions have been tried. *)
Theorem post_tweet_outcomes s :
  let parts := length (splitlines SHARE_TWEET_FORMAT) in
  (∀ w, (random_sample (seq 0 (parts + 1)) (parts + 1) w).1 ≡ₚ seq 0 (parts + 1)) →
  ∃ r s' (k : nat),
    post_tweet s = (r, s')
    ∧ invites s' = invites s
    ∧ trace s' = trace s ++ replicate k (EvCall "twitter.post_tweet")
    ∧ (1 ≤ k ≤ parts + 1)%nat
    ∧ (∀ url, r = Ok url →
         ∃ i w, (i ≤ parts)%nat
                ∧ (twitter_post_tweet (tweet_text i) w).1 = Ok url)
    ∧ (∀ e, r = Raise e →
         ∃ i w, (i ≤ parts)%nat
                ∧ (twitter_post_tweet (tweet_text i) w).1 = Raise e
                ∧ (is_duplicate e → k = (parts + 1)%nat)).
Proof.
  intros parts Hsample. unfold Quests.post_tweet, eff_bind. fold parts.
  pose proof (Hsample (outside s)) as Hperm.
  destruct (random_sample (seq 0 (parts + 1)) (parts + 1) (outside s))
    as [positions w0]. simpl in Hperm.
  assert (length positions = (parts + 1)%nat) as Hlen
    by (by rewrite Hperm, length_seq).
  assert (∀ i, i ∈ positions → (i ≤ parts)%nat) as Hin.
  { intros i Hi. rewrite Hperm in Hi. apply elem_of_seq in Hi. lia. }
  destruct (post_tweet_loop_spec positions
              (Exn PlainException "Can't send non-duplicate tweet")
              {| invites := invites s; outside := w0; trace := trace s |})
    as (r & s' & k & Hrun & Hinv & Htr & Hk & Hk1 & Hok & Herr).
  exists r, s', k. split; [done|]. split; [done|]. split; [done|].
  split.
  { split; [|lia]. apply Hk1. intros ->. simpl in Hlen. lia. }
  split.
  - intros url Hr. destruct (Hok url Hr) as (i & w & Hi & Hw). eauto.
  - intros e Hr. destruct (Herr e Hr) as [[-> _]|(i & w & Hi & Hw & Hall)].
    { simpl in Hlen. lia. }
    exists i, w. split; [eauto|]. split; [done|]. intros Hd. rewrite <- Hlen. eauto.
Qed.

(** The collaborators [do_task] may call. *)
Local Abbreviation task_calls :=
  ["twitter.post_tweet"; "twitter.follow"; "twitter.retweet"; "wait_a_bit";
   "twitter.like"; "well3.complete_breath_session"].

Section TaskLeaves.
Variable P : event → Prop.
Hypothesis P_log : ∀ lv msg, P (EvLog lv msg).
Hypothesis P_call : ∀ name, name ∈ task_calls → P (EvCall name).

Lemma post_tweet_leaves : leaves P post_tweet.
Proof.
  intros s. unfold Quests.post_tweet, eff_bind.
  destruct (random_sample _ _ (outside s)) as [positions w0].
  destruct (post_tweet_loop_spec positions
              (Exn PlainException "Can't send non-duplicate tweet")
              {| invites := invites s; outside := w0; trace := trace s |})
    as (r & s' & k & Hrun & Hinv & Htr & _).
  exists r, s', (replicate k (EvCall "twitter.post_tweet")).
  split; [done|]. split; [done|]. split; [done|].
  apply Forall_replicate. apply P_call. set_solver.
Qed.

Lemma do_breathe_leaves (t : Quests.quest) : leaves P (do_breathe t).
Proof.
  unfold Quests.do_breathe.
  destruct (decide (Quests.value t = Quests.required t)); [apply leaves_ret|].
  apply leaves_bind; [apply leaves_read|]. intros now.
  assert (leaves P
            (call "well3.complete_breath_session" well3_complete_breath_session;;
             (if decide (Quests.required t ≤ Quests.value t + 1)
              then log SUCCESS
                     (self_idx +:+ ") Breathe session done ["
                      +:+ pretty (Quests.value t + 1) +:+ "/"
                      +:+ pretty (Quests.required t) +:+ "]")
              else log INFO
                     (self_idx +:+ ") Breathe session done ["
                      +:+ pretty (Quests.value t + 1) +:+ "/"
                      +:+ pretty (Quests.required t) +:+ "]"));;
             eff_ret false)) as Hsession.
  { apply leaves_bind; [apply leaves_call, P_call; set_solver|]. intros _.
    apply leaves_bind; [|intros _; apply leaves_ret].
    destruct (decide _); apply leaves_log, P_log. }
  destruct (Quests.nextAvailableFrom t) as [next|]; [|exact Hsession].
  destruct (decide (now < next)); [|exact Hsession].
  apply leaves_bind; [apply leaves_log, P_log|]. intros _. apply leaves_ret.
Qed.

Lemma do_special_leaves (sp : Quests.special) : leaves P (do_special sp).
Proof.
  unfold Quests.do_special.
  repeat (destruct (decide _); [|]);
    try (destruct FAKE_TWITTER; [apply leaves_ret|]);
    repeat first
      [ apply leaves_ret
      | apply leaves_log, P_log
      | apply leaves_call, P_call; set_solver
      | apply post_tweet_leaves
      | apply leaves_bind; [|intros ?]
      | match goal with |- leaves _ (if ?b then _ else _) => destruct b end ].
Qed.

Lemma do_task_leaves (t : Quests.quest) : leaves P (do_task t).
Proof.
  unfold Quests.do_task. destruct (decide _); [apply do_breathe_leaves|].
  destruct (Quests.special_of t); [apply do_special_leaves|apply leaves_ret].
Qed.
End TaskLeaves.


(** X23.  With FAKE_TWITTER on, [do_task] on a task that is not the
    breathe session calls no collaborator at all: the outside world is
    untouched, at most a warning is logged, and the answer is [True]
    for every task except the one asking for a profile name. *)
Theorem fake_twitter_calls_nothing (t : Quests.quest) s :
  FAKE_TWITTER = true →
  Quests.condition t ≠ Some BREATHE_SESSION_CONDITION →
  ∃ new,
    do_task t s
    = (Ok match Quests.special_of t with
          | Some sp =>
              negb (bool_decide (Quests.action sp = "twitter-check-profile-name"))
          | None => true
          end,
       add_trace new s)
    ∧ Forall is_log new.
Proof.
  intros Hfake Hcond. unfold Quests.do_task.
  destruct (decide _) as [|_]; [done|].
  destruct (Quests.special_of t) as [sp|].
  2:{ exists []. by rewrite add_trace_nil. }
  unfold Quests.do_special. rewrite Hfake.
  destruct (decide (Quests.action sp = "twitter-check-posted-media")) as [H1|H1].
  { exists []. rewrite add_trace_nil, bool_decide_eq_false_2; [done|]. by rewrite H1. }
  destruct (decide (Quests.action sp = "twitter-check-follow-profile")) as [H2|H2].
  { exists []. rewrite add_trace_nil, bool_decide_eq_false_2; [done|]. by rewrite H2. }
  destruct (decide (Quests.action sp = "twitter-check-retweet")) as [H3|H3].
  { exists []. rewrite add_trace_nil, bool_decide_eq_false_2; [done|]. by rewrite H3. }
  destruct (decide (Quests.action sp = "twitter-check-profile-name")) as [H4|H4].
  { eexists [_]. rewrite bool_decide_eq_true_2 by done.
    unfold eff_bind. rewrite log_eq. split; [done|]. by apply Forall_singleton. }
  rewrite bool_decide_eq_false_2 by done.
  destruct (decide (Quests.action sp = "twitter-check-profile-banner")) as [H5|H5].
  { exists []. by rewrite add_trace_nil. }
  eexists [_]. unfold eff_bind. rewrite log_eq. split; [done|]. by apply Forall_singleton.
Qed.

(** A task the loop hands to [do_task]. *)
Local Abbreviation eligible it :=
  (Quests.expClaimed it.2 = false ∧ it.1 ∉ self_pending_quests).

Lemma quests_loop_spec (items : list (string * Quests.quest)) (cnt : nat) s :
  ∃ r s' new,
    quests_loop items cnt s = (r, s')
    ∧ invites s' = invites s
    ∧ trace s' = trace s ++ new
    ∧ (∀ n, r = Ok n → n = (cnt + count_calls "well3.claim_exp" new)%nat)
    ∧ (count_calls "well3.claim_exp" new
       ≤ length (filter (λ it, eligible it) items))%nat.
Proof.
  revert cnt s. induction items as [|[task_id t] rest IH]; intros cnt s.
  { exists (Ok cnt), s, []. rewrite app_nil_r. repeat split; try done.
    intros n [= <-]. unfold count_calls. simpl. lia. }
  cbn [Quests.quests_loop]. rewrite filter_cons. cbn [fst snd].
  destruct (Quests.expClaimed t) eqn:Hclaimed.
  { destruct (IH cnt s) as (r & s' & new & Hrun & Hinv & Htr & Hn & Hle).
    exists r, s', new. rewrite decide_False by (by intros [? _]). done. }
  destruct (decide (task_id ∈ self_pending_quests)) as [Hpend|Hpend].
  { rewrite bool_decide_eq_true_2 by done. unfold eff_bind at 1. rewrite log_eq.
    destruct (IH cnt (add_trace [EvLog INFO
                (self_idx +:+ ") "
                 +:+ (Quests.clean_title (Quests.title t) +:+ " [Exp: "
                      +:+ pretty (Quests.exp t) +:+ "]")
                 +:+ " in pending verify")] s))
      as (r & s' & new & Hrun & Hinv & Htr & Hn & Hle).
    exists r, s', (EvLog INFO
                (self_idx +:+ ") "
                 +:+ (Quests.clean_title (Quests.title t) +:+ " [Exp: "
                      +:+ pretty (Quests.exp t) +:+ "]")
                 +:+ " in pending verify") :: new).
    split; [done|]. split; [done|].
    split; [rewrite Htr; simpl; by rewrite <- (assoc_L (++))|].
    rewrite decide_False by (by intros [_ ?]). done. }
  rewrite bool_decide_eq_false_2 by done. rewrite decide_True by done.
  unfold eff_bind at 1. rewrite log_eq. unfold eff_bind at 1.
  set (s1 := add_trace _ s).
  assert (∀ name, name ∈ task_calls → EvCall name ≠ EvCall "well3.claim_exp")
    as Hother.
  { intros name Hname [= ->].
    repeat (apply elem_of_cons in Hname as [Hname|Hname]; [discriminate|]).
    by apply elem_of_nil in Hname. }
  destruct (do_task_leaves (λ e, e ≠ EvCall "well3.claim_exp")
              ltac:(done) Hother t s1)
    as (r1 & s2 & new1 & Hrun1 & Hinv1 & Htr1 & Hnone).
  rewrite Hrun1. apply count_calls_none in Hnone.
  destruct r1 as [[|]|e].
  - unfold eff_bind at 1. rewrite call_eq.
    destruct (well3_claim_exp task_id (outside s2)) as [[[]|e] w3]; cbn [fst snd].
    + unfold eff_bind at 1. rewrite log_eq. unfold eff_bind at 1. rewrite call_eq.
      set (s3 := add_trace _ (add_trace _ _)).
      destruct (wait_a_bit (Some (Uniform 3 5)) (outside s3)) as [[[]|e] w4];
        cbn [fst snd].
      * destruct (IH (S cnt) (add_trace [EvCall "wait_a_bit"] (set_outside w4 s3)))
          as (r & s' & new & Hrun & Hinv & Htr & Hn & Hle).
        eexists r, s', (_ :: new1 ++ [EvCall "well3.claim_exp"; _; EvCall "wait_a_bit"] ++ new).
        split; [done|]. split; [rewrite Hinv; exact Hinv1|]. split.
        { rewrite Htr. unfold s3. simpl. rewrite Htr1. unfold s1. simpl.
          by rewrite <- !(assoc_L (++)). }
        assert (count_calls "well3.claim_exp"
                  (EvLog INFO (self_idx +:+ ") "
                     +:+ (Quests.clean_title (Quests.title t) +:+ " [Exp: "
                          +:+ pretty (Quests.exp t) +:+ "]"))
                   :: new1
                   ++ [EvCall "well3.claim_exp";
                       EvLog SUCCESS (self_idx +:+ ") Claimed exp or started verification");
                       EvCall "wait_a_bit"] ++ new)
                = S (count_calls "well3.claim_exp" new)) as ->.
        { change (?e :: new1 ++ ?l ++ new) with ([e] ++ new1 ++ l ++ new).
          rewrite !count_calls_app, Hnone. done. }
        split; [|simpl; lia]. intros n Hr. rewrite (Hn n Hr). lia.
      * eexists _, _, (_ :: new1 ++ [EvCall "well3.claim_exp"; _; EvCall "wait_a_bit"]).
        split; [done|]. split; [exact Hinv1|]. split.
        { unfold s3. simpl. rewrite Htr1. unfold s1. simpl.
          by rewrite <- !(assoc_L (++)). }
        split; [done|].
        change (?e :: new1 ++ ?l) with ([e] ++ new1 ++ l).
        rewrite !count_calls_app, Hnone. unfold count_calls. simpl. lia.
    + eexists _, _, (_ :: new1 ++ [EvCall "well3.claim_exp"]).
      split; [done|]. split; [exact Hinv1|]. split.
      { simpl. rewrite Htr1. unfold s1. simpl. by rewrite <- !(assoc_L (++)). }
      split; [done|].
      change (?e :: new1 ++ ?l) with ([e] ++ new1 ++ l).
      rewrite !count_calls_app, Hnone. unfold count_calls. simpl. lia.
  - destruct (IH cnt s2) as (r & s' & new & Hrun & Hinv & Htr & Hn & Hle).
    eexists r, s', (_ :: new1 ++ new).
    split; [done|]. split; [rewrite Hinv; exact Hinv1|]. split.
    { rewrite Htr, Htr1. unfold s1. simpl. by rewrite <- !(assoc_L (++)). }
    assert (∀ e, count_calls "well3.claim_exp" (EvLog INFO e :: new1 ++ new)
                 = count_calls "well3.claim_exp" new) as Hc.
    { intros e. change (?e :: new1 ++ new) with ([e] ++ new1 ++ new).
      by rewrite !count_calls_app, Hnone. }
    rewrite Hc. split; [done|]. simpl. lia.
  - eexists _, _, (_ :: new1).
    split; [done|]. split; [exact Hinv1|]. split.
    { rewrite Htr1. unfold s1. simpl. by rewrite <- !(assoc_L (++)). }
    split; [done|].
    change (?e :: new1) with ([e] ++ new1).
    rewrite !count_calls_app, Hnone. unfold count_calls. simpl. lia.
Qed.

(** X24.  The number [do_quests_batch] returns is the number of
    [claim_exp] calls it made, and no more than the number of tasks of
    the batch that are neither claimed already nor pending
    verification; for a batch name [self.quests] does not have, it
    raises KeyError after the "Starting" line without any claim. *)
Theorem do_quests_batch_counts_claims (batch_name : string) s :
  ∃ r s' new,
    do_quests_batch batch_name s = (r, s')
    ∧ invites s' = invites s
    ∧ trace s' = trace s ++ new
    ∧ (∀ n, r = Ok n → n = count_calls "well3.claim_exp" new)
    ∧ (∀ items, self_quests batch_name = Some items →
         (count_calls "well3.claim_exp" new
          ≤ length (filter (λ it, eligible it) items))%nat)
    ∧ (self_quests batch_name = None →
         ∃ e, r = Raise e ∧ exn_cls e = OtherError "KeyError"
              ∧ count_calls "well3.claim_exp" new = 0%nat).
Proof.
  unfold Quests.do_quests_batch, eff_bind. rewrite log_eq.
  destruct (self_quests batch_name) as [items|].
  - destruct (quests_loop_spec items 0
                (add_trace [EvLog INFO (self_idx +:+ ") Starting " +:+ batch_name
                                         +:+ " tasks...")] s))
      as (r & s' & new & Hrun & Hinv & Htr & Hn & Hle).
    eexists r, s', (_ :: new). split; [done|]. split; [done|]. split.
    { rewrite Htr. simpl. by rewrite <- (assoc_L (++)). }
    assert (∀ e, count_calls "well3.claim_exp" (EvLog INFO e :: new)
                 = count_calls "well3.claim_exp" new) as Hc by done.
    rewrite Hc. split; [intros n Hr; by rewrite (Hn n Hr)|].
    split; [by intros ? [= <-]|done].
  - eexists _, _, [_]. split; [done|]. split; [done|]. split; [done|].
    split; [done|]. split; [done|]. intros _. eexists. by split.
Qed.
End QuestFacts.

Lemma post_tweet_outcomes_witness :
  (∀ w : unit,
     ((λ (l : list nat) (_ : nat) (w : unit), (l, w))
        (seq 0 (length (splitlines "Join me") + 1))
        (length (splitlines "Join me") + 1)%nat w).1
     ≡ₚ seq 0 (length (splitlines "Join me") + 1))
  ∧ ∃ r s' (k : nat),
      QuestSamples.post_tweet0 Samples.s0 = (r, s')
      ∧ trace s' = trace Samples.s0 ++ replicate k (EvCall "twitter.post_tweet")
      ∧ (1 ≤ k ≤ 2)%nat.
Proof.
  split; [intros w; reflexivity|].
  destruct (post_tweet_outcomes (W:=unit) "Join me" ["CODE1"]
              (λ _ w, (Ok "https://x.com/status/1", w)) (λ l _ w, (l, w))
              Samples.s0 (λ w, reflexivity _))
    as (r & s' & k & Hrun & _ & Htrace & Hk & _).
  exists r, s', k. split; [exact Hrun|]. split; [exact Htrace|exact Hk].
Defined.


Lemma fake_twitter_calls_nothing_witness :
  true = true
  ∧ Quests.condition QuestSamples.follow_task ≠ Some "breathe"
  ∧ QuestSamples.do_task0 true QuestSamples.follow_task Samples.s0
    = (Ok true, Samples.s0).
Proof.
  split; [reflexivity|]. split; [discriminate|].
  destruct (fake_twitter_calls_nothing (W:=unit) true "breathe" "Join me" "1" []
              (λ w, (Ok tt, w)) (λ _ w, (Ok "https://x.com/status/1", w))
              (λ _ w, (Ok tt, w)) (λ _ w, (Ok tt, w)) (λ _ w, (Ok true, w))
              (λ _, 1000) (λ _, "0:00:00") (λ l _ w, (l, w)) (λ _ w, (Ok tt, w))
              QuestSamples.follow_task Samples.s0 eq_refl ltac:(discriminate))
    as (new & Hrun & _).
  reflexivity.
Defined.

Lemma do_quests_batch_counts_claims_witness :
  ∃ s' new,
    QuestSamples.do_quests_batch0 "dailyProgress" Samples.s0 = (Ok 1%nat, s')
    ∧ trace s' = trace Samples.s0 ++ new
    ∧ count_calls "well3.claim_exp" new = 1%nat.
Proof.
  destruct (do_quests_batch_counts_claims (W:=unit) false "breathe" "Join me" "1"
              QuestSamples.quests0 [] []
              (λ _ w, (Ok tt, w)) (λ w, (Ok tt, w))
              (λ _ w, (Ok "https://x.com/status/1", w))
              (λ _ w, (Ok tt, w)) (λ _ w, (Ok tt, w)) (λ _ w, (Ok true, w))
              (λ _, 1000) (λ _, "0:00:00") (λ l _ w, (l, w)) (λ _ w, (Ok tt, w))
              "dailyProgress" Samples.s0)
    as (r & s' & new & Hrun & _ & Htrace & Hcount & _).
  assert (r = Ok 1%nat) as Hr by (by injection Hrun as <- _).
  exists s', new. split; [rewrite <- Hr; exact Hrun|].
  split; [exact Htrace|]. symmetry. apply Hcount. exact Hr.
Defined.

(** The string primitives on sample inputs. *)

Example clean_title_link :
  Quests.clean_title
    ("Follow <a href=" +:+ String "034" "https://x.com/w" +:+ Quests.tag_close
     +:+ "Well3</a> now")
  = "Follow Well3 now".
Proof. reflexivity. Qed.

Example clean_title_break : Quests.clean_title "Breathe<br/>daily" = "Breathe".
Proof. reflexivity. Qed.

Example replace_codes :
  replace "{{invite_codes}}" "A" "x {{invite_codes}} y {{invite_codes}}" = "x A y A".
Proof. reflexivity. Qed.

Example last_segment_url : last_segment "/" "https://x.com/well3" = "well3".
Proof. reflexivity. Qed.

Example tweet_text_first :
  Quests.tweet_text "Join me
{{invite_codes}}" ["C1"; "C2"] 1
  = "Join me
#Well
C1
C2".
Proof. reflexivity. Qed.

(** ** Linking the wallet *)

Section WalletFacts.
Context {W : Type}.
Variable BREATHE_SESSION_CONDITION : string.
Variable WALLET_SIGN_MESSAGE_FORMAT : string.
Variable well3_generate_codes : W → result unit * W.
Variable well3_me : W → result Account.profile * W.
Variable well3_link_wallet : string → string → W → result unit * W.
Variable time_ms : W → Z.
Variable wait_a_bit : option duration → W → result unit * W.
Variable sign_message : string → string → result string.
Implicit Types (s : run_state W) (a : Account.account).

Local Abbreviation link_wallet_if_needed :=
  (Wallet.link_wallet_if_needed BREATHE_SESSION_CONDITION WALLET_SIGN_MESSAGE_FORMAT
     well3_generate_codes well3_me well3_link_wallet time_ms wait_a_bit sign_message).
Local Abbreviation refresh_profile :=
  (Account.refresh_profile BREATHE_SESSION_CONDITION well3_generate_codes well3_me).

Lemma refresh_profile_keeps_key a s :
  ∃ r a' s', refresh_profile (a, s) = (r, (a', s'))
             ∧ invites s' = invites s
             ∧ Account.private_key a' = Account.private_key a.
Proof.
  unfold Account.refresh_profile, eff_bind at 1. rewrite lift_call_eq.
  destruct (well3_generate_codes (outside s)) as [[[]|e] w1]; cbn [fst snd].
  2:{ by eexists _, _, _. }
  unfold eff_bind at 1. rewrite lift_call_eq. cbn [outside add_trace set_outside].
  destruct (well3_me w1) as [[p|e] w2]; cbn [fst snd].
  2:{ by eexists _, _, _. }
  unfold eff_bind, Account.get_self, Account.set_self. cbn [fst snd].
  eexists _, _, _. split; [done|]. split; [done|].
  unfold Account.apply_profile. done.
Qed.

(** X25.  [link_wallet_if_needed] binds the private key as its very
    last step.  With a wallet already linked it calls nothing and only
    binds the key.  Otherwise the key is bound exactly when signing,
    both pauses, [link_wallet] and the profile refresh have all
    returned: whenever the call raises, [self.private_key] is what it
    was before, and whenever it returns, it is the key passed in.  The
    invite pool is never touched. *)
Theorem link_wallet_binds_key_last (private_key : string) a s :
  (∀ p addr, Account.self_profile a = Some p →
             Account.linkedAddress p = Some addr →
     link_wallet_if_needed private_key (a, s)
     = (Ok tt,
        ({| Account.idx := Account.idx a; Account.info := Account.info a;
            Account.self_profile := Some p;
            Account.private_key := Some private_key |}, s)))
  ∧ ∃ r a' s',
      link_wallet_if_needed private_key (a, s) = (r, (a', s'))
      ∧ invites s' = invites s
      ∧ (r = Ok tt → Account.private_key a' = Some private_key)
      ∧ (∀ e, r = Raise e → Account.private_key a' = Account.private_key a).
Proof.
  split.
  - intros p addr Hp Hlinked.
    unfold Wallet.link_wallet_if_needed, eff_bind at 1, Account.get_self.
    cbn [fst snd]. rewrite Hp.
    destruct (decide (Account.linkedAddress p = None)) as [Hnone|_]; [congruence|].
    unfold eff_bind, eff_ret, Wallet.bind_key. cbn [fst snd]. by rewrite Hp.
  - unfold Wallet.link_wallet_if_needed, eff_bind at 1, Account.get_self.
    cbn [fst snd].
    destruct (Account.self_profile a) as [p|] eqn:Hp.
    2:{ exists (Raise (Exn (OtherError "TypeError")
                         "'NoneType' object is not subscriptable")), a, s.
        by repeat split. }
    destruct (decide (Account.linkedAddress p = None)) as [Hnone|Hsome].
    2:{ eexists (Ok tt), _, s. unfold eff_bind, eff_ret, Wallet.bind_key.
        cbn [fst snd]. by repeat split. }
    unfold eff_bind at 1. unfold eff_bind at 1. unfold Account.lift at 1.
    cbn [fst snd]. unfold eff_bind at 1, Account.lift at 1, Account.of_result.
    cbn [fst snd].
    destruct (sign_message _ private_key) as [signature|e].
    2:{ exists (Raise e), a, s. split; [done|]. split; [done|]. by split. }
    unfold eff_bind at 1. rewrite lift_call_eq.
    destruct (wait_a_bit (Some (Seconds 2)) (outside s)) as [[[]|e] w1]; cbn [fst snd].
    2:{ eexists (Raise e), a, _. by repeat split. }
    unfold eff_bind at 1. rewrite lift_call_eq. cbn [outside add_trace set_outside].
    destruct (well3_link_wallet _ signature w1) as [[[]|e] w2]; cbn [fst snd].
    2:{ eexists (Raise e), a, _. by repeat split. }
    unfold eff_bind at 1. rewrite lift_log_eq.
    unfold eff_bind at 1. rewrite lift_call_eq. cbn [outside add_trace set_outside].
    destruct (wait_a_bit (Some (Seconds 5)) w2) as [[[]|e] w3]; cbn [fst snd].
    2:{ eexists (Raise e), a, _. by repeat split. }
    match goal with
    | |- context [refresh_profile (a, ?s1)] =>
        destruct (refresh_profile_keeps_key a s1) as (r & a' & s' & Hrun & Hinv & Hkey)
    end.
    rewrite Hrun. destruct r as [[]|e].
    + eexists (Ok tt), _, s'. unfold Wallet.bind_key. cbn [fst snd].
      split; [done|]. split; [done|]. by split.
    + exists (Raise e), a', s'. split; [done|]. split; [done|].
      split; [done|]. by intros _ _.
Qed.
End WalletFacts.

Lemma link_wallet_binds_key_last_witness :
  Account.self_profile (Samples.account0 (Some "0xA") None)
  = Some (Samples.profile0 (Some "0xA"))
  ∧ Account.linkedAddress (Samples.profile0 (Some "0xA")) = Some "0xA"
  ∧ Wallet.link_wallet_if_needed (W:=unit) "breathe" "Link {{timestamp}}"
      (λ w, (Ok tt, w)) (λ w, (Ok (Samples.profile0 (Some "0xA")), w))
      (λ _ _ w, (Ok tt, w)) (λ _, 1000) (λ _ w, (Ok tt, w)) (λ _ _, Ok "0xsig")
      "key" (Samples.account0 (Some "0xA") None, Samples.s0)
    = (Ok tt, (Samples.account0 (Some "0xA") (Some "key"), Samples.s0)).
Proof.
  split; [reflexivity|]. split; [reflexivity|].
  destruct (link_wallet_binds_key_last (W:=unit) "breathe" "Link {{timestamp}}"
              (λ w, (Ok tt, w)) (λ w, (Ok (Samples.profile0 (Some "0xA")), w))
              (λ _ _ w, (Ok tt, w)) (λ _, 1000) (λ _ w, (Ok tt, w))
              (λ _ _, Ok "0xsig") "key" (Samples.account0 (Some "0xA") None)
              Samples.s0) as [Hlinked _].
  apply (Hlinked (Samples.profile0 (Some "0xA")) "0xA"); reflexivity.
Defined.
(** ** refresh *)

Section RefreshStoreFacts.
Context {W : Type}.
Variable BREATHE_SESSION_CONDITION : string.
Variable change_ip : string → W → result unit * W.
Variable check_insights : eff (Account.account * run_state W) unit.
Variable twitter_start :
  Storage.account_value → W → result Storage.account_value * W.
Variable sign_in_or_start_register_if_needed :
  Storage.account_value → W → result (bool * Storage.account_value) * W.
Variable well3_generate_codes : W → result unit * W.
Variable well3_me : W → result Account.profile * W.
Variable address_of_key : string → result string.
Implicit Types (st : Refresh.state W).

Local Abbreviation refresh :=
  (Refresh.refresh BREATHE_SESSION_CONDITION change_ip check_insights twitter_start
     sign_in_or_start_register_if_needed well3_generate_codes well3_me).

(** The store is as it was. *)
Local Abbreviation same_store st st' :=
  (Refresh.store st' = Refresh.store st ∧ Refresh.heap st' = Refresh.heap st).

Lemma in_run_frame {A} (m : eff (run_state W) A) st :
  ∃ r s', Refresh.in_run m st
          = (r, {| Refresh.store := Refresh.store st; Refresh.heap := Refresh.heap st;
                   Refresh.run := s' |}).
Proof. unfold Refresh.in_run. destruct (m (Refresh.run st)) as [r s']. eauto. Qed.

Lemma on_account_frame (a : Account.account)
    (m : eff (Account.account * run_state W) unit) st :
  ∃ r s', Refresh.on_account a m st
          = (r, {| Refresh.store := Refresh.store st; Refresh.heap := Refresh.heap st;
                   Refresh.run := s' |}).
Proof.
  unfold Refresh.on_account. destruct (m (a, Refresh.run st)) as [r [a' s']]. eauto.
Qed.

Lemma storage_set_spec (address : string) (v : Storage.account_value) st :
  Storage.wf (Refresh.store st) (Refresh.heap st) →
  ∃ st', Refresh.storage_set address v st = (Ok tt, st')
         ∧ Refresh.run st' = Refresh.run st
         ∧ Storage.wf (Refresh.store st') (Refresh.heap st')
         ∧ Storage.filename (Refresh.store st') = Storage.filename (Refresh.store st)
         ∧ Storage.contents (Refresh.store st') (Refresh.heap st')
           = <[address:=v]> (Storage.contents (Refresh.store st) (Refresh.heap st)).
Proof.
  intros Hwf. unfold Refresh.storage_set.
  destruct (Storage.alloc_account v (Refresh.heap st)) as [c h1] eqn:Hal.
  destruct (fresh_record_is_separate _ _ _ _ _ Hwf Hal) as [Hwf1 Hsep].
  pose proof (alloc_account_spec _ _ _ _ Hal) as (Hsub & Hview & _).
  destruct (set_account_info_spec _ _ address c v Hwf1 Hview Hsep)
    as (s' & h' & Hset & Hcontents & Hwf' & _).
  rewrite Hset. eexists. split; [done|]. simpl. split; [done|]. split; [done|].
  split.
  - unfold Storage.set_account_info, Storage.set_final_account_info in Hset.
    destruct (Storage.deepcopy c h1) as [[? ?]|]; simplify_eq/=. done.
  - rewrite Hcontents. f_equal. by apply contents_weaken.
Qed.

Lemma storage_get_spec (address : string) st :
  Storage.wf (Refresh.store st) (Refresh.heap st) →
  ∃ r st', Refresh.storage_get address st = (r, st')
           ∧ Refresh.run st' = Refresh.run st
           ∧ Refresh.store st' = Refresh.store st
           ∧ Storage.wf (Refresh.store st') (Refresh.heap st')
           ∧ Storage.contents (Refresh.store st') (Refresh.heap st')
             = Storage.contents (Refresh.store st) (Refresh.heap st)
           ∧ r = Ok (Storage.contents (Refresh.store st) (Refresh.heap st) !! address).
Proof.
  intros Hwf. unfold Refresh.storage_get.
  destruct (get_account_info_spec _ _ address Hwf)
    as (r & h' & Hget & Hview & Hcontents & Hwf' & _).
  rewrite Hget. destruct r as [c|]; simpl in Hview.
  - destruct (Storage.view h' c) as [v|] eqn:Hv.
    + eexists _, _. split; [done|]. simpl. by rewrite <- Hview.
    + exfalso. rewrite contents_lookup in Hview.
      unfold Storage.get_account_info, Storage.get_final_account_info in Hget.
      destruct (Storage.data (Refresh.store st) !! address) as [l|] eqn:Hl; [|done].
      simpl in Hview. destruct (Hwf _ _ Hl) as [v Hv']. congruence.
  - eexists _, _. split; [done|]. simpl. by rewrite <- Hview.
Qed.

(** X26.  [refresh] writes to the store once, at the very end.  On a
    store of complete records: when it returns a record, the entry of
    [address] has become that record and every other entry is as
    before; when it returns [None] (address unknown, or the platform
    asks for an invite) or raises anywhere, the store holds what it held
    before.  For an address the store does not hold, it returns [None]
    after its first log line without calling any collaborator. *)
Theorem refresh_stores_last (prefix address : string) (with_insights : bool) st :
  Storage.wf (Refresh.store st) (Refresh.heap st) →
  let before := Storage.contents (Refresh.store st) (Refresh.heap st) in
  ∃ r st',
    refresh prefix address with_insights st = (r, st')
    ∧ Storage.wf (Refresh.store st') (Refresh.heap st')
    ∧ Storage.filename (Refresh.store st') = Storage.filename (Refresh.store st)
    ∧ Storage.contents (Refresh.store st') (Refresh.heap st')
      = match r with
        | Ok (Some v) => <[address:=v]> before
        | _ => before
        end
    ∧ (before !! address = None →
         r = Ok None
         ∧ Refresh.run st'
           = add_trace [EvLog INFO (prefix +:+ ") " +:+ address)] (Refresh.run st)).
Proof.
  intros Hwf before. unfold Refresh.refresh.
  unfold eff_bind at 1. unfold Refresh.in_run at 1. rewrite log_eq.
  set (st0 := {| Refresh.store := Refresh.store st; Refresh.heap := Refresh.heap st;
                 Refresh.run := add_trace _ (Refresh.run st) |}).
  destruct (storage_get_spec address st0 Hwf)
    as (r1 & st1 & Hget & Hrun1 & Hstore1 & Hwf1 & Hc1 & Hr1).
  change (Storage.contents (Refresh.store st0) (Refresh.heap st0)) with before
    in Hc1, Hr1.
  change (Refresh.store st0) with (Refresh.store st) in Hstore1.
  unfold eff_bind at 1. rewrite Hget, Hr1.
  assert (Storage.filename (Refresh.store st1) = Storage.filename (Refresh.store st))
    as Hf1 by (by rewrite Hstore1).
  destruct (before !! address) as [info|] eqn:Hinfo.
  2:{ exists (Ok None), st1. unfold eff_ret. by repeat split. }
  (* from here on every step leaves store and memory as they are in [st1],
     until the record is stored *)
  assert (∀ (r : result (option Storage.account_value)) s',
            (∀ v, r ≠ Ok (Some v)) →
            let st' := {| Refresh.store := Refresh.store st1;
                          Refresh.heap := Refresh.heap st1; Refresh.run := s' |} in
            Storage.wf (Refresh.store st') (Refresh.heap st')
            ∧ Storage.filename (Refresh.store st') = Storage.filename (Refresh.store st)
            ∧ Storage.contents (Refresh.store st') (Refresh.heap st')
              = match r with
                | Ok (Some v) => <[address:=v]> before
                | _ => before
                end
            ∧ (Some info = None →
                 r = Ok None
                 ∧ Refresh.run st'
                   = add_trace [EvLog INFO (prefix +:+ ") " +:+ address)] (Refresh.run st)))
    as Hstop.
  { intros r s' Hr. simpl. split; [done|]. split; [done|]. split; [|done].
    destruct r as [[v|]|e]; [by destruct (Hr v)|done|done]. }
  set (ip := if contains "|" (Storage.proxy info) then _ else _).
  assert (∃ r s', ip st1
                  = (r, {| Refresh.store := Refresh.store st1;
                           Refresh.heap := Refresh.heap st1; Refresh.run := s' |}))
    as (r2 & s2 & Hip).
  { unfold ip. destruct (contains "|" (Storage.proxy info)).
    - destruct (split_on "|" (Storage.proxy info) !! 1%nat) as [link|].
      + unfold eff_bind.
        destruct (in_run_frame (call "change_ip" (change_ip link)) st1)
          as (r & s' & ->).
        destruct r as [[]|e]; [|eauto].
        unfold Refresh.in_run. rewrite log_eq. simpl. eauto.
      + unfold raise. destruct st1. eauto.
    - unfold eff_ret. destruct st1. eauto. }
  unfold eff_bind at 1. rewrite Hip. destruct r2 as [[]|e].
  2:{ eexists _, _. split; [done|]. by apply Hstop. }
  unfold eff_bind at 1.
  edestruct (in_run_frame (call "twitter.start" (twitter_start info))) as (r3 & s3 & ->).
  destruct r3 as [info3|e]; simpl.
  2:{ eexists _, _. split; [done|]. by apply Hstop. }
  unfold eff_bind at 1.
  edestruct (in_run_frame (call "well3.sign_in_or_start_register_if_needed"
                             (sign_in_or_start_register_if_needed info3)))
    as (r4 & s4 & ->).
  destruct r4 as [[need_invite info4]|e]; simpl.
  2:{ eexists _, _. split; [done|]. by apply Hstop. }
  destruct need_invite.
  { eexists _, _. split; [done|]. by apply Hstop. }
  unfold eff_bind at 1.
  edestruct on_account_frame as (r5 & s5 & ->).
  destruct r5 as [a5|e]; simpl.
  2:{ eexists _, _. split; [done|]. by apply Hstop. }
  unfold eff_bind at 1.
  set (insights := if with_insights then _ else _).
  assert (∃ r s', insights {| Refresh.store := Refresh.store st1;
                              Refresh.heap := Refresh.heap st1; Refresh.run := s5 |}
                  = (r, {| Refresh.store := Refresh.store st1;
                           Refresh.heap := Refresh.heap st1; Refresh.run := s' |}))
    as (r6 & s6 & ->).
  { unfold insights. destruct with_insights.
    - edestruct on_account_frame as (r & s' & ->). eauto.
    - unfold eff_ret. eauto. }
  destruct r6 as [a6|e].
  2:{ eexists _, _. split; [done|]. by apply Hstop. }
  unfold eff_bind at 1.
  destruct (storage_set_spec address (Account.info a6)
              {| Refresh.store := Refresh.store st1; Refresh.heap := Refresh.heap st1;
                 Refresh.run := s6 |} Hwf1)
    as (st7 & -> & _ & Hwf7 & Hf7 & Hc7).
  exists (Ok (Some (Account.info a6))), st7. unfold eff_ret. split; [done|].
  split; [done|]. split; [by rewrite Hf7|]. split; [|done].
  rewrite Hc7. simpl. by rewrite Hc1.
Qed.
End RefreshStoreFacts.

Lemma refresh_stores_last_witness :
  Storage.wf Samples.store1 Samples.heap1
  ∧ ∃ st',
      Refresh.refresh (W:=unit) "breathe" (λ _ w, (Ok tt, w)) (λ st, (Ok tt, st))
        (λ v w, (Ok v, w)) (λ v w, (Ok (false, v), w))
        (λ w, (Ok tt, w)) (λ w, (Ok (Samples.profile0 None), w))
        "Updating invites 1" "0xB" false
        {| Refresh.store := Samples.store1; Refresh.heap := Samples.heap1;
           Refresh.run := Samples.s0 |}
      = (Ok None, st')
      ∧ Storage.contents (Refresh.store st') (Refresh.heap st')
        = Storage.contents Samples.store1 Samples.heap1.
Proof.
  split; [exact store1_wf|].
  destruct (refresh_stores_last (W:=unit) "breathe" (λ _ w, (Ok tt, w))
              (λ st, (Ok tt, st)) (λ v w, (Ok v, w)) (λ v w, (Ok (false, v), w))
              (λ w, (Ok tt, w)) (λ w, (Ok (Samples.profile0 None), w))
              "Updating invites 1" "0xB" false
              {| Refresh.store := Samples.store1; Refresh.heap := Samples.heap1;
                 Refresh.run := Samples.s0 |} store1_wf)
    as (r & st' & Hrun & _ & _ & Hcontents & Hunknown).
  destruct (Hunknown eq_refl) as [Hr _].
  exists st'. rewrite Hr in Hrun, Hcontents. split; [exact Hrun|exact Hcontents].
Defined.

(** ** Signing in: the loop over the pool *)

Section InviteLoopFacts.
Context {W : Type}.
Variable AUTO_UPDATE_INVITES : bool.
Variable update_invites : eff (run_state W) unit.
Variable use_invite_code : Main.account_entry → string → W → result unit * W.
Implicit Types (s : run_state W) (d : Main.account_entry).

Local Abbreviation invite_pass :=
  (Main.invite_pass AUTO_UPDATE_INVITES update_invites use_invite_code).
Local Abbreviation invite_loop :=
  (Main.invite_loop AUTO_UPDATE_INVITES update_invites use_invite_code).

(** The platform rejects [code] as already used, whenever it is asked. *)
Local Abbreviation rejected d code :=
  (∀ w, ∃ e w', use_invite_code d code w = (Raise e, w')
                ∧ contains "Code not found or already used" (str_of_exn e) = true).


End InviteLoopFacts.

